(** * A metrics agent: rate trackers, Docker socket client, snapshot assembly

    Shallow embedding of [agent/agent.py].  Python values are modelled as the
    interpreter has them: [int] is [Z], [float] is IEEE-754 binary64 (Rocq's
    primitive [float]), a [dict] keyed by strings is a [gmap string _], an
    exception is a constructor of [exn] carried by [result].  The clock
    ([time.monotonic()]), the socket and the contents of [/proc] are inputs
    of the functions that read them. *)

From Stdlib Require Import ZArith Lia List String Ascii Bool DecimalString Sorted.
From Stdlib.Strings Require Import Byte.
From Stdlib Require Import Floats.
From stdpp Require Import gmap strings.

Local Open Scope Z_scope.

(** ** Python exceptions and fallible computations *)

Inductive exn : Set :=
  | OverflowError
  | ZeroDivisionError
  | TypeError
  | AttributeError
  | KeyError
  | IndexError
  | ValueError
  | OSError
  | SocketTimeout.

Inductive result (A : Type) : Type :=
  | Ok (a : A)
  | Raise (e : exn).
Arguments Ok {A} a.
Arguments Raise {A} e.

Definition bind {A B : Type} (r : result A) (k : A -> result B) : result B :=
  match r with
  | Ok a => k a
  | Raise e => Raise e
  end.

Notation "'do' x <- r ; k" := (bind r (fun x => k))
  (at level 10, x name, r at level 100, k at level 200).

(** [try: body except: default] *)
Definition try_except {A : Type} (body : result A) (default : A) : A :=
  match body with
  | Ok a => a
  | Raise _ => default
  end.

(** ** Python arithmetic on [int] and [float] *)

Module PyNum.

(** [float(z)] for an [int]: round to nearest, ties to even;
    [OverflowError] when the rounded value is not finite. *)
Definition float_of_int (z : Z) : result float :=
  match binary_normalize prec emax z 0 false with
  | S754_infinity _ => Raise OverflowError
  | f => Ok (SF2Prim f)
  end.

(** [a / b] on two [int]s: the correctly rounded quotient. *)
Definition int_truediv (a b : Z) : result float :=
  if b =? 0 then Raise ZeroDivisionError
  else if a =? 0 then Ok (if b <? 0 then (-0)%float else 0%float)
  else
    let '(mz, ez, lz) := SFdiv_core_binary prec emax (Z.abs a) 0 (Z.abs b) 0 in
    match binary_round_aux prec emax (xorb (a <? 0) (b <? 0)) mz ez lz with
    | S754_infinity _ => Raise OverflowError
    | f => Ok (SF2Prim f)
    end.

(** [x / y] on two [float]s. *)
Definition float_truediv (x y : float) : result float :=
  if (y =? 0)%float then Raise ZeroDivisionError else Ok (x / y)%float.

(** [a / y] with [a] an [int] and [y] a [float]: [a] is converted first. *)
Definition int_float_truediv (a : Z) (y : float) : result float :=
  do x <- float_of_int a; float_truediv x y.

Definition round_half_even (num den : Z) : Z :=
  let q := num / den in
  match (2 * (num mod den)) ?= den with
  | Lt => q
  | Gt => q + 1
  | Eq => if Z.even q then q else q + 1
  end.

(** [round(x, ndigits)] on a [float], [0 <= ndigits]: the decimal with
    [ndigits] fractional digits nearest to the exact value of [x] (ties to
    even), converted back to the nearest [float]; infinities and NaN are
    returned unchanged. *)
Definition float_round (x : float) (ndigits : Z) : result float :=
  match Prim2SF x with
  | S754_finite s m e =>
      if 0 <=? e then Ok x
      else
        let n := round_half_even (Zpos m * 10 ^ ndigits) (2 ^ (- e)) in
        if n =? 0 then Ok (if s then (-0)%float else 0%float)
        else int_truediv (if s then - n else n) (10 ^ ndigits)
  | _ => Ok x
  end.

(** [math.isfinite(x)] *)
Definition is_finite (x : float) : bool :=
  match Prim2SF x with
  | S754_zero _ | S754_finite _ _ _ => true
  | _ => false
  end.

End PyNum.

(** ** [class DeltaTracker] *)

Module DeltaTracker.
Import PyNum.

(** [self._data]; the lock makes [update] atomic and is not modelled.
    [now] is the value [time.monotonic()] returns inside the call.  The
    result pairs the updated dictionary with the returned rate, or with the
    exception that leaves the [with] block. *)
Definition update (_data : gmap string (Z * float)) (now : float)
    (key : string) (value : Z) : gmap string (Z * float) * result float :=
  match _data !! key with
  | Some (old_val, old_time) =>
      let time_delta := (now - old_time)%float in
      let val_delta := value - old_val in
      let _data := <[key := (value, now)]> _data in
      if (0 <? time_delta)%float
      then (_data, int_float_truediv val_delta time_delta)
      else (<[key := (value, now)]> _data, Ok 0%float)
  | None => (<[key := (value, now)]> _data, Ok 0%float)
  end.

End DeltaTracker.

(** ** [class CoreTracker] *)

Module CoreTracker.
Import PyNum.

Definition usage (idle_delta total_delta : Z) : result float :=
  do q <- int_truediv idle_delta total_delta;
  float_round ((1 - q) * 100)%float 1.

Definition update (_cores : gmap Z (Z * Z)) (core_id idle total : Z)
    : gmap Z (Z * Z) * result float :=
  match _cores !! core_id with
  | Some (old_idle, old_total) =>
      let idle_delta := idle - old_idle in
      let total_delta := total - old_total in
      let _cores := <[core_id := (idle, total)]> _cores in
      if 0 <? total_delta
      then (_cores, usage idle_delta total_delta)
      else (<[core_id := (idle, total)]> _cores, Ok 0%float)
  | None => (<[core_id := (idle, total)]> _cores, Ok 0%float)
  end.

End CoreTracker.

(** ** Values produced by [json.loads] and stored in the snapshot *)

#[local] Set Warnings "-register-all".

Inductive json : Type :=
  | JNull                                   (* None *)
  | JBool (b : bool)
  | JInt (z : Z)
  | JFloat (f : float)
  | JStr (s : string)
  | JList (l : list json)
  | JDict (d : list (string * json)).       (* insertion-ordered, string keys *)

Module PyObj.

(** [bool(v)] *)
Definition truthy (v : json) : bool :=
  match v with
  | JNull => false
  | JBool b => b
  | JInt z => negb (z =? 0)
  | JFloat f => negb (f =? 0)%float
  | JStr s => negb (String.eqb s "")
  | JList l => match l with [] => false | _ => true end
  | JDict d => match d with [] => false | _ => true end
  end.

Fixpoint dict_lookup (d : list (string * json)) (k : string) : option json :=
  match d with
  | [] => None
  | (k', v) :: d' => if String.eqb k' k then Some v else dict_lookup d' k
  end.

(** [d[k] = v]: replaces the value in place, or appends a new entry *)
Fixpoint dict_set (d : list (string * json)) (k : string) (v : json)
    : list (string * json) :=
  match d with
  | [] => [(k, v)]
  | (k', v') :: d' =>
      if String.eqb k' k then (k', v) :: d' else (k', v') :: dict_set d' k v
  end.

(** [d[k]] *)
Definition dict_getitem (d : list (string * json)) (k : string) : result json :=
  match dict_lookup d k with
  | Some v => Ok v
  | None => Raise KeyError
  end.

(** [obj.get(k, default)]: only a [dict] has the method *)
Definition get (obj : json) (k : string) (default : json) : result json :=
  match obj with
  | JDict d => Ok (match dict_lookup d k with Some v => v | None => default end)
  | _ => Raise AttributeError
  end.

(** [obj[0]] *)
Definition getitem0 (obj : json) : result json :=
  match obj with
  | JList (x :: _) => Ok x
  | JList [] => Raise IndexError
  | JStr (String c _) => Ok (JStr (String c EmptyString))
  | JStr EmptyString => Raise IndexError
  | JDict _ => Raise KeyError
  | _ => Raise TypeError
  end.

(** [s.lstrip('/')] on a [str] *)
Fixpoint str_lstrip_slash (s : string) : string :=
  match s with
  | String c s' => if Ascii.eqb c "/" then str_lstrip_slash s' else s
  | EmptyString => s
  end.

Definition lstrip_slash (obj : json) : result string :=
  match obj with
  | JStr s => Ok (str_lstrip_slash s)
  | _ => Raise AttributeError
  end.

Fixpoint str_has_slash (s : string) : bool :=
  match s with
  | String c s' => Ascii.eqb c "/" || str_has_slash s'
  | EmptyString => false
  end.

Definition is_slash_str (v : json) : bool :=
  match v with
  | JStr s => String.eqb s "/"
  | _ => false
  end.

(** ['/' in obj] *)
Definition contains_slash (obj : json) : result bool :=
  match obj with
  | JStr s => Ok (str_has_slash s)
  | JList l => Ok (existsb is_slash_str l)
  | JDict d => Ok (match dict_lookup d "/" with Some _ => true | None => false end)
  | _ => Raise TypeError
  end.

(** [s.split('/')[-1]]: what follows the last ['/'] *)
Fixpoint str_last_segment (s acc : string) : string :=
  match s with
  | String c s' =>
      if Ascii.eqb c "/" then str_last_segment s' EmptyString
      else str_last_segment s' (acc ++ String c EmptyString)
  | EmptyString => acc
  end.

Definition split_slash_last (obj : json) : result json :=
  match obj with
  | JStr s => Ok (JStr (str_last_segment s EmptyString))
  | _ => Raise AttributeError
  end.

(** the items a [for] loop draws from [obj] *)
Definition iterate (obj : json) : result (list json) :=
  match obj with
  | JList l => Ok l
  | JDict d => Ok (map (fun kv => JStr (fst kv)) d)
  | JStr s => Ok (map (fun c => JStr (String c EmptyString)) (list_ascii_of_string s))
  | _ => Raise TypeError
  end.

End PyObj.

(** ** [get_containers]: the Docker socket client *)

Module Docker.
Import PyObj.

(** operations on [bytes] *)
Fixpoint starts_with (needle hay : list byte) : bool :=
  match needle, hay with
  | [], _ => true
  | n :: needle', h :: hay' => Byte.eqb n h && starts_with needle' hay'
  | _ :: _, [] => false
  end.

(** [hay.find(needle)], [None] for [-1] *)
Fixpoint find (needle hay : list byte) : option nat :=
  if starts_with needle hay then Some O
  else match hay with
       | [] => None
       | _ :: hay' => option_map S (find needle hay')
       end.

(** [needle in hay] *)
Definition contains (needle hay : list byte) : bool :=
  match find needle hay with Some _ => true | None => false end.

Definition len (b : list byte) : Z := Z.of_nat (length b).

(** [\r\n0\r\n\r\n], the last chunk of a chunked body *)
Definition end_marker : list byte := [x0d; x0a; x30; x0d; x0a; x0d; x0a].
(** [\r\n\r\n] *)
Definition blank_line : list byte := [x0d; x0a; x0d; x0a].
Definition open_bracket : byte := x5b.
Definition close_bracket : byte := x5d.

(** what one [sock.recv(1024)] does *)
Inductive recv_result : Type :=
  | Chunk (data : list byte)     (* [b''] when the peer has closed *)
  | RecvTimeout                  (* raises [socket.timeout] *)
  | RecvError.                   (* raises another [OSError] *)

(** the peer: whether [connect] and [sendall] succeed, and what the
    [i]-th call of [recv] does *)
Record socket : Type := {
  connect : result unit;
  sendall : result unit;
  recv : nat -> recv_result
}.

(** [for _ in range(n)] of the read loop, [i] calls of [recv] made so far;
    returns the response (or the exception that leaves the loop) and the
    number of calls made *)
Fixpoint read_loop (recv : nat -> recv_result) (n i : nat) (response : list byte)
    : result (list byte) * nat :=
  match n with
  | O => (Ok response, i)
  | S n' =>
      match recv i with
      | RecvTimeout => (Ok response, S i)
      | RecvError => (Raise OSError, S i)
      | Chunk chunk =>
          match chunk with
          | [] => (Ok response, S i)
          | _ =>
              let response := response ++ chunk in
              if contains end_marker response || (50000 <? len response)
              then (Ok response, S i)
              else read_loop recv n' (S i) response
          end
      end
  end.

(** The stop conditions as the specification words them, over the sequence
    of reads: [received recv k] is what the first [k] reads have delivered,
    [stops_at recv k] says that the loop has to stop after read number [k]
    (counted from 0). *)
Fixpoint received (recv : nat -> recv_result) (k : nat) : list byte :=
  match k with
  | O => []
  | S k' =>
      received recv k' ++ match recv k' with Chunk c => c | _ => [] end
  end.

Definition stops_at (recv : nat -> recv_result) (k : nat) : bool :=
  match recv k with
  | RecvTimeout | RecvError => true
  | Chunk [] => true
  | Chunk _ =>
      contains end_marker (received recv (S k))
      || (50000 <? len (received recv (S k)))
  end.

(** [response.split(b'\r\n\r\n', 1)] when the separator occurs *)
Definition split_headers (response : list byte) : option (list byte * list byte) :=
  match find blank_line response with
  | Some i => Some (firstn i response, skipn (i + length blank_line) response)
  | None => None
  end.

(** the bracket scan over [body[json_start:]], [i] bytes in, at most [n]
    more bytes to look at; returns [json_end - json_start] *)
Fixpoint scan_brackets (rest : list byte) (n i : nat) (depth : Z) : nat :=
  match n, rest with
  | S n', b :: rest' =>
      if Byte.eqb b open_bracket then scan_brackets rest' n' (S i) (depth + 1)
      else if Byte.eqb b close_bracket then
        if depth - 1 =? 0 then S i
        else scan_brackets rest' n' (S i) (depth - 1)
      else scan_brackets rest' n' (S i) depth
  | _, _ => O
  end.

(** [body[json_start:json_end]], when [body] has a [[] *)
Definition extract_json (body : list byte) : option (list byte) :=
  match find [open_bracket] body with
  | Some json_start =>
      let rest := skipn json_start body in
      Some (firstn (scan_brackets rest (Z.to_nat 50000) 0 0) rest)
  | None => None
  end.

Record summary : Type := {
  name : string;
  status : json;
  image : json
}.

(** one pass of the body of [for container in data]: [None] is [continue] *)
Definition map_container (container : json) : result (option summary) :=
  do names <- get container "Names" (JList []);
  if negb (truthy names) then Ok None
  else
    do first <- getitem0 names;
    do name <- lstrip_slash first;
    do image <- get container "Image" (JStr "");
    do has_slash <- contains_slash image;
    do image <- (if has_slash then split_slash_last image else Ok image);
    do state <- get container "State" (JStr "unknown");
    Ok (Some {| name := name; status := state; image := image |}).

(** the loop, threading the list [containers] that [append] mutates; an
    exception leaves the loop with the list as it is at that point *)
Fixpoint map_containers (data : list json) (containers : list summary)
    : list summary * result unit :=
  match data with
  | [] => (containers, Ok tt)
  | container :: data' =>
      match map_container container with
      | Ok None => map_containers data' containers
      | Ok (Some c) => map_containers data' (containers ++ [c])
      | Raise e => (containers, Raise e)
      end
  end.

Section GetContainers.

(** [json.loads(b.decode('utf-8'))] of the standard library: the decoded
    value, or the [ValueError] either step raises *)
Variable json_loads : list byte -> result json.

(** the [try] block: the list [containers] when it ends, and how it ends *)
Definition get_containers_body (sock : socket) : list summary * result unit :=
  let containers := [] in
  match connect sock with
  | Raise e => (containers, Raise e)
  | Ok _ =>
  match sendall sock with
  | Raise e => (containers, Raise e)
  | Ok _ =>
  match fst (read_loop (recv sock) 100 0 []) with
  | Raise e => (containers, Raise e)
  | Ok response =>
  match split_headers response with
  | None => (containers, Ok tt)
  | Some (headers, body) =>
  match extract_json body with
  | None => (containers, Ok tt)
  | Some json_str =>
  match json_loads json_str with
  | Raise e => (containers, Raise e)
  | Ok data =>
  match iterate data with
  | Raise e => (containers, Raise e)
  | Ok items => map_containers items containers
  end end end end end end end.

(** [except Exception: pass] and [return containers] *)
Definition get_containers (sock : socket) : list summary :=
  fst (get_containers_body sock).

End GetContainers.

(** A peer and its reply, for running the client.  In the literal a ['] stands
    for the double quote of JSON. *)
Definition bytes_of (s : string) : list byte :=
  map (fun b => if Byte.eqb b x27 then x22 else b) (list_byte_of_string s).

Definition reply_payload : list byte :=
  bytes_of "[{'Names':['/web'],'Image':'library/nginx','State':'running'},{'Names':[7]}]".

Definition reply : list byte :=
  bytes_of "HTTP/1.1 200 OK" ++ blank_line ++ reply_payload.

Definition reply_data : json :=
  JList [ JDict [ ("Names", JList [JStr "/web"]);
                  ("Image", JStr "library/nginx");
                  ("State", JStr "running") ];
          JDict [ ("Names", JList [JInt 7]) ] ].

Definition peer : socket := {|
  connect := Ok tt;
  sendall := Ok tt;
  recv := fun i => match i with O => Chunk reply | _ => Chunk [] end
|}.

End Docker.

(** ** Operations on [str] *)

Module PyStr.

(** [s.startswith(prefix)] *)
Definition startswith (pre s : string) : bool := String.prefix pre s.

(** [needle in hay] *)
Fixpoint contains (needle hay : string) : bool :=
  String.prefix needle hay
  || match hay with
     | EmptyString => false
     | String _ hay' => contains needle hay'
     end.

(** the pieces of [s.split(sep)], [sep] a single character *)
Fixpoint split_go (sep : ascii) (s acc : string) : list string :=
  match s with
  | EmptyString => [acc]
  | String c s' =>
      if Ascii.eqb c sep then acc :: split_go sep s' EmptyString
      else split_go sep s' (acc ++ String c EmptyString)
  end.

Definition split (sep : ascii) (s : string) : list string :=
  split_go sep s EmptyString.

(** [s.split(sep, 1)[1]]: what follows the first [sep] *)
Fixpoint split1_second (sep : ascii) (s : string) : result string :=
  match s with
  | EmptyString => Raise IndexError
  | String c s' => if Ascii.eqb c sep then Ok s' else split1_second sep s'
  end.

(** [c.isspace()], for the characters a [string] holds *)
Definition isspace (c : ascii) : bool :=
  let n := N_of_ascii c in
  ((9 <=? n) && (n <=? 13) || (28 <=? n) && (n <=? 32)
   || (n =? 133) || (n =? 160))%N.

Fixpoint lstrip_by (p : ascii -> bool) (s : string) : string :=
  match s with
  | String c s' => if p c then lstrip_by p s' else s
  | EmptyString => s
  end.

Definition rev (s : string) : string :=
  string_of_list_ascii (List.rev (list_ascii_of_string s)).

Definition strip_by (p : ascii -> bool) (s : string) : string :=
  rev (lstrip_by p (rev (lstrip_by p s))).

(** [s.strip()] *)
Definition strip (s : string) : string := strip_by isspace s.

(** [s.strip(q)], [q] the double quote *)
Definition strip_quotes (s : string) : string :=
  strip_by (fun c => Ascii.eqb c (ascii_of_nat 34)) s.

(** [s[:n]] *)
Definition take (n : nat) (s : string) : string := String.substring 0 n s.

End PyStr.

(** ** [get_static_info] *)

(** The lines a [for line in f] loop draws from a text file: iteration ends
    with the file, or with the exception that [open] or a read raises. *)
Inductive file_lines : Type :=
  | Eof
  | Line (line : string) (rest : file_lines)
  | ReadError (e : exn).

Module StaticInfo.
Import PyObj.

(** [for line in f: if line.startswith('model name'): ...; break] *)
Fixpoint scan_cpuinfo (f : file_lines) (info : list (string * json))
    : list (string * json) * result unit :=
  match f with
  | Eof => (info, Ok tt)
  | ReadError e => (info, Raise e)
  | Line line rest =>
      if PyStr.startswith "model name" line then
        match PyStr.split1_second ":" line with
        | Ok v => (dict_set info "cpu_model" (JStr (PyStr.strip v)), Ok tt)
        | Raise e => (info, Raise e)
        end
      else scan_cpuinfo rest info
  end.

(** [for line in f: if line.startswith('PRETTY_NAME='): ...; break] *)
Fixpoint scan_os_release (f : file_lines) (info : list (string * json))
    : list (string * json) * result unit :=
  match f with
  | Eof => (info, Ok tt)
  | ReadError e => (info, Raise e)
  | Line line rest =>
      if PyStr.startswith "PRETTY_NAME=" line then
        match PyStr.split1_second "=" line with
        | Ok v =>
            (dict_set info "os" (JStr (PyStr.strip_quotes (PyStr.strip v))), Ok tt)
        | Raise e => (info, Raise e)
        end
      else scan_os_release rest info
  end.

(** what the host gives to [get_static_info] *)
Record host : Type := {
  hostname : string;          (* socket.gethostname() *)
  machine : string;           (* os.uname().machine *)
  cpu_count : Z;              (* os.cpu_count() or 1 *)
  page_size : Z;              (* os.sysconf('SC_PAGE_SIZE') *)
  cpuinfo : file_lines;       (* /proc/cpuinfo *)
  os_release : file_lines     (* /etc/os-release *)
}.

Definition get_static_info (h : host) : list (string * json) :=
  let info :=
    [ ("hostname", JStr (hostname h));
      ("arch", JStr (machine h));
      ("cpu_model", JStr "unknown");
      ("cpu_count", JInt (cpu_count h));
      ("page_size", JInt (page_size h)) ] in
  (* try: ... except: pass *)
  let info := fst (scan_cpuinfo (cpuinfo h) info) in
  (* try: ... except: info['os'] = 'Linux' *)
  match scan_os_release (os_release h) info with
  | (info, Ok _) => info
  | (info, Raise _) => dict_set info "os" (JStr "Linux")
  end.

(** the file is read to its end and no line starts with [PRETTY_NAME=] *)
Fixpoint no_pretty_name (f : file_lines) : bool :=
  match f with
  | Eof => true
  | Line line rest =>
      negb (PyStr.startswith "PRETTY_NAME=" line) && no_pretty_name rest
  | ReadError _ => false
  end.

(** a host whose [/etc/os-release] has the two lines [NAME=Alpine] and
    [ID=alpine], and whose [/proc/cpuinfo] cannot be opened *)
Definition minimal_host : host := {|
  hostname := "box";
  machine := "x86_64";
  cpu_count := 1;
  page_size := 4096;
  cpuinfo := ReadError OSError;
  os_release := Line "NAME=Alpine" (Line "ID=alpine" Eof)
|}.

End StaticInfo.

(** ** The collectors, at their [try]/[except] boundary *)

Module Collectors.
Import PyObj PyNum.

(** What the [try] blocks compute from the kernel files and subprocesses:
    for a collector that is one [try: return value / except: return default],
    the value or the exception; for a collector that accumulates a list and
    returns it also after an exception, the list. *)
Record readings : Type := {
  uptime_body : result json;
  cpu_body : result json;
  cpu_freq_body : result (option (json * json * json));
  temps_found : list json;
  memory_body : result (json * json);
  filesystems_found : list json;
  disk_io_found : list json;
  network_found : list json;
  tcp_counts : list (string * json);
  load_body : result json;
  fds_body : result (Z * Z);
  entropy_body : result Z;
  processes_found : list json;
  containers_found : list json;
  logs_found : list json
}.

Definition get_uptime_boot (r : readings) : json :=
  try_except (uptime_body r)
    (JDict [("uptime_seconds", JInt 0); ("boot_time", JInt 0)]).

Definition get_cpu (r : readings) : json :=
  try_except (cpu_body r)
    (JDict [("percent", JInt 0); ("cores", JList []);
            ("context_switches_sec", JInt 0)]).

(** [if freqs: return {...}] inside the [try], [return None] after it *)
Definition get_cpu_freq (r : readings) : json :=
  match cpu_freq_body r with
  | Ok (Some (cur, lo, hi)) =>
      JDict [("current_mhz", cur); ("min_mhz", lo); ("max_mhz", hi)]
  | Ok None | Raise _ => JNull
  end.

(** [return temps if temps else None] *)
Definition get_temperatures (r : readings) : json :=
  if truthy (JList (temps_found r)) then JList (temps_found r) else JNull.

Definition get_memory (r : readings) : json :=
  match memory_body r with
  | Ok (memory, swap) => JDict [("memory", memory); ("swap", swap)]
  | Raise _ =>
      JDict [("memory", JDict [("total", JInt 0); ("used", JInt 0); ("percent", JInt 0)]);
             ("swap", JDict [("total", JInt 0); ("used", JInt 0); ("percent", JInt 0)])]
  end.

Definition get_load (r : readings) : json :=
  try_except (load_body r)
    (JDict [("load1", JInt 0); ("load5", JInt 0); ("load15", JInt 0)]).

(** [round((allocated / max_fds) * 100, 2) if max_fds > 0 else 0] *)
Definition fds_percent (allocated max_fds : Z) : result json :=
  if 0 <? max_fds then
    do q <- int_truediv allocated max_fds;
    do p <- float_round (q * 100)%float 2;
    Ok (JFloat p)
  else Ok (JInt 0).

Definition get_file_descriptors (r : readings) : json :=
  try_except
    (do am <- fds_body r;
     do p <- fds_percent (fst am) (snd am);
     Ok (JDict [("allocated", JInt (fst am)); ("max", JInt (snd am)); ("percent", p)]))
    JNull.

Definition get_entropy (r : readings) : json :=
  try_except (do n <- entropy_body r; Ok (JInt n)) JNull.

(** [results = {k: v.result() for k, v in futures.items()}] *)
Record results : Type := {
  uptime : json;
  cpu : json;
  cpu_freq : json;
  temps : json;
  memory : json;
  filesystems : json;
  disk_io : json;
  network : json;
  tcp : json;
  load : json;
  fds : json;
  entropy : json;
  processes : json;
  containers : json;
  logs : json
}.

Definition run_collectors (r : readings) : results := {|
  uptime := get_uptime_boot r;
  cpu := get_cpu r;
  cpu_freq := get_cpu_freq r;
  temps := get_temperatures r;
  memory := get_memory r;
  filesystems := JList (filesystems_found r);
  disk_io := JList (disk_io_found r);
  network := JList (network_found r);
  tcp := JDict (tcp_counts r);
  load := get_load r;
  fds := get_file_descriptors r;
  entropy := get_entropy r;
  processes := JList (processes_found r);
  containers := JList (containers_found r);
  logs := JList (logs_found r)
|}.

(** every source unavailable: every [try] block raises, nothing is found *)
Definition nothing_readable : readings := {|
  uptime_body := Raise OSError;
  cpu_body := Raise OSError;
  cpu_freq_body := Raise OSError;
  temps_found := [];
  memory_body := Raise OSError;
  filesystems_found := [];
  disk_io_found := [];
  network_found := [];
  tcp_counts := [("total", JInt 0)];
  load_body := Raise OSError;
  fds_body := Raise OSError;
  entropy_body := Raise OSError;
  processes_found := [];
  containers_found := [];
  logs_found := []
|}.

End Collectors.

(** ** [collect_metrics] *)

Module Orchestrator.
Import PyObj Collectors.

Definition AGENT_VERSION : string := "1.0.0".

(** [obj[k]] with a string key *)
Definition getitem (obj : json) (k : string) : result json :=
  match obj with
  | JDict d => dict_getitem d k
  | _ => Raise TypeError
  end.

(** [if cond: metrics[k] = v] *)
Definition set_if (cond : bool) (metrics : list (string * json)) (k : string)
    (v : json) : list (string * json) :=
  if cond then dict_set metrics k v else metrics.

(** [static] is what [get_static_info()] returns, [timestamp] is
    [datetime.utcnow().isoformat() + 'Z'], [res] is the dictionary of the
    collectors' results. *)
Definition collect_metrics (static : list (string * json)) (timestamp : string)
    (res : results) : result (list (string * json)) :=
  do hostname <- dict_getitem static "hostname";
  do os <- dict_getitem static "os";
  do arch <- dict_getitem static "arch";
  do cpu_model <- dict_getitem static "cpu_model";
  do cpu_count <- dict_getitem static "cpu_count";
  do mem_data_memory <- getitem (memory res) "memory";
  do mem_data_swap <- getitem (memory res) "swap";
  let metrics :=
    [ ("agent_version", JStr AGENT_VERSION);
      ("timestamp", JStr timestamp);
      ("hostname", hostname);
      ("system", JDict [("os", os); ("arch", arch);
                        ("cpu_model", cpu_model); ("cpu_count", cpu_count)]);
      ("uptime", uptime res);
      ("cpu", cpu res);
      ("memory", mem_data_memory);
      ("swap", mem_data_swap);
      ("load", load res);
      ("filesystems", filesystems res);
      ("disk_io", disk_io res);
      ("network", network res);
      ("tcp", tcp res);
      ("processes", processes res);
      ("containers", containers res);
      ("logs", logs res) ] in
  let metrics := set_if (truthy (cpu_freq res)) metrics "cpu_freq" (cpu_freq res) in
  let metrics := set_if (truthy (temps res)) metrics "temperatures" (temps res) in
  let metrics := set_if (truthy (fds res)) metrics "file_descriptors" (fds res) in
  let metrics :=
    set_if (match entropy res with JNull => false | _ => true end)
           metrics "entropy" (entropy res) in
  Ok metrics.

(** a pass on a host that reports its name, where only the entropy
    (the value 0) and the file-descriptor counts can be read *)
Definition sample_static : list (string * json) :=
  [ ("hostname", JStr "box"); ("arch", JStr "x86_64");
    ("cpu_model", JStr "unknown"); ("cpu_count", JInt 1);
    ("page_size", JInt 4096); ("os", JStr "Debian GNU/Linux 12") ].

Definition sample_readings : readings := {|
  uptime_body := Raise OSError;
  cpu_body := Raise OSError;
  cpu_freq_body := Raise OSError;
  temps_found := [];
  memory_body := Raise OSError;
  filesystems_found := [];
  disk_io_found := [];
  network_found := [];
  tcp_counts := [("total", JInt 0)];
  load_body := Raise OSError;
  fds_body := Ok (1024, 65536);
  entropy_body := Ok 0;
  processes_found := [];
  containers_found := [];
  logs_found := []
|}.

Definition sample_metrics : list (string * json) :=
  Eval vm_compute in
    match collect_metrics sample_static "2024-01-01T00:00:00Z"
                          (run_collectors sample_readings) with
    | Ok metrics => metrics
    | Raise _ => []
    end.

End Orchestrator.

(** ** [json.dumps] and [MetricsHandler.do_GET] *)

Module JsonDumps.

Local Open Scope string_scope.

Definition dquote : ascii := "034"%char.
Definition backslash : ascii := "092"%char.
Definition newline : ascii := "010"%char.

Definition hex_digit (n : N) : ascii :=
  ascii_of_N (if (n <? 10)%N then 48 + n else 87 + n).

(** what the encoder writes for one character of a [str]
    ([ensure_ascii=True]): printable ASCII as it is, the rest escaped *)
Definition escape_char (c : ascii) : string :=
  let n := N_of_ascii c in
  if Ascii.eqb c dquote then String backslash (String dquote EmptyString)
  else if Ascii.eqb c backslash then String backslash (String backslash EmptyString)
  else if (n =? 10)%N then String backslash "n"
  else if (n =? 13)%N then String backslash "r"
  else if (n =? 9)%N then String backslash "t"
  else if (n =? 8)%N then String backslash "b"
  else if (n =? 12)%N then String backslash "f"
  else if ((32 <=? n) && (n <=? 126))%N then String c EmptyString
  else String backslash
         (String "u" (String "0" (String "0"
           (String (hex_digit (n / 16)) (String (hex_digit (n mod 16)) EmptyString))))).

Fixpoint escape (s : string) : string :=
  match s with
  | EmptyString => EmptyString
  | String c s' => escape_char c ++ escape s'
  end.

Definition encode_str (s : string) : string :=
  String dquote (escape s ++ String dquote EmptyString).

(** [int.__repr__] *)
Definition int_repr (z : Z) : string := NilZero.string_of_int (Z.to_int z).

Fixpoint spaces (n : nat) : string :=
  match n with
  | O => EmptyString
  | S n' => String " " (spaces n')
  end.

Section Encoder.

(** [float.__repr__] on a finite [float], of the standard library *)
Variable float_repr : float -> string.

Definition floatstr (f : float) : string :=
  if negb (f =? f)%float then "NaN"
  else if (f =? infinity)%float then "Infinity"
  else if (f =? neg_infinity)%float then "-Infinity"
  else float_repr f.

(** [indent=None] or [indent=n]; the two separators *)
Variable indent : option nat.
Variable item_separator key_separator : string.

(** ['\n' + ' ' * (indent * level)], nothing without [indent] *)
Definition newline_indent (level : nat) : string :=
  match indent with
  | Some n => String newline (spaces (n * level))
  | None => EmptyString
  end.

(** the items, the first as it is and each other one after [sep] *)
Fixpoint join (sep : string) (items : list string) : string :=
  match items with
  | [] => EmptyString
  | [x] => x
  | x :: items' => x ++ sep ++ join sep items'
  end.

Fixpoint encode (v : json) (level : nat) {struct v} : string :=
  match v with
  | JNull => "null"
  | JBool true => "true"
  | JBool false => "false"
  | JInt z => int_repr z
  | JFloat f => floatstr f
  | JStr s => encode_str s
  | JList [] => "[]"
  | JList l =>
      "[" ++ newline_indent (S level)
      ++ join (item_separator ++ newline_indent (S level))
              (map (fun x => encode x (S level)) l)
      ++ newline_indent level ++ "]"
  | JDict [] => "{}"
  | JDict d =>
      "{" ++ newline_indent (S level)
      ++ join (item_separator ++ newline_indent (S level))
              (map (fun kx => encode_str (fst kx) ++ key_separator
                              ++ encode (snd kx) (S level)) d)
      ++ newline_indent level ++ "}"
  end.

End Encoder.

(** [json.dumps(obj, separators=(',', ':'))] *)
Definition dumps_compact (float_repr : float -> string) (obj : json) : string :=
  encode float_repr None "," ":" obj 0.

(** [json.dumps(obj, indent=2)]: the separators are then [','] and [': '] *)
Definition dumps_indent2 (float_repr : float -> string) (obj : json) : string :=
  encode float_repr (Some 2%nat) "," ": " obj 0.

(** *** The lexical structure of a JSON text

    A deserializer reads a JSON text as a sequence of tokens, with the
    whitespace between them insignificant: the six structural characters,
    strings (kept here as the characters between the quotes) and atoms
    (numbers and the names [null], [true], [false], [NaN], ...). *)

Inductive token : Type :=
  | TLBrace | TRBrace | TLBrack | TRBrack | TComma | TColon
  | TString (raw : string)
  | TAtom (text : string).

Definition is_ws (c : ascii) : bool :=
  let n := N_of_ascii c in ((n =? 32) || (n =? 9) || (n =? 10) || (n =? 13))%N.

Definition structural (c : ascii) : option token :=
  if Ascii.eqb c "{" then Some TLBrace
  else if Ascii.eqb c "}" then Some TRBrace
  else if Ascii.eqb c "[" then Some TLBrack
  else if Ascii.eqb c "]" then Some TRBrack
  else if Ascii.eqb c "," then Some TComma
  else if Ascii.eqb c ":" then Some TColon
  else None.

Inductive mode : Type :=
  | MOut                      (* between tokens *)
  | MAtom (text : string)     (* in an atom *)
  | MStr (raw : string)       (* in a string *)
  | MEsc (raw : string).      (* in a string, after a backslash *)

Definition add_char (s : string) (c : ascii) : string := s ++ String c EmptyString.

(** one character; [None] when the text is not well formed *)
Definition step (st : mode * list token) (c : ascii) : option (mode * list token) :=
  let '(m, ts) := st in
  match m with
  | MOut =>
      if is_ws c then Some (MOut, ts)
      else match structural c with
           | Some t => Some (MOut, (ts ++ [t])%list)
           | None =>
               if Ascii.eqb c dquote then Some (MStr EmptyString, ts)
               else Some (MAtom (String c EmptyString), ts)
           end
  | MAtom text =>
      if is_ws c then Some (MOut, (ts ++ [TAtom text])%list)
      else match structural c with
           | Some t => Some (MOut, (ts ++ [TAtom text; t])%list)
           | None =>
               if Ascii.eqb c dquote then None
               else Some (MAtom (add_char text c), ts)
           end
  | MStr raw =>
      if Ascii.eqb c dquote then Some (MOut, (ts ++ [TString raw])%list)
      else if Ascii.eqb c backslash then Some (MEsc (add_char raw c), ts)
      else if (N_of_ascii c <? 32)%N then None
      else Some (MStr (add_char raw c), ts)
  | MEsc raw => Some (MStr (add_char raw c), ts)
  end.

Fixpoint feed (s : string) (st : option (mode * list token))
    : option (mode * list token) :=
  match s with
  | EmptyString => st
  | String c s' =>
      feed s' (match st with Some st => step st c | None => None end)
  end.

(** the end of the text closes an atom *)
Definition settle (st : mode * list token) : option (list token) :=
  match st with
  | (MOut, ts) => Some ts
  | (MAtom text, ts) => Some (ts ++ [TAtom text])%list
  | _ => None
  end.

Definition lex (s : string) : option (list token) :=
  match feed s (Some (MOut, [])) with
  | Some st => settle st
  | None => None
  end.

(** [reads st ts]: the text read so far is well formed and, were it to end
    here, its tokens would be [ts] *)
Definition reads (st : option (mode * list token)) (ts : list token) : Prop :=
  exists st', st = Some st' /\ settle st' = Some ts.

(** a deserializer: a function of the token sequence *)
Definition loads_with (parse : list token -> result json) (s : string) : result json :=
  match lex s with
  | Some ts => parse ts
  | None => Raise ValueError
  end.

Fixpoint join_tokens (items : list (list token)) : list token :=
  match items with
  | [] => []
  | [x] => x
  | x :: items' => (x ++ TComma :: join_tokens items')%list
  end.

(** the tokens of the text that the encoder writes for [v] *)
Fixpoint tokens_of (float_repr : float -> string) (v : json) : list token :=
  match v with
  | JNull => [TAtom "null"]
  | JBool true => [TAtom "true"]
  | JBool false => [TAtom "false"]
  | JInt z => [TAtom (int_repr z)]
  | JFloat f => [TAtom (floatstr float_repr f)]
  | JStr s => [TString (escape s)]
  | JList l =>
      (TLBrack :: join_tokens (map (tokens_of float_repr) l) ++ [TRBrack])%list
  | JDict d =>
      (TLBrace
       :: join_tokens
            (map (fun kx => TString (escape (fst kx)) :: TColon
                            :: tokens_of float_repr (snd kx)) d)
       ++ [TRBrace])%list
  end.

(** the characters an atom is made of *)
Definition is_atom_char (c : ascii) : bool :=
  negb (is_ws c)
  && match structural c with Some _ => false | None => true end
  && negb (Ascii.eqb c dquote).

Fixpoint all_chars (p : ascii -> bool) (s : string) : bool :=
  match s with
  | EmptyString => true
  | String c s' => p c && all_chars p s'
  end.

(** a character that stands for itself inside a string *)
Definition plain_char (c : ascii) : bool :=
  negb (Ascii.eqb c dquote) && negb (Ascii.eqb c backslash)
  && negb (N_of_ascii c <? 32)%N.

Definition not_newline (c : ascii) : bool := negb (Ascii.eqb c newline).

Definition atom_text (s : string) : bool :=
  match s with
  | EmptyString => false
  | _ => all_chars is_atom_char s
  end.

End JsonDumps.

Module Http.
Import Collectors Orchestrator JsonDumps.

Inductive http_response : Type :=
  | Response (status : Z) (content_type : string) (body : string)
  | SendError (status : Z)
  | Unhandled (e : exn).     (* the exception leaves [do_GET]: nothing is sent *)

(** [request_path] is [self.path]; the body, ASCII only, is given as the
    string that [.encode()] turns into bytes. *)
Definition do_GET (float_repr : float -> string) (request_path : string)
    (static : list (string * json)) (timestamp : string) (res : results)
    : http_response :=
  let path := nth 0 (PyStr.split "?" request_path) EmptyString in
  let query :=
    if PyStr.contains "?" request_path
    then nth 1 (PyStr.split "?" request_path) EmptyString
    else EmptyString in
  let compact :=
    PyStr.contains "compact=1" query || PyStr.contains "compact=true" query in
  if String.eqb path "/metrics" then
    match collect_metrics static timestamp res with
    | Ok metrics =>
        let body :=
          if compact then dumps_compact float_repr (JDict metrics)
          else dumps_indent2 float_repr (JDict metrics) in
        Response 200 "application/json" body
    | Raise e => Unhandled e
    end
  else if String.eqb path "/health" then Response 200 "text/plain" "OK"
  else SendError 404.

End Http.

(** ** [get_top_processes] *)

Module TopProcesses.
Import PyNum.

(** a Python number: [int] or [float] *)
Inductive pynum : Type :=
  | PInt (z : Z)
  | PFloat (f : float).

(** The exact value of a number, in units of [2^-1074] (every finite
    [float] is a whole number of them); [None] for NaN. *)
Inductive ext : Type :=
  | NegInf
  | Fin (z : Z)
  | PosInf.

Definition ext_lt (a b : ext) : bool :=
  match a, b with
  | NegInf, NegInf => false
  | NegInf, _ => true
  | Fin _, NegInf => false
  | Fin x, Fin y => x <? y
  | Fin _, PosInf => true
  | PosInf, _ => false
  end.

Definition sf_value (x : spec_float) : option ext :=
  match x with
  | S754_nan => None
  | S754_infinity s => Some (if s then NegInf else PosInf)
  | S754_zero _ => Some (Fin 0)
  | S754_finite s m e =>
      Some (Fin ((if s then Zneg m else Zpos m) * 2 ^ (e + 1074)))
  end.

Definition float_value (f : float) : option ext := sf_value (Prim2SF f).

Definition value (a : pynum) : option ext :=
  match a with
  | PInt z => Some (Fin (z * 2 ^ 1074))
  | PFloat f => float_value f
  end.

(** [a < b]: the hardware comparison on two [float]s, the comparison of
    integers on two [int]s, the comparison of the exact values otherwise *)
Definition num_lt (a b : pynum) : bool :=
  match a, b with
  | PInt x, PInt y => x <? y
  | PFloat x, PFloat y => (x <? y)%float
  | _, _ =>
      match value a, value b with
      | Some va, Some vb => ext_lt va vb
      | _, _ => false
      end
  end.

(** [round(x, 1)]: an [int] is returned as it is *)
Definition round1 (x : pynum) : result pynum :=
  match x with
  | PInt z => Ok (PInt z)
  | PFloat f => do r <- float_round f 1; Ok (PFloat r)
  end.

(** the fields of [/proc/<pid>/stat] that the code converts with [int] *)
Record stat_fields : Type := {
  comm : string;
  utime : Z;
  stime : Z;
  starttime : Z;
  vsize : Z;
  rss : Z
}.

(** a numeric entry of [/proc]: [int(pid)], and what reading and parsing its
    [stat] file gives *)
Record proc_dir : Type := {
  dir_pid : Z;
  stat : result stat_fields
}.

Record process : Type := {
  pid : Z;
  name : string;
  cpu : pynum;
  mem_rss : Z;
  mem_virt : Z
}.

Definition cpu_percent (uptime : float) (clock_ticks : Z) (f : stat_fields)
    : result pynum :=
  let total_time := utime f + stime f in
  do q <- int_truediv (starttime f) clock_ticks;
  let proc_uptime := (uptime - q)%float in
  if (0 <? proc_uptime)%float then
    do t <- int_truediv total_time clock_ticks;
    do x <- float_truediv t proc_uptime;
    Ok (PFloat (x * 100)%float)
  else Ok (PInt 0).

(** the body of the inner [try] for one entry *)
Definition read_process (uptime : float) (page_size clock_ticks : Z) (d : proc_dir)
    : result process :=
  do f <- stat d;
  let rss := rss f * page_size in
  do cpu_percent <- cpu_percent uptime clock_ticks f;
  do cpu <- round1 cpu_percent;
  Ok {| pid := dir_pid d; name := PyStr.take 15 (comm f); cpu := cpu;
        mem_rss := rss; mem_virt := vsize f |}.

(** [for pid in pids: try: ... proc_data.append(...) except: continue] *)
Fixpoint scan (uptime : float) (page_size clock_ticks : Z) (dirs : list proc_dir)
    (proc_data : list process) : list process :=
  match dirs with
  | [] => proc_data
  | d :: dirs' =>
      match read_process uptime page_size clock_ticks d with
      | Ok p => scan uptime page_size clock_ticks dirs' (proc_data ++ [p])
      | Raise _ => scan uptime page_size clock_ticks dirs' proc_data
      end
  end.

(** [list.sort]: a stable sort by [<] on the keys; with [reverse=True] the
    list is reversed, sorted and reversed again, which keeps equal keys in
    their original order *)
Section Sort.
Context {A : Type} (key : A -> pynum).

Fixpoint insert (x : A) (sorted : list A) : list A :=
  match sorted with
  | [] => [x]
  | y :: sorted' =>
      if num_lt (key x) (key y) then x :: sorted else y :: insert x sorted'
  end.

Definition sort (l : list A) : list A :=
  fold_left (fun sorted x => insert x sorted) l [].

Definition sort_reverse (l : list A) : list A :=
  List.rev (sort (List.rev l)).

End Sort.

(** [l[:n]] *)
Definition slice_to {A : Type} (l : list A) (n : Z) : list A :=
  if 0 <=? n then firstn (Z.to_nat n) l
  else firstn (length l - Z.to_nat (- n)) l.

(** [page_size] and [clock_ticks] are the two [os.sysconf] values, [uptime]
    is what [float(f.read().split()[0])] on [/proc/uptime] gives, [listing]
    is the list of the numeric entries of [/proc]. *)
Definition get_top_processes (n : Z) (page_size clock_ticks : Z)
    (uptime : result float) (listing : result (list proc_dir)) : list process :=
  let processes := [] in
  match uptime with
  | Raise _ => []
  | Ok uptime =>
      match listing with
      | Raise _ => processes
      | Ok pids =>
          let proc_data := scan uptime page_size clock_ticks pids [] in
          let proc_data := sort_reverse cpu proc_data in
          slice_to proc_data n
      end
  end.

(** two processes started at boot, 1000 s ago, with 100 ticks per second:
    one has used 50 s of CPU time, the other 200 s *)
Definition two_procs : list proc_dir :=
  [ {| dir_pid := 1;
       stat := Ok {| comm := "init"; utime := 3000; stime := 2000;
                     starttime := 0; vsize := 1000000; rss := 100 |} |};
    {| dir_pid := 7;
       stat := Ok {| comm := "worker"; utime := 15000; stime := 5000;
                     starttime := 0; vsize := 2000000; rss := 200 |} |} ].

End TopProcesses.

From Stdlib Require DecimalPos.

(** ** Bracket nesting, for the extraction of the JSON array *)

Module Framing.
Import Docker.

(** [nested l depth]: read after [depth] brackets have been opened, [l]
    closes only brackets that are open and leaves none open at its end *)
Fixpoint nested (l : list byte) (depth : Z) : bool :=
  match l with
  | [] => depth =? 0
  | b :: l' =>
      if Byte.eqb b open_bracket then nested l' (depth + 1)
      else if Byte.eqb b close_bracket then (0 <? depth) && nested l' (depth - 1)
      else nested l' depth
  end.

(** a chunked reply: size line, array, and the closing chunk *)
Definition chunked_body : list byte :=
  bytes_of "1a" ++ [x0d; x0a] ++ bytes_of "[{'Names':[],'Ports':[[1]]}]"
  ++ end_marker.

End Framing.

(** ** More operations on [str], lists and numbers *)

Module PyText.

(** [s.split()]: the maximal runs of characters that are not white space;
    [acc] is the run being read *)
Fixpoint split_ws_go (s acc : string) : list string :=
  match s with
  | EmptyString =>
      match acc with EmptyString => [] | _ => [acc] end
  | String c s' =>
      if PyStr.isspace c then
        match acc with
        | EmptyString => split_ws_go s' EmptyString
        | _ => acc :: split_ws_go s' EmptyString
        end
      else split_ws_go s' (acc ++ String c EmptyString)
  end.

Definition split_ws (s : string) : list string := split_ws_go s EmptyString.

(** [s[n:]] *)
Fixpoint drop (n : nat) (s : string) : string :=
  match n, s with
  | O, _ => s
  | S n', String _ s' => drop n' s'
  | S _, EmptyString => EmptyString
  end.

(** [c.isdigit()], for the characters a [string] holds: the ten digits and
    the superscripts one, two and three *)
Definition isdigit (c : ascii) : bool :=
  let n := N_of_ascii c in
  ((48 <=? n) && (n <=? 57) || (n =? 178) || (n =? 179) || (n =? 185))%N.

(** [s.isdigit()] *)
Fixpoint all_digits (s : string) : bool :=
  match s with
  | EmptyString => true
  | String c s' => isdigit c && all_digits s'
  end.

Definition str_isdigit (s : string) : bool :=
  match s with
  | EmptyString => false
  | _ => all_digits s
  end.

(** *** [int(s)], base ten *)

Definition digit_of (c : ascii) : option Z :=
  let n := N_of_ascii c in
  if ((48 <=? n) && (n <=? 57))%N then Some (Z.of_N n - 48) else None.

(** the white space that [int] skips at both ends *)
Definition int_space (c : ascii) : bool :=
  let n := N_of_ascii c in
  ((9 <=? n) && (n <=? 13) || (n =? 32) || (n =? 133) || (n =? 160))%N.

Fixpoint all_space (s : string) : bool :=
  match s with
  | EmptyString => true
  | String c s' => int_space c && all_space s'
  end.

(** the digits after the first one, with single underscores between
    digits, then white space up to the end *)
Fixpoint int_digits (s : string) (acc : Z) (after_underscore : bool) : result Z :=
  match s with
  | EmptyString => if after_underscore then Raise ValueError else Ok acc
  | String c s' =>
      match digit_of c with
      | Some d => int_digits s' (10 * acc + d) false
      | None =>
          if after_underscore then Raise ValueError
          else if Ascii.eqb c "_" then int_digits s' acc true
          else if int_space c && all_space s' then Ok acc
          else Raise ValueError
      end
  end.

Definition int_unsigned (s : string) : result Z :=
  match s with
  | String c s' =>
      match digit_of c with
      | Some d => int_digits s' d false
      | None => Raise ValueError
      end
  | EmptyString => Raise ValueError
  end.

(** [int(s)] on a [str], without the interpreter's configurable limit on
    the number of digits *)
Definition int_of_str (s : string) : result Z :=
  match PyStr.lstrip_by int_space s with
  | String c s' =>
      if Ascii.eqb c "+" then int_unsigned s'
      else if Ascii.eqb c "-" then do z <- int_unsigned s'; Ok (- z)
      else int_unsigned (String c s')
  | EmptyString => Raise ValueError
  end.

End PyText.

Module PyBuiltins.
Import TopProcesses.

(** [min(a, b)]: the first argument, unless the second is smaller *)
Definition py_min (a b : pynum) : pynum := if num_lt b a then b else a.

(** [max(a, b)]: the first argument, unless the second is greater *)
Definition py_max (a b : pynum) : pynum := if num_lt a b then b else a.

(** [max(0, min(100, x))] *)
Definition clamp (x : pynum) : pynum := py_max (PInt 0) (py_min (PInt 100) x).

(** [x] is a number (not NaN) that is neither below 0 nor above 100 *)
Definition within_0_100 (x : pynum) : bool :=
  match value x with Some _ => true | None => false end
  && negb (num_lt x (PInt 0)) && negb (num_lt (PInt 100) x).

(** [x] is a number (not NaN) that is not below 0 *)
Definition not_negative (x : pynum) : bool :=
  match value x with Some _ => true | None => false end
  && negb (num_lt x (PInt 0)).

(** [l[i]], [0 <= i] *)
Definition getitem {A : Type} (l : list A) (i : nat) : result A :=
  match nth_error l i with
  | Some x => Ok x
  | None => Raise IndexError
  end.

(** [l[i:j]], [0 <= i <= j] *)
Definition slice {A : Type} (i j : nat) (l : list A) : list A :=
  firstn (j - i) (skipn i l).

(** [[f(x) for x in l]]: the first exception ends the comprehension *)
Fixpoint map_result {A B : Type} (f : A -> result B) (l : list A) : result (list B) :=
  match l with
  | [] => Ok []
  | x :: l' => do y <- f x; do ys <- map_result f l'; Ok (y :: ys)
  end.

(** [sum(l)] *)
Definition sum (l : list Z) : Z := fold_left Z.add l 0.

(** a number as a value of the snapshot *)
Definition json_of_num (x : pynum) : json :=
  match x with
  | PInt z => JInt z
  | PFloat f => JFloat f
  end.

(** [read_proc_file(path)]: the text of the file, [''] when [open] or
    [read] raises *)
Definition read_proc_file (file : result string) : string := try_except file EmptyString.

End PyBuiltins.

(** ** The two module-level trackers and the clock

    [tracker] and [core_tracker] are shared by the collectors, which run in
    threads of their own; every [update] is atomic and each collector uses
    keys that no other one uses, so a collector is modelled on its own:
    it threads the two dictionaries, and [monotonic k] is the value that
    its call number [k] of [time.monotonic()] returns. *)

Module Tracked.

Record state : Type := {
  data : gmap string (Z * float);     (* tracker._data *)
  cores : gmap Z (Z * Z);             (* core_tracker._cores *)
  calls : nat                         (* calls of [time.monotonic()] made *)
}.

(** a computation that may change the trackers and may raise; the changes
    made before an exception stay *)
Definition M (A : Type) : Type := state -> state * result A.

Definition ret {A : Type} (a : A) : M A := fun st => (st, Ok a).

Definition lift {A : Type} (r : result A) : M A := fun st => (st, r).

Definition mbind {A B : Type} (m : M A) (k : A -> M B) : M B :=
  fun st =>
    match m st with
    | (st', Ok a) => k a st'
    | (st', Raise e) => (st', Raise e)
    end.

Section Clock.

Variable monotonic : nat -> float.

(** [tracker.update(key, value)] *)
Definition tracker_update (key : string) (value : Z) : M float :=
  fun st =>
    let now := monotonic (calls st) in
    let '(d, r) := DeltaTracker.update (data st) now key value in
    ({| data := d; cores := cores st; calls := S (calls st) |}, r).

(** [core_tracker.update(core_id, idle, total)] *)
Definition core_tracker_update (core_id idle total : Z) : M float :=
  fun st =>
    let '(c, r) := CoreTracker.update (cores st) core_id idle total in
    ({| data := data st; cores := c; calls := calls st |}, r).

End Clock.

(** nothing observed yet, as when the agent starts *)
Definition fresh : state := {| data := ∅; cores := ∅; calls := 0 |}.

End Tracked.

Notation "'run' x <- m ; k" := (Tracked.mbind m (fun x => k))
  (at level 10, x name, m at level 100, k at level 200).

(** ** [get_cpu] *)

Module CpuStat.
Import PyNum PyText PyBuiltins TopProcesses Tracked.

Record core : Type := {
  id : Z;
  percent : pynum
}.

Record counters : Type := {
  ctxt : Z;
  procs_running : Z;
  procs_blocked : Z
}.

Definition core_json (c : core) : json :=
  JDict [("id", JInt (id c)); ("percent", json_of_num (percent c))].

(** [line.startswith('cpu') and len(line) > 3 and line[3].isdigit()] *)
Definition is_core_line (line : string) : bool :=
  PyStr.startswith "cpu" line
  && (3 <? String.length line)%nat
  && match String.get 3 line with
     | Some c => isdigit c
     | None => false
     end.

(** [fields[3] + fields[4]] and [sum(fields)] *)
Definition idle_total (fields : list Z) : result (Z * Z) :=
  do idle <- getitem fields 3;
  do iowait <- getitem fields 4;
  Ok (idle + iowait, sum fields).

(** [round((1.0 - idle_rate / total_rate) * 100, 1)] if [total_rate > 0],
    else [0.0] *)
Definition overall_percent (idle_rate total_rate : float) : result float :=
  if (0 <? total_rate)%float then
    do q <- float_truediv idle_rate total_rate;
    float_round ((1 - q) * 100)%float 1
  else Ok 0%float.

Definition default : json :=
  JDict [("percent", JInt 0); ("cores", JList []);
         ("context_switches_sec", JInt 0)].

Section GetCpu.

(** [int(s)] of the interpreter *)
Variable to_int : string -> result Z.
Variable monotonic : nat -> float.

(** [[int(x) for x in tokens[1:8]]] *)
Definition parse_fields (tokens : list string) : result (list Z) :=
  map_result to_int (slice 1 8 tokens).

(** [for line in lines[1:]: if ...: cores.append(...)] *)
Fixpoint scan_cores (lines : list string) (cores : list core) : M (list core) :=
  match lines with
  | [] => ret cores
  | line :: lines' =>
      if is_core_line line then
        let parts := split_ws line in
        run label <- lift (getitem parts 0);
        run core_id <- lift (to_int (drop 3 label));
        run fields <- lift (parse_fields parts);
        run it <- lift (idle_total fields);
        run usage <- core_tracker_update core_id (fst it) (snd it);
        scan_cores lines'
          (cores ++ [{| id := core_id; percent := clamp (PFloat usage) |}])
      else scan_cores lines' cores
  end.

(** [for line in lines: if line.startswith('ctxt '): ... elif ...] *)
Fixpoint scan_counters (lines : list string) (c : counters) : result counters :=
  match lines with
  | [] => Ok c
  | line :: lines' =>
      if PyStr.startswith "ctxt " line then
        do field <- getitem (split_ws line) 1;
        do v <- to_int field;
        scan_counters lines'
          {| ctxt := v; procs_running := procs_running c;
             procs_blocked := procs_blocked c |}
      else if PyStr.startswith "procs_running " line then
        do field <- getitem (split_ws line) 1;
        do v <- to_int field;
        scan_counters lines'
          {| ctxt := ctxt c; procs_running := v;
             procs_blocked := procs_blocked c |}
      else if PyStr.startswith "procs_blocked " line then
        do field <- getitem (split_ws line) 1;
        do v <- to_int field;
        scan_counters lines'
          {| ctxt := ctxt c; procs_running := procs_running c;
             procs_blocked := v |}
      else scan_counters lines' c
  end.

(** the [try] block; [content] is what [read_proc_file('/proc/stat')]
    returns *)
Definition get_cpu_body (content : string) : M json :=
  let lines := PyStr.split "010" content in
  run fields <- lift (parse_fields (split_ws (nth 0 lines EmptyString)));
  run it <- lift (idle_total fields);
  run idle_rate <- tracker_update monotonic "cpu_idle" (fst it);
  run total_rate <- tracker_update monotonic "cpu_total" (snd it);
  run percent <- lift (overall_percent idle_rate total_rate);
  let percent := clamp (PFloat percent) in
  run cores <- scan_cores (tl lines) [];
  run c <- lift (scan_counters lines
                   {| ctxt := 0; procs_running := 0; procs_blocked := 0 |});
  run ctxt_rate <- tracker_update monotonic "ctxt" (ctxt c);
  run rounded <- lift (float_round ctxt_rate 1);
  ret (JDict [("percent", json_of_num percent);
              ("cores", JList (map core_json cores));
              ("context_switches_sec", JFloat rounded);
              ("procs_running", JInt (procs_running c));
              ("procs_blocked", JInt (procs_blocked c))]).

(** [try: ... except: return {'percent': 0, 'cores': [], ...}] *)
Definition get_cpu (content : string) (st : state) : state * json :=
  match get_cpu_body content st with
  | (st', Ok v) => (st', v)
  | (st', Raise _) => (st', default)
  end.

End GetCpu.

(** two samples of [/proc/stat] on a machine with one core *)
Definition stat_sample_1 : string :=
  "cpu  100 0 50 800 50 0 0 0 0 0" ++ String "010"
  ("cpu0 100 0 50 800 50 0 0 0 0 0" ++ String "010"
  ("ctxt 5000" ++ String "010"
  ("procs_running 2" ++ String "010"
  ("procs_blocked 0" ++ String "010" EmptyString)))).

Definition stat_sample_2 : string :=
  "cpu  150 0 100 1600 150 0 0 0 0 0" ++ String "010"
  ("cpu0 150 0 100 1600 150 0 0 0 0 0" ++ String "010"
  ("ctxt 7000" ++ String "010"
  ("procs_running 1" ++ String "010"
  ("procs_blocked 0" ++ String "010" EmptyString)))).

End CpuStat.

(** ** [get_cpu] while other requests are served

    Every request runs in a thread of its own and each [update] takes the
    lock for itself only, so between two accesses of one call of
    [get_cpu] to the trackers other threads may have changed them.  Here
    the call is given what the other threads do: the trackers are
    disturbed before each of its accesses. *)

Module CpuShared.
Import PyNum PyText PyBuiltins TopProcesses Tracked CpuStat.

(** the other threads change the two dictionaries, not the call's own
    count of clock readings *)
Definition disturbed (other : state -> state) (st : state) : state :=
  {| data := data (other st); cores := cores (other st); calls := calls st |}.

Section Among.

Variable to_int : string -> result Z.
Variable monotonic : nat -> float.

(** [others k]: what the other threads have done to the trackers by the
    time the call makes the [tracker.update] before which it has read the
    clock [k] times; [others_core n]: by the time it makes the
    [core_tracker.update] for the line that has [n] lines after it *)
Variable others : nat -> state -> state.
Variable others_core : nat -> state -> state.

Definition tracker_update_among (key : string) (value : Z) : M float :=
  fun st =>
    tracker_update monotonic key value (disturbed (others (calls st)) st).

Definition core_tracker_update_among (after : nat) (core_id idle total : Z)
    : M float :=
  fun st =>
    core_tracker_update core_id idle total (disturbed (others_core after) st).

(** [CpuStat.scan_cores], each access after the other threads *)
Fixpoint scan_cores_among (lines : list string) (cores : list core)
    : M (list core) :=
  match lines with
  | [] => ret cores
  | line :: lines' =>
      if is_core_line line then
        let parts := split_ws line in
        run label <- lift (getitem parts 0);
        run core_id <- lift (to_int (drop 3 label));
        run fields <- lift (parse_fields to_int parts);
        run it <- lift (idle_total fields);
        run usage <- core_tracker_update_among (length lines') core_id
                       (fst it) (snd it);
        scan_cores_among lines'
          (cores ++ [{| id := core_id; percent := clamp (PFloat usage) |}])
      else scan_cores_among lines' cores
  end.

(** [CpuStat.get_cpu_body], each access after the other threads *)
Definition get_cpu_body_among (content : string) : M json :=
  let lines := PyStr.split "010" content in
  run fields <- lift (parse_fields to_int (split_ws (nth 0 lines EmptyString)));
  run it <- lift (idle_total fields);
  run idle_rate <- tracker_update_among "cpu_idle" (fst it);
  run total_rate <- tracker_update_among "cpu_total" (snd it);
  run percent <- lift (overall_percent idle_rate total_rate);
  let percent := clamp (PFloat percent) in
  run cores <- scan_cores_among (tl lines) [];
  run c <- lift (scan_counters to_int lines
                   {| ctxt := 0; procs_running := 0; procs_blocked := 0 |});
  run ctxt_rate <- tracker_update_among "ctxt" (ctxt c);
  run rounded <- lift (float_round ctxt_rate 1);
  ret (JDict [("percent", json_of_num percent);
              ("cores", JList (map core_json cores));
              ("context_switches_sec", JFloat rounded);
              ("procs_running", JInt (procs_running c));
              ("procs_blocked", JInt (procs_blocked c))]).

Definition get_cpu_among (content : string) (st : state) : state * json :=
  match get_cpu_body_among content st with
  | (st', Ok v) => (st', v)
  | (st', Raise _) => (st', default)
  end.

End Among.

(** no other thread at work *)
Definition alone : nat -> state -> state := fun _ st => st.

(** another request at its [get_network]: it stores a sample under a key
    of its own *)
Definition at_network : nat -> state -> state :=
  fun _ st =>
    {| data := <["net_eth0_rx" := (4096, 0%float)]> (data st);
       cores := cores st; calls := calls st |}.

(** another request whose [get_cpu] stores its sample under ['cpu_total']
    just before this call's second [tracker.update] *)
Definition overlapping : nat -> state -> state :=
  fun k st =>
    match k with
    | 1%nat =>
        {| data := <["cpu_total" := (900, 0%float)]> (data st);
           cores := cores st; calls := calls st |}
    | _ => st
    end.

End CpuShared.

(** ** [get_memory], [get_file_descriptors], [get_entropy] *)

Module MemInfo.
Import PyNum PyText PyBuiltins.

(** [line.split(':', 1)[0]]: what precedes the first [':'] *)
Fixpoint before_colon (s : string) : string :=
  match s with
  | EmptyString => EmptyString
  | String c s' =>
      if Ascii.eqb c ":" then EmptyString else String c (before_colon s')
  end.

(** [mem.get(k, 0)] *)
Definition get0 (mem : gmap string Z) (k : string) : Z :=
  match mem !! k with
  | Some v => v
  | None => 0
  end.

(** [round((part / whole) * 100, 1) if whole > 0 else 0] *)
Definition percent_of (part whole : Z) : result json :=
  if 0 <? whole then
    do q <- int_truediv part whole;
    do p <- float_round (q * 100)%float 1;
    Ok (JFloat p)
  else Ok (JInt 0).

Section GetMemory.

Variable to_int : string -> result Z.

(** [for line in content.split('\n'): if ':' in line: ...] *)
Fixpoint scan (lines : list string) (mem : gmap string Z) : result (gmap string Z) :=
  match lines with
  | [] => Ok mem
  | line :: lines' =>
      if PyStr.contains ":" line then
        let key := before_colon line in
        do val <- PyStr.split1_second ":" line;
        do field <- getitem (split_ws val) 0;
        do kb <- to_int field;
        scan lines' (<[PyStr.strip key := kb * 1024]> mem)
      else scan lines' mem
  end.

(** a line with a colon whose first field after the colon is missing or
    is not an integer *)
Definition bad_line (line : string) : bool :=
  PyStr.contains ":" line
  && match PyStr.split1_second ":" line with
     | Ok val =>
         match getitem (split_ws val) 0 with
         | Ok field => match to_int field with Ok _ => false | Raise _ => true end
         | Raise _ => true
         end
     | Raise _ => true
     end.

(** the [try] block: the two dictionaries under ['memory'] and ['swap'];
    [content] is what [read_proc_file('/proc/meminfo')] returns *)
Definition memory_body (content : string) : result (json * json) :=
  do mem <- scan (PyStr.split "010" content) ∅;
  let total := get0 mem "MemTotal" in
  let available := get0 mem "MemAvailable" in
  let buffers := get0 mem "Buffers" in
  let cached := get0 mem "Cached" in
  let slab := get0 mem "Slab" in
  let used := total - available in
  let swap_total := get0 mem "SwapTotal" in
  let swap_free := get0 mem "SwapFree" in
  let swap_used := swap_total - swap_free in
  do percent <- percent_of used total;
  do swap_percent <- percent_of swap_used swap_total;
  Ok (JDict [("total", JInt total); ("used", JInt used);
             ("available", JInt available); ("buffers", JInt buffers);
             ("cached", JInt cached); ("slab", JInt slab);
             ("percent", percent)],
      JDict [("total", JInt swap_total); ("used", JInt swap_used);
             ("free", JInt swap_free); ("percent", swap_percent)]).

(** [get_file_descriptors]: [allocated] and [max_fds] *)
Definition fds_body (content : string) : result (Z * Z) :=
  let parts := split_ws content in
  do first <- getitem parts 0;
  do allocated <- to_int first;
  do third <- getitem parts 2;
  do max_fds <- to_int third;
  Ok (allocated, max_fds).

(** [get_entropy]: [int(content.strip())] *)
Definition entropy_body (content : string) : result Z :=
  to_int (PyStr.strip content).

(** the readings of a pass in which only these three files are looked at *)
Definition readings_of (meminfo file_nr entropy_avail : string) : Collectors.readings :=
  {| Collectors.uptime_body := Raise OSError;
     Collectors.cpu_body := Raise OSError;
     Collectors.cpu_freq_body := Raise OSError;
     Collectors.temps_found := [];
     Collectors.memory_body := memory_body meminfo;
     Collectors.filesystems_found := [];
     Collectors.disk_io_found := [];
     Collectors.network_found := [];
     Collectors.tcp_counts := [("total", JInt 0)];
     Collectors.load_body := Raise OSError;
     Collectors.fds_body := fds_body file_nr;
     Collectors.entropy_body := entropy_body entropy_avail;
     Collectors.processes_found := [];
     Collectors.containers_found := [];
     Collectors.logs_found := [] |}.

End GetMemory.

(** the first lines of a [/proc/meminfo] *)
Definition meminfo_sample : string :=
  "MemTotal:       16000000 kB" ++ String "010"
  ("MemFree:         2000000 kB" ++ String "010"
  ("MemAvailable:    4000000 kB" ++ String "010"
  ("SwapTotal:             0 kB" ++ String "010"
  ("SwapFree:              0 kB" ++ String "010" EmptyString)))).

End MemInfo.

(** ** [get_tcp_connections] *)

Module TcpStates.
Import PyText.

Definition states : list (string * string) :=
  [ ("01", "established"); ("02", "syn_sent"); ("03", "syn_recv");
    ("04", "fin_wait1"); ("05", "fin_wait2"); ("06", "time_wait");
    ("07", "close"); ("08", "close_wait"); ("09", "last_ack");
    ("0A", "listen"); ("0B", "closing") ].

(** a [dict] from [str] to [int], in insertion order *)
Fixpoint lookup (counts : list (string * Z)) (k : string) : option Z :=
  match counts with
  | [] => None
  | (k', v) :: counts' => if String.eqb k' k then Some v else lookup counts' k
  end.

(** [counts[k] += 1], for a key that is there *)
Fixpoint incr (counts : list (string * Z)) (k : string) : list (string * Z) :=
  match counts with
  | [] => []
  | (k', v) :: counts' =>
      if String.eqb k' k then (k', v + 1) :: counts' else (k', v) :: incr counts' k
  end.

(** [states.get(state, 'other')] *)
Fixpoint state_name (table : list (string * string)) (state : string) : string :=
  match table with
  | [] => "other"
  | (code, name) :: table' =>
      if String.eqb code state then name else state_name table' state
  end.

(** [counts = {s: 0 for s in states.values()}; counts['total'] = 0] *)
Definition initial : list (string * Z) :=
  map (fun cs => (snd cs, 0)) states ++ [("total", 0)].

(** the characters [a] to [z] in upper case, the others as they are:
    [s.upper()] on ASCII text *)
Definition upper_char (c : ascii) : ascii :=
  let n := N_of_ascii c in
  if ((97 <=? n) && (n <=? 122))%N then ascii_of_N (n - 32) else c.

Fixpoint upper_ascii (s : string) : string :=
  match s with
  | EmptyString => EmptyString
  | String c s' => String (upper_char c) (upper_ascii s')
  end.

Section GetTcpConnections.

(** [s.upper()] of the interpreter *)
Variable upper : string -> string.

(** the body of the inner loop for one line; nothing in it raises *)
Definition count_line (counts : list (string * Z)) (line : string)
    : list (string * Z) :=
  let parts := split_ws line in
  if (4 <=? length parts)%nat then
    let state := upper (nth 3 parts EmptyString) in
    let counts := incr counts "total" in
    let name := state_name states state in
    match lookup counts name with
    | Some _ => incr counts name
    | None => counts
    end
  else counts.

(** [for line in content.split('\n')[1:]: ...] *)
Definition count_file (counts : list (string * Z)) (content : string)
    : list (string * Z) :=
  fold_left count_line (tl (PyStr.split "010" content)) counts.

(** [tcp] and [tcp6] are what [read_proc_file] returns for [/proc/net/tcp]
    and [/proc/net/tcp6] *)
Definition get_tcp_connections (tcp tcp6 : string) : list (string * Z) :=
  count_file (count_file initial tcp) tcp6.

(** the lines that are counted: those after the header of either file
    that have at least four fields *)
Definition rows (tcp tcp6 : string) : list string :=
  List.filter (fun line => (4 <=? length (split_ws line))%nat)
         (tl (PyStr.split "010" tcp) ++ tl (PyStr.split "010" tcp6)).

(** the state code of a row *)
Definition row_state (line : string) : string :=
  upper (nth 3 (split_ws line) EmptyString).

End GetTcpConnections.

Definition tcp_sample : string :=
  "  sl  local_address rem_address   st" ++ String "010"
  ("   0: 0100007F:1F90 00000000:0000 0a" ++ String "010"
  ("   1: 0100007F:1F90 0100007F:C350 01" ++ String "010"
  ("   2: 0100007F:C350 0100007F:1F90 01" ++ String "010"
  ("   3: 0100007F:C351 0100007F:1F90 0C" ++ String "010" EmptyString)))).

End TcpStates.

(** ** [get_filesystems] *)

Module Filesystems.
Import PyNum PyText PyBuiltins.

(** the fields of [os.statvfs(mount)] that are read *)
Record statvfs_result : Type := {
  f_blocks : Z;
  f_frsize : Z;
  f_bavail : Z
}.

Record filesystem : Type := {
  mount : string;
  device : string;
  fstype : string;
  total : Z;
  used : Z;
  available : Z;
  percent : float
}.

Definition virtual : list string :=
  [ "sysfs"; "proc"; "devtmpfs"; "devpts"; "tmpfs"; "securityfs"; "cgroup";
    "cgroup2"; "pstore"; "debugfs"; "tracefs"; "fusectl"; "configfs";
    "hugetlbfs"; "mqueue"; "binfmt_misc"; "autofs"; "overlay"; "nsfs"; "bpf" ].

(** [x in t] for a tuple of [str] *)
Definition str_in (x : string) (t : list string) : bool :=
  existsb (String.eqb x) t.

(** [device.split('/')[-1] if '/' in device else device] *)
Definition short_device (device : string) : string :=
  if PyObj.str_has_slash device
  then PyObj.str_last_segment device EmptyString
  else device.

Section GetFilesystems.

(** [os.statvfs(path)]: the result, or the [OSError] it raises *)
Variable statvfs : string -> result statvfs_result.

(** the inner [try] block for one mount point: [None] when [total] is
    not positive *)
Definition measure (device mount fstype : string) : result (option filesystem) :=
  do st <- statvfs mount;
  let total := f_blocks st * f_frsize st in
  let free := f_bavail st * f_frsize st in
  let used := total - free in
  if 0 <? total then
    do q <- int_truediv used total;
    do p <- float_round (q * 100)%float 1;
    Ok (Some {| mount := mount; device := short_device device; fstype := fstype;
                total := total; used := used; available := free; percent := p |})
  else Ok None.

(** [for line in mounts: ...], with the set [seen] and the list
    [filesystems] *)
Fixpoint scan (mounts : list string) (seen : gset string)
    (filesystems : list filesystem) : list filesystem :=
  match mounts with
  | [] => filesystems
  | line :: mounts' =>
      let parts := split_ws line in
      if (length parts <? 3)%nat then scan mounts' seen filesystems
      else
        let device := nth 0 parts EmptyString in
        let mount := nth 1 parts EmptyString in
        let fstype := nth 2 parts EmptyString in
        if str_in fstype virtual then scan mounts' seen filesystems
        else if bool_decide (mount ∈ seen) then scan mounts' seen filesystems
        else
          let seen := {[mount]} ∪ seen in
          match measure device mount fstype with
          | Ok (Some fs) => scan mounts' seen (filesystems ++ [fs])
          | Ok None | Raise _ => scan mounts' seen filesystems
          end
  end.

(** [mounts] is what [f.readlines()] gives for [/proc/mounts], or the
    exception that [open] or the read raises *)
Definition get_filesystems (mounts : result (list string)) : list filesystem :=
  match mounts with
  | Ok lines => scan lines ∅ []
  | Raise _ => []
  end.

End GetFilesystems.

Definition filesystem_json (fs : filesystem) : json :=
  JDict [("mount", JStr (mount fs)); ("device", JStr (device fs));
         ("fstype", JStr (fstype fs)); ("total", JInt (total fs));
         ("used", JInt (used fs)); ("available", JInt (available fs));
         ("percent", JFloat (percent fs))].

End Filesystems.

(** ** [get_disk_io] and [get_network] *)

Module Rates.
Import PyNum PyText PyBuiltins TopProcesses Tracked.

Local Open Scope string_scope.

(** [round(max(0, rate), 1)] *)
Definition rate_field (rate : float) : result pynum :=
  round1 (py_max (PInt 0) (PFloat rate)).

(** [round(min(100, max(0, io_rate / 10)), 1)] *)
Definition io_percent_field (io_rate : float) : result pynum :=
  do tenth <- float_truediv io_rate 10;
  round1 (py_min (PInt 100) (py_max (PInt 0) (PFloat tenth))).

Definition is_lower (c : ascii) : bool :=
  let n := N_of_ascii c in ((97 <=? n) && (n <=? 122))%N.

Definition is_decimal (c : ascii) : bool :=
  let n := N_of_ascii c in ((48 <=? n) && (n <=? 57))%N.

Fixpoint all_decimal (s : string) : bool :=
  match s with
  | EmptyString => true
  | String c s' => is_decimal c && all_decimal s'
  end.

(** [\d+n\d+] up to the end of the text; [seen] tells whether a digit has
    been read *)
Fixpoint digits_n_digits (s : string) (seen : bool) : bool :=
  match s with
  | EmptyString => false
  | String c s' =>
      if is_decimal c then digits_n_digits s' true
      else seen && Ascii.eqb c "n"
           && match s' with EmptyString => false | _ => all_decimal s' end
  end.

(** [re.match(r'^(sd[a-z]|vd[a-z]|nvme\d+n\d+|xvd[a-z])$', name)], for a
    name without a newline *)
Definition is_major_disk (name : string) : bool :=
  match name with
  | String "s" (String "d" (String c "")) => is_lower c
  | String "v" (String "d" (String c "")) => is_lower c
  | String "x" (String "v" (String "d" (String c ""))) => is_lower c
  | String "n" (String "v" (String "m" (String "e" rest))) =>
      digits_n_digits rest false
  | _ => false
  end.

Record disk : Type := {
  disk_device : string;
  read_bytes_sec : pynum;
  write_bytes_sec : pynum;
  io_percent : pynum;
  reads : Z;
  writes : Z
}.

Record interface : Type := {
  iface_name : string;
  rx_bytes : Z;
  tx_bytes : Z;
  rx_bytes_sec : pynum;
  tx_bytes_sec : pynum;
  rx_packets : Z;
  tx_packets : Z;
  rx_errors : Z;
  tx_errors : Z
}.

(** [iface in ('lo',) or iface.startswith(('veth', 'br-', 'docker'))] *)
Definition is_virtual_iface (iface : string) : bool :=
  String.eqb iface "lo"
  || PyStr.startswith "veth" iface
  || PyStr.startswith "br-" iface
  || PyStr.startswith "docker" iface.

Section Collect.

Variable to_int : string -> result Z.
Variable monotonic : nat -> float.

(** the body of the loop of [get_disk_io] for a line that is kept *)
Definition read_disk (parts : list string) : M disk :=
  let name := nth 2 parts "" in
  run reads <- lift (do f <- getitem parts 3; to_int f);
  run read_sectors <- lift (do f <- getitem parts 5; to_int f);
  run writes <- lift (do f <- getitem parts 7; to_int f);
  run write_sectors <- lift (do f <- getitem parts 9; to_int f);
  run io_time <- lift (do f <- getitem parts 12; to_int f);
  let read_bytes := read_sectors * 512 in
  let write_bytes := write_sectors * 512 in
  run read_rate <- tracker_update monotonic ("disk_" ++ name ++ "_read") read_bytes;
  run write_rate <- tracker_update monotonic ("disk_" ++ name ++ "_write") write_bytes;
  run io_rate <- tracker_update monotonic ("disk_" ++ name ++ "_io") io_time;
  run r <- lift (rate_field read_rate);
  run w <- lift (rate_field write_rate);
  run p <- lift (io_percent_field io_rate);
  ret {| disk_device := name; read_bytes_sec := r; write_bytes_sec := w;
         io_percent := p; reads := reads; writes := writes |}.

(** [for line in content.split('\n'): ...]; an exception ends the loop
    ([except: pass]) and the list is returned as it is *)
Fixpoint scan_disks (lines : list string) (io_stats : list disk) (st : state)
    : state * list disk :=
  match lines with
  | [] => (st, io_stats)
  | line :: lines' =>
      let parts := split_ws line in
      if (length parts <? 14)%nat then scan_disks lines' io_stats st
      else if negb (is_major_disk (nth 2 parts "")) then scan_disks lines' io_stats st
      else
        match read_disk parts st with
        | (st', Ok d) => scan_disks lines' (io_stats ++ [d]) st'
        | (st', Raise _) => (st', io_stats)
        end
  end.

(** [content] is what [read_proc_file('/proc/diskstats')] returns *)
Definition get_disk_io (content : string) (st : state) : state * list disk :=
  scan_disks (PyStr.split "010" content) [] st.

(** the body of the loop of [get_network] for a line that is kept *)
Definition read_interface (iface : string) (stats : list string) : M interface :=
  run rx_bytes <- lift (do f <- getitem stats 0; to_int f);
  run rx_packets <- lift (do f <- getitem stats 1; to_int f);
  run rx_errors <- lift (do f <- getitem stats 2; to_int f);
  run rx_dropped <- lift (do f <- getitem stats 3; to_int f);
  run tx_bytes <- lift (do f <- getitem stats 8; to_int f);
  run tx_packets <- lift (do f <- getitem stats 9; to_int f);
  run tx_errors <- lift (do f <- getitem stats 10; to_int f);
  run tx_dropped <- lift (do f <- getitem stats 11; to_int f);
  run rx_rate <- tracker_update monotonic ("net_" ++ iface ++ "_rx") rx_bytes;
  run tx_rate <- tracker_update monotonic ("net_" ++ iface ++ "_tx") tx_bytes;
  run rx <- lift (rate_field rx_rate);
  run tx <- lift (rate_field tx_rate);
  ret {| iface_name := iface; rx_bytes := rx_bytes; tx_bytes := tx_bytes;
         rx_bytes_sec := rx; tx_bytes_sec := tx;
         rx_packets := rx_packets; tx_packets := tx_packets;
         rx_errors := rx_errors + rx_dropped;
         tx_errors := tx_errors + tx_dropped |}.

Fixpoint scan_interfaces (lines : list string) (interfaces : list interface)
    (st : state) : state * list interface :=
  match lines with
  | [] => (st, interfaces)
  | line :: lines' =>
      if negb (PyStr.contains ":" line) then scan_interfaces lines' interfaces st
      else
        let parts := PyStr.split ":" line in
        let iface := PyStr.strip (nth 0 parts "") in
        if is_virtual_iface iface then scan_interfaces lines' interfaces st
        else
          let stats := split_ws (nth 1 parts "") in
          if (length stats <? 16)%nat then scan_interfaces lines' interfaces st
          else
            match read_interface iface stats st with
            | (st', Ok i) => scan_interfaces lines' (interfaces ++ [i]) st'
            | (st', Raise _) => (st', interfaces)
            end
  end.

(** [content] is what [read_proc_file('/proc/net/dev')] returns; the two
    header lines are skipped *)
Definition get_network (content : string) (st : state) : state * list interface :=
  scan_interfaces (skipn 2 (PyStr.split "010" content)) [] st.

End Collect.

Definition disk_json (d : disk) : json :=
  JDict [("device", JStr (disk_device d));
         ("read_bytes_sec", json_of_num (read_bytes_sec d));
         ("write_bytes_sec", json_of_num (write_bytes_sec d));
         ("io_percent", json_of_num (io_percent d));
         ("reads", JInt (reads d)); ("writes", JInt (writes d))].

Definition interface_json (i : interface) : json :=
  JDict [("interface", JStr (iface_name i));
         ("rx_bytes", JInt (rx_bytes i)); ("tx_bytes", JInt (tx_bytes i));
         ("rx_bytes_sec", json_of_num (rx_bytes_sec i));
         ("tx_bytes_sec", json_of_num (tx_bytes_sec i));
         ("rx_packets", JInt (rx_packets i)); ("tx_packets", JInt (tx_packets i));
         ("rx_errors", JInt (rx_errors i)); ("tx_errors", JInt (tx_errors i))].

End Rates.

(** ** Reading [/proc/<pid>/stat] *)

Module ProcStat.
Import PyText PyBuiltins TopProcesses.

(** [s.index(c)]: the position of the first [c], [None] for [ValueError] *)
Fixpoint index (c : ascii) (s : string) : option nat :=
  match s with
  | EmptyString => None
  | String a s' => if Ascii.eqb a c then Some O else option_map S (index c s')
  end.

(** [s.rindex(c)]: the position of the last [c] *)
Fixpoint rindex (c : ascii) (s : string) : option nat :=
  match s with
  | EmptyString => None
  | String a s' =>
      match rindex c s' with
      | Some i => Some (S i)
      | None => if Ascii.eqb a c then Some O else None
      end
  end.

(** [s[i:j]], [0 <= i], [0 <= j] *)
Definition slice_str (i j : nat) (s : string) : string :=
  String.substring i (j - i) s.

Section Parse.

Variable to_int : string -> result Z.

(** [utime = int(fields[11])] to [rss = int(fields[21])] *)
Definition read_fields (comm : string) (fields : list string) : result stat_fields :=
  do utime <- (do f <- getitem fields 11; to_int f);
  do stime <- (do f <- getitem fields 12; to_int f);
  do starttime <- (do f <- getitem fields 19; to_int f);
  do vsize <- (do f <- getitem fields 20; to_int f);
  do rss <- (do f <- getitem fields 21; to_int f);
  Ok {| comm := comm; utime := utime; stime := stime;
        starttime := starttime; vsize := vsize; rss := rss |}.

(** from [comm_start = stat.index('(')] on *)
Definition parse (stat : string) : result stat_fields :=
  match index "(" stat with
  | None => Raise ValueError
  | Some comm_start =>
      match rindex ")" stat with
      | None => Raise ValueError
      | Some comm_end =>
          let comm := slice_str (comm_start + 1) comm_end stat in
          let fields := split_ws (drop (comm_end + 2) stat) in
          read_fields comm fields
      end
  end.

(** an entry [name] of [/proc] that passes [isdigit], with the text of its
    [stat] file or the exception that reading it raises *)
Definition entry (name : string) (text : result string) : proc_dir :=
  match to_int name with
  | Ok pid => {| dir_pid := pid; stat := do t <- text; parse t |}
  | Raise e => {| dir_pid := 0; stat := Raise e |}
  end.

(** [[p for p in os.listdir('/proc') if p.isdigit()]], each with its
    [stat] file *)
Definition listing (entries : list (string * result string)) : list proc_dir :=
  map (fun e => entry (fst e) (snd e))
      (List.filter (fun e => str_isdigit (fst e)) entries).

End Parse.

Definition process_json (p : process) : json :=
  JDict [("pid", JInt (pid p)); ("name", JStr (name p));
         ("cpu", json_of_num (cpu p)); ("mem_rss", JInt (mem_rss p));
         ("mem_virt", JInt (mem_virt p))].

(** the [stat] line of a process whose command name holds a space and
    parentheses *)
Definition stat_sample : string :=
  "4242 (Web Content (x)) S 1 4242 4242 0 -1 4194560 100 0 0 0 "
  ++ "700 300 0 0 20 0 8 0 5000 2000000 300 18446744073709551615".

End ProcStat.

(** ** [get_recent_logs]: the limit *)

Module Logs.

(** [l[-n:]] *)
Definition tail_slice {A : Type} (l : list A) (n : Z) : list A :=
  let len := Z.of_nat (length l) in
  let start := - n in
  let start := if start <? 0 then Z.max (start + len) 0 else Z.min start len in
  skipn (Z.to_nat start) l.

(** the entries that the four sections of [get_recent_logs] append to
    [logs], in this order (Docker events, Caddy requests, system
    warnings, SSH logins), and the [return logs[-max_entries:]] *)
Definition get_recent_logs {A : Type} (docker caddy system ssh : list A)
    (max_entries : Z) : list A :=
  tail_slice (docker ++ caddy ++ system ++ ssh) max_entries.

End Logs.

(** * Properties *)

(** ** Facts about binary64 subtraction and comparison *)

Section FloatFacts.

Lemma SFsub_diag_not_pos (x : spec_float) :
  SFltb (S754_zero false) (SFsub prec emax x x) = false.
Proof.
  destruct x as [s | s | | s m e]; try (destruct s; reflexivity); try reflexivity.
  cbn [SFsub]. rewrite Z.sub_diag. reflexivity.
Qed.

Lemma float_sub_diag_not_pos (t : float) : (0 <? t - t)%float = false.
Proof.
  rewrite FloatAxioms.ltb_spec, sub_spec. apply SFsub_diag_not_pos.
Qed.

Lemma shr_1_m mrs : 0 <= shr_m mrs -> shr_m (shr_1 mrs) = shr_m mrs / 2.
Proof.
  destruct mrs as [m r s]; cbn [shr_m]. intros Hm.
  rewrite <- Z.div2_div.
  destruct m as [|p|p]; [reflexivity| |lia].
  destruct p; reflexivity.
Qed.

Lemma iter_shr_1_m p : forall mrs, 0 <= shr_m mrs ->
  shr_m (SpecFloat.iter_pos shr_1 p mrs) = shr_m mrs / 2 ^ Zpos p.
Proof.
  induction p as [p IH|p IH|]; intros mrs Hm; cbn [SpecFloat.iter_pos].
  - assert (H1 : 0 <= shr_m (shr_1 mrs)) by (rewrite shr_1_m by assumption; apply Z.div_pos; lia).
    assert (H2 : 0 <= shr_m (SpecFloat.iter_pos shr_1 p (shr_1 mrs))) by (rewrite IH by assumption; apply Z.div_pos; lia).
    rewrite IH by assumption. rewrite IH by assumption. rewrite shr_1_m by assumption.
    rewrite !Z.div_div by lia.
    f_equal. replace (Zpos p~1) with (1 + Zpos p + Zpos p) by lia.
    rewrite !Z.pow_add_r by lia. lia.
  - assert (H2 : 0 <= shr_m (SpecFloat.iter_pos shr_1 p mrs)) by (rewrite IH by assumption; apply Z.div_pos; lia).
    rewrite IH by assumption. rewrite IH by assumption.
    rewrite !Z.div_div by lia.
    f_equal. replace (Zpos p~0) with (Zpos p + Zpos p) by lia.
    rewrite !Z.pow_add_r by lia. lia.
  - rewrite shr_1_m by assumption. reflexivity.
Qed.

Lemma digits2_pos_bounds m :
  2 ^ (Zpos (digits2_pos m) - 1) <= Zpos m < 2 ^ Zpos (digits2_pos m).
Proof.
  induction m as [m IH|m IH|]; cbn [digits2_pos].
  - rewrite Pos2Z.inj_succ. replace (Z.succ (Zpos (digits2_pos m)) - 1) with (Z.succ (Zpos (digits2_pos m) - 1)) by lia.
    rewrite !Z.pow_succ_r by lia. lia.
  - rewrite Pos2Z.inj_succ. replace (Z.succ (Zpos (digits2_pos m)) - 1) with (Z.succ (Zpos (digits2_pos m) - 1)) by lia.
    rewrite !Z.pow_succ_r by lia. lia.
  - cbn. lia.
Qed.

Lemma digits2_pos_shiftl m d :
  digits2_pos (Pos.iter xO m d) = (digits2_pos m + d)%positive.
Proof.
  induction d as [|d IH] using Pos.peano_ind.
  - cbn. lia.
  - rewrite Pos.iter_succ. cbn [digits2_pos]. rewrite IH. lia.
Qed.

Lemma shiftl_pos_value m d : Zpos (Pos.iter xO m d) = Zpos m * 2 ^ Zpos d.
Proof.
  induction d as [|d IH] using Pos.peano_ind.
  - cbn. lia.
  - rewrite Pos.iter_succ. rewrite Pos2Z.inj_succ, Z.pow_succ_r by lia.
    rewrite Pos2Z.inj_xO, IH. lia.
Qed.

(** rounding a positive mantissa that keeps at least one digit *)
Lemma binary_round_aux_sign s (M : positive) E l :
  fexp prec emax (Zpos (digits2_pos M) + E) - E < Zpos (digits2_pos M) ->
  (exists m e, binary_round_aux prec emax s (Zpos M) E l = S754_finite s m e)
  \/ binary_round_aux prec emax s (Zpos M) E l = S754_infinity s.
Proof.
  intros Hn. unfold binary_round_aux.
  destruct (shr_fexp prec emax (Zpos M) E l) as [mrs' e'] eqn:H1.
  unfold shr_fexp in H1. cbn [Zdigits2] in H1.
  set (n := fexp prec emax (Zpos (digits2_pos M) + E) - E) in *.
  assert (Hm1 : 1 <= shr_m mrs' /\ (n <= 0 -> e' = E) /\ (0 < n -> e' = E + n)).
  { pose proof (digits2_pos_bounds M) as HB.
    assert (Hm0 : shr_m (shr_record_of_loc (Zpos M) l) = Zpos M).
    { destruct l as [|[]]; reflexivity. }
    unfold shr in H1. destruct n as [|p|p] eqn:En.
    - inversion H1; subst. rewrite Hm0. lia.
    - inversion H1; subst. rewrite iter_shr_1_m by (rewrite Hm0; lia).
      rewrite Hm0. split; [|lia].
      apply Z.div_le_lower_bound; [lia|].
      rewrite Z.mul_1_r.
      apply Z.le_trans with (2 ^ (Zpos (digits2_pos M) - 1)); [|lia].
      apply Z.pow_le_mono_r; lia.
    - inversion H1; subst. rewrite Hm0. lia. }
  destruct Hm1 as (Hm1 & He0 & He1).
  set (m2 := round_nearest_even (shr_m mrs') (loc_of_shr_record mrs')).
  assert (Hm2 : 1 <= m2).
  { unfold m2, round_nearest_even.
    destruct (loc_of_shr_record mrs') as [|[]]; try lia.
    destruct (Z.even (shr_m mrs')); lia. }
  destruct m2 as [|p2|p2] eqn:Em2; try lia.
  destruct (shr_fexp prec emax (Zpos p2) e' loc_Exact) as [mrs'' e''] eqn:H2.
  unfold shr_fexp in H2. cbn [Zdigits2 shr_record_of_loc] in H2.
  assert (Hm3 : 1 <= shr_m mrs'').
  { pose proof (digits2_pos_bounds p2) as HB.
    set (n2 := fexp prec emax (Zpos (digits2_pos p2) + e') - e') in *.
    assert (Hn2 : n2 < Zpos (digits2_pos p2)).
    { unfold n2, n, fexp, FloatOps.prec, emax in *. lia. }
    unfold shr in H2. destruct n2 as [|q|q] eqn:En2.
    - inversion H2; subst. cbn. lia.
    - inversion H2; subst. rewrite iter_shr_1_m by (cbn; lia).
      cbn [shr_m]. 
      apply Z.div_le_lower_bound; [lia|].
      rewrite Z.mul_1_r.
      apply Z.le_trans with (2 ^ (Zpos (digits2_pos p2) - 1)); [|lia].
      apply Z.pow_le_mono_r; lia.
    - inversion H2; subst. cbn. lia. }
  destruct (shr_m mrs'') as [|p3|p3]; try lia.
  destruct (e'' <=? emax - prec); [left; eauto | right; reflexivity].
Qed.

Lemma binary_round_sign s m e :
  emin <= e ->
  (exists m' e', binary_round prec emax s m e = S754_finite s m' e')
  \/ binary_round prec emax s m e = S754_infinity s.
Proof.
  intros He. unfold binary_round, shl_align.
  destruct (fexp prec emax (Zpos (digits2_pos m) + e) - e) as [|d|d] eqn:Ed.
  - apply binary_round_aux_sign. rewrite Ed. lia.
  - apply binary_round_aux_sign. rewrite Ed.
    unfold fexp, SpecFloat.emin, FloatOps.prec, emax in *. lia.
  - apply binary_round_aux_sign. rewrite digits2_pos_shiftl.
    unfold fexp, SpecFloat.emin, FloatOps.prec, emax in *. lia.
Qed.

Lemma valid_finite_inv s m e :
  valid_binary (S754_finite s m e) = true ->
  emin <= e /\ e <= emax - prec
  /\ Zpos (digits2_pos m) <= prec
  /\ (emin < e -> Zpos (digits2_pos m) = prec).
Proof.
  cbn. unfold bounded, canonical_mantissa. intros H.
  apply andb_prop in H. destruct H as [H1 H2].
  apply Z.eqb_eq in H1. apply Z.leb_le in H2.
  unfold fexp, SpecFloat.emin, FloatOps.prec, emax in *. lia.
Qed.

Lemma shl_align_value m e ez :
  ez <= e -> Zpos (fst (shl_align m e ez)) = Zpos m * 2 ^ (e - ez).
Proof.
  intros H. unfold shl_align.
  destruct (ez - e) as [|d|d] eqn:Ed.
  - replace (e - ez) with 0 by lia. cbn [fst]. lia.
  - lia.
  - cbn [fst]. rewrite shiftl_pos_value. f_equal. f_equal. lia.
Qed.

Lemma SFltb_zero_pos_cases x :
  ((exists m e, x = S754_finite false m e) \/ x = S754_infinity false) ->
  SFltb (S754_zero false) x = true.
Proof. intros [(m & e & ->) | ->]; reflexivity. Qed.

Lemma finite_lt_aligned sx mx ex sy my ey :
  valid_binary (S754_finite sx mx ex) = true ->
  valid_binary (S754_finite sy my ey) = true ->
  SFltb (S754_finite sy my ey) (S754_finite sx mx ex) = true ->
  0 < cond_Zopp sx (Zpos mx * 2 ^ (ex - Z.min ex ey))
      - cond_Zopp sy (Zpos my * 2 ^ (ey - Z.min ex ey)).
Proof.
  intros Vx Vy Hlt.
  apply valid_finite_inv in Vx, Vy.
  destruct Vx as (Hx1 & Hx2 & Hx3 & Hx4), Vy as (Hy1 & Hy2 & Hy3 & Hy4).
  pose proof (digits2_pos_bounds mx) as Bx.
  pose proof (digits2_pos_bounds my) as By.
  assert (Hpow : forall k, 0 <= k -> 1 <= 2 ^ k).
  { intros k Hk. change 1 with (2 ^ 0). apply Z.pow_le_mono_r; lia. }
  assert (Hbig : forall m1 e1 m2 e2,
    emin <= e2 -> e2 < e1 ->
    Zpos (digits2_pos m2) <= prec -> Zpos (digits2_pos m1) = prec ->
    Zpos m2 * 2 ^ (e2 - Z.min e1 e2) < Zpos m1 * 2 ^ (e1 - Z.min e1 e2)).
  { intros m1 e1 m2 e2 H1 H2 H3 H4.
    pose proof (digits2_pos_bounds m1) as B1.
    pose proof (digits2_pos_bounds m2) as B2.
    rewrite Z.min_r by lia. rewrite Z.sub_diag, Z.mul_1_r.
    rewrite H4 in B1.
    assert (Zpos m2 < 2 ^ prec).
    { apply Z.lt_le_trans with (2 ^ Zpos (digits2_pos m2)); [lia|].
      apply Z.pow_le_mono_r; lia. }
    assert (2 ^ 1 <= 2 ^ (e1 - e2)) by (apply Z.pow_le_mono_r; lia).
    assert (2 ^ prec = 2 ^ (prec - 1) * 2 ^ 1) by reflexivity.
    nia. }
  unfold SFltb, SFcompare in Hlt.
  destruct sx, sy; cbn [cond_Zopp]; change IntDef.Z.opp with Z.opp.
  - (* both negative *)
    destruct (ey ?= ex) eqn:Ec; try discriminate.
    + apply Z.compare_eq in Ec. subst ey. rewrite Z.min_id, Z.sub_diag, !Z.mul_1_r.
      destruct (Pos.compare_cont Eq my mx) eqn:Ep; try discriminate.
      change (Pos.compare_cont Eq my mx) with (Pos.compare my mx) in Ep.
      apply Pos.compare_gt_iff in Ep. clear - Ep. lia.
    + apply Z.compare_gt_iff in Ec.
      specialize (Hbig my ey mx ex Hx1 Ec Hx3 (Hy4 ltac:(lia))).
      rewrite Z.min_comm in Hbig. lia.
  - discriminate.
  - pose proof (Hpow (ex - Z.min ex ey) ltac:(lia)).
    pose proof (Hpow (ey - Z.min ex ey) ltac:(lia)). nia.
  - destruct (ey ?= ex) eqn:Ec; try discriminate.
    + apply Z.compare_eq in Ec. subst ey. rewrite Z.min_id, Z.sub_diag, !Z.mul_1_r.
      change (Pos.compare_cont Eq my mx) with (Pos.compare my mx) in Hlt.
      destruct (Pos.compare my mx) eqn:Ep; try discriminate.
      change (my < mx)%positive in Ep. clear - Ep. lia.
    + change (ey < ex) in Ec.
      specialize (Hbig mx ex my ey Hy1 Ec Hy3 (Hx4 ltac:(lia))). lia.
Qed.

Lemma SFsub_pos x y :
  valid_binary x = true -> valid_binary y = true ->
  SFltb y x = true ->
  SFltb (S754_zero false) (SFsub prec emax x y) = true.
Proof.
  intros Vx Vy Hlt.
  destruct x as [sx|sx| |sx mx ex], y as [sy|sy| |sy my ey];
    try discriminate;
    try (destruct sx; discriminate);
    try (destruct sy; discriminate);
    try (destruct sx, sy; try discriminate; reflexivity).
  cbn [SFsub].
  pose proof (finite_lt_aligned _ _ _ _ _ _ Vx Vy Hlt) as HD.
  apply valid_finite_inv in Vx, Vy.
  rewrite <- (shl_align_value mx ex (Z.min ex ey)) in HD by lia.
  rewrite <- (shl_align_value my ey (Z.min ex ey)) in HD by lia.
  cbn [SFsub].
  match goal with |- context [binary_normalize _ _ ?D _ _] => destruct D as [|p|p] eqn:ED end;
    try lia.
  cbn [binary_normalize]. apply SFltb_zero_pos_cases.
  apply binary_round_sign. lia.
Qed.

Lemma float_sub_pos (t1 t2 : float) :
  (t1 <? t2)%float = true -> (0 <? t2 - t1)%float = true.
Proof.
  rewrite !FloatAxioms.ltb_spec, sub_spec. apply SFsub_pos; apply Prim2SF_valid.
Qed.

Lemma fexp_eq e : fexp prec emax e = Z.max (e - 53) (-1074).
Proof. reflexivity. Qed.

Lemma Zdigits2_nonneg M : 0 <= Zdigits2 M.
Proof. destruct M; cbn; lia. Qed.

Lemma Zdigits2_bounds M : 0 < M -> 2 ^ (Zdigits2 M - 1) <= M < 2 ^ Zdigits2 M.
Proof. destruct M as [|p|p]; try lia. intros _. apply digits2_pos_bounds. Qed.

Lemma Zdigits2_pos M : 0 < M -> 0 < Zdigits2 M.
Proof. destruct M; cbn; lia. Qed.

Lemma Zdigits2_unique M d : 0 < M -> 2 ^ (d - 1) <= M < 2 ^ d -> Zdigits2 M = d.
Proof.
  intros HM [H1 H2]. pose proof (Zdigits2_bounds M HM) as [B1 B2].
  pose proof (Zdigits2_pos M HM) as Hp.
  assert (0 < d).
  { destruct (Z.ltb_spec 0 d); [assumption|].
    destruct (Z.eq_dec d 0) as [->|]; [cbn in H2; lia|].
    rewrite Z.pow_neg_r in H2 by lia. lia. }
  assert (d - 1 < Zdigits2 M) by (apply (Z.pow_lt_mono_r_iff 2); lia).
  assert (Zdigits2 M - 1 < d) by (apply (Z.pow_lt_mono_r_iff 2); lia).
  lia.
Qed.

Lemma Zdigits2_le_of_lt M k : 0 <= M -> 0 <= k -> M < 2 ^ k -> Zdigits2 M <= k.
Proof.
  intros HM Hk H. destruct (Z.eq_dec M 0) as [->|Hne]; [cbn; lia|].
  pose proof (Zdigits2_bounds M ltac:(lia)) as [B1 B2].
  assert (Zdigits2 M - 1 < k) by (apply (Z.pow_lt_mono_r_iff 2); lia).
  lia.
Qed.

Lemma Zdigits2_mono M N : 0 < M -> M <= N -> Zdigits2 M <= Zdigits2 N.
Proof.
  intros HM HN.
  pose proof (Zdigits2_bounds M HM) as [B1 B2].
  pose proof (Zdigits2_bounds N ltac:(lia)) as [C1 C2].
  assert (Zdigits2 M - 1 < Zdigits2 N) by (apply (Z.pow_lt_mono_r_iff 2); [lia| |lia]; apply Zdigits2_nonneg).
  lia.
Qed.

Lemma Zdigits2_div_pow2 M k :
  0 < M -> 0 <= k -> k < Zdigits2 M -> Zdigits2 (M / 2 ^ k) = Zdigits2 M - k.
Proof.
  intros HM Hk Hlt.
  pose proof (Zdigits2_bounds M HM) as [B1 B2].
  assert (Hp : 0 < 2 ^ k) by (apply Z.pow_pos_nonneg; lia).
  assert (E1 : 2 ^ (Zdigits2 M - 1) = 2 ^ (Zdigits2 M - k - 1) * 2 ^ k).
  { rewrite <- Z.pow_add_r by lia. f_equal. lia. }
  assert (E2 : 2 ^ (Zdigits2 M) = 2 ^ (Zdigits2 M - k) * 2 ^ k).
  { rewrite <- Z.pow_add_r by lia. f_equal. lia. }
  assert (L : 2 ^ (Zdigits2 M - k - 1) <= M / 2 ^ k).
  { apply Z.div_le_lower_bound; lia. }
  assert (U : M / 2 ^ k < 2 ^ (Zdigits2 M - k)).
  { apply Z.div_lt_upper_bound; lia. }
  assert (0 < 2 ^ (Zdigits2 M - k - 1)) by (apply Z.pow_pos_nonneg; lia).
  apply Zdigits2_unique; [lia|]. split; [exact L | exact U].
Qed.

Lemma div_pow2_zero M k : 0 <= M -> 0 <= k -> Zdigits2 M <= k -> M / 2 ^ k = 0.
Proof.
  intros HM Hk Hle. destruct (Z.eq_dec M 0) as [->|Hne]; [apply Z.div_0_l; 
    pose proof (Z.pow_pos_nonneg 2 k); lia|].
  pose proof (Zdigits2_bounds M ltac:(lia)) as [B1 B2].
  apply Z.div_small. split; [lia|].
  apply Z.lt_le_trans with (2 ^ Zdigits2 M); [lia|].
  apply Z.pow_le_mono_r; lia.
Qed.

(** what one call of [shr_fexp] computes on a non-negative mantissa *)
Lemma shr_fexp_spec M E l mrs e' :
  0 <= M ->
  shr_fexp prec emax M E l = (mrs, e') ->
  e' = Z.max E (fexp prec emax (Zdigits2 M + E))
  /\ shr_m mrs = M / 2 ^ (e' - E).
Proof.
  intros HM H. unfold shr_fexp, shr in H.
  assert (Hm0 : shr_m (shr_record_of_loc M l) = M).
  { destruct l as [|[]]; reflexivity. }
  destruct (fexp prec emax (Zdigits2 M + E) - E) as [|p|p] eqn:En;
    injection H as Hmrs He; subst mrs e'.
  - rewrite Hm0, Z.sub_diag, Z.div_1_r. split; [lia | reflexivity].
  - rewrite iter_shr_1_m by (rewrite Hm0; lia). rewrite Hm0.
    split; [lia|]. f_equal. f_equal. lia.
  - rewrite Hm0, Z.sub_diag, Z.div_1_r. split; [lia | reflexivity].
Qed.

Lemma round_nearest_even_bounds m l :
  m <= round_nearest_even m l <= m + 1.
Proof.
  unfold round_nearest_even. destruct l as [|[]]; try lia.
  destruct (Z.even m); lia.
Qed.

(** the shape of a rounded value, with the data needed to bound it *)
Lemma binary_round_aux_spec s M E l :
  0 <= M ->
  exists m2 e' e'',
    e' = Z.max E (fexp prec emax (Zdigits2 M + E))
    /\ M / 2 ^ (e' - E) <= m2 <= M / 2 ^ (e' - E) + 1
    /\ e'' = Z.max e' (fexp prec emax (Zdigits2 m2 + e'))
    /\ binary_round_aux prec emax s M E l =
       match m2 / 2 ^ (e'' - e') with
       | Z0 => S754_zero s
       | Zpos m => if e'' <=? emax - prec then S754_finite s m e'' else S754_infinity s
       | Zneg _ => S754_nan
       end.
Proof.
  intros HM. unfold binary_round_aux.
  destruct (shr_fexp prec emax M E l) as [mrs' e'] eqn:H1.
  apply shr_fexp_spec in H1; [|assumption]. destruct H1 as [He' Hm1].
  pose proof (round_nearest_even_bounds (shr_m mrs') (loc_of_shr_record mrs')) as Hr.
  set (m2 := round_nearest_even (shr_m mrs') (loc_of_shr_record mrs')) in *.
  assert (0 <= shr_m mrs').
  { rewrite Hm1. apply Z.div_pos; [lia|]. apply Z.pow_pos_nonneg; lia. }
  destruct (shr_fexp prec emax m2 e' loc_Exact) as [mrs'' e''] eqn:H2.
  apply shr_fexp_spec in H2; [|lia]. destruct H2 as [He'' Hm3].
  exists m2, e', e''. rewrite <- Hm1, <- Hm3. auto.
Qed.

Lemma binary_round_aux_not_nan s M E l :
  0 <= M -> binary_round_aux prec emax s M E l <> S754_nan.
Proof.
  intros HM. destruct (binary_round_aux_spec s M E l HM) as (m2 & e' & e'' & He' & Hm2 & He'' & ->).
  assert (0 <= M / 2 ^ (e' - E)) by (apply Z.div_pos; [lia|]; apply Z.pow_pos_nonneg; lia).
  assert (0 <= m2 / 2 ^ (e'' - e')) by (apply Z.div_pos; [lia|]; apply Z.pow_pos_nonneg; lia).
  destruct (m2 / 2 ^ (e'' - e')); try lia; try discriminate.
  destruct (e'' <=? emax - prec); discriminate.
Qed.

Lemma binary_round_aux_valid s M E l :
  0 <= M -> E <= fexp prec emax (Zdigits2 M + E) ->
  valid_binary (binary_round_aux prec emax s M E l) = true.
Proof.
  intros HM HE. destruct (binary_round_aux_spec s M E l HM) as (m2 & e' & e'' & He' & Hm2 & He'' & ->).
  set (f := fexp prec emax (Zdigits2 M + E)) in *.
  assert (Ef : e' = f) by lia. clear He'. subst e'.
  set (m1 := M / 2 ^ (f - E)) in *.
  assert (Hm1 : 0 <= m1) by (apply Z.div_pos; [lia|]; apply Z.pow_pos_nonneg; lia).
  destruct (m2 / 2 ^ (e'' - f)) as [|m3|m3] eqn:E3; try reflexivity.
  destruct (e'' <=? emax - prec) eqn:Eb; [|reflexivity].
  cbn. unfold bounded, canonical_mantissa. rewrite Eb, andb_true_r.
  apply Z.eqb_eq.
  assert (H2pos : 0 < m2).
  { destruct (Z.eq_dec m2 0) as [->|]; [|lia]. rewrite Z.div_0_l in E3; [discriminate|].
    pose proof (Z.pow_pos_nonneg 2 (e'' - f)); lia. }
  assert (Hk : e'' - f < Zdigits2 m2).
  { destruct (Z.ltb_spec (e'' - f) (Zdigits2 m2)); [assumption|].
    rewrite div_pow2_zero in E3; try lia; discriminate. }
  assert (Hd3 : Zpos (digits2_pos m3) = Zdigits2 m2 - (e'' - f)).
  { change (Zpos (digits2_pos m3)) with (Zdigits2 (Zpos m3)). rewrite <- E3.
    apply Zdigits2_div_pow2; lia. }
  rewrite Hd3. replace (Zdigits2 m2 - (e'' - f) + e'') with (Zdigits2 m2 + f) by lia.
  (* it remains to see that the second shift is to [fexp] itself *)
  enough (f <= fexp prec emax (Zdigits2 m2 + f)) by lia.
  destruct (Z.eq_dec m1 0) as [E1|N1].
  - (* everything was shifted out: the exponent is the least one *)
    assert (f = -1074).
    { assert (Hf : f = Z.max (Zdigits2 M + E - 53) (-1074)) by reflexivity.
      pose proof (Zdigits2_nonneg M).
      destruct (Z.ltb_spec (f - E) (Zdigits2 M)) as [Hlt|Hge]; [|lia].
      assert (0 < M) by (destruct M; cbn in *; lia).
      pose proof (Zdigits2_div_pow2 M (f - E) ltac:(lia) ltac:(lia) Hlt) as Hd.
      fold m1 in Hd. rewrite E1 in Hd. cbn [Zdigits2] in Hd. lia. }
    rewrite fexp_eq. lia.
  - assert (HMpos : 0 < M).
    { destruct (Z.eq_dec M 0) as [->|]; [|lia].
      exfalso; apply N1; unfold m1; apply Z.div_0_l.
      pose proof (Z.pow_pos_nonneg 2 (f - E)); lia. }
    assert (Hd1 : Zdigits2 m1 = Zdigits2 M - (f - E)).
    { destruct (Z.ltb_spec (f - E) (Zdigits2 M)) as [Hlt|Hge].
      - apply Zdigits2_div_pow2; lia.
      - exfalso. apply N1. apply div_pow2_zero; lia. }
    pose proof (Zdigits2_mono m1 m2 ltac:(lia) ltac:(lia)) as Hmono.
    assert (Hf : f = Z.max (Zdigits2 M + E - 53) (-1074)) by reflexivity.
    rewrite fexp_eq. lia.
Qed.

Lemma Zdigits2_round_le M k m2 :
  0 <= M -> 0 <= k -> M / 2 ^ k <= m2 <= M / 2 ^ k + 1 ->
  Zdigits2 m2 <= Z.max (Zdigits2 M - k) 0 + 1.
Proof.
  intros HM Hk Hm2.
  assert (Hm1 : 0 <= M / 2 ^ k) by (apply Z.div_pos; [lia|]; apply Z.pow_pos_nonneg; lia).
  destruct (Z.ltb_spec k (Zdigits2 M)) as [Hlt|Hge].
  - assert (0 < M) by (destruct M; cbn in *; lia).
    pose proof (Zdigits2_div_pow2 M k ltac:(lia) Hk Hlt) as Hd.
    assert (0 < M / 2 ^ k).
    { destruct (Z.eq_dec (M / 2 ^ k) 0) as [E0|]; [|lia].
      rewrite E0 in Hd. cbn [Zdigits2] in Hd. lia. }
    pose proof (Zdigits2_bounds (M / 2 ^ k) ltac:(lia)) as [B1 B2].
    rewrite Hd in B2.
    apply Zdigits2_le_of_lt; [lia|lia|].
    replace (Z.max (Zdigits2 M - k) 0 + 1) with (Z.succ (Zdigits2 M - k)) by lia.
    rewrite Z.pow_succ_r by lia. lia.
  - rewrite (div_pow2_zero M k) in Hm2 by lia.
    apply Zdigits2_le_of_lt; [lia|lia|].
    replace (Z.max (Zdigits2 M - k) 0 + 1) with 1 by lia. cbn. lia.
Qed.

Lemma binary_round_aux_no_overflow s M E l :
  0 <= M ->
  Z.max E (fexp prec emax (Zdigits2 M + E + 1)) <= emax - prec ->
  forall s', binary_round_aux prec emax s M E l <> S754_infinity s'.
Proof.
  intros HM Hb s'. destruct (binary_round_aux_spec s M E l HM) as (m2 & e' & e'' & He' & Hm2 & He'' & ->).
  destruct (m2 / 2 ^ (e'' - e')) as [|m3|m3] eqn:E3; try discriminate.
  enough (e'' <= emax - prec) as Hle by (apply Z.leb_le in Hle; rewrite Hle; discriminate).
  pose proof (Zdigits2_round_le M (e' - E) m2 HM ltac:(lia) Hm2) as Hd.
  rewrite !fexp_eq in *. unfold emax, prec in *. lia.
Qed.

Lemma Zdigits2_ge_of_le M d : 0 < d -> 2 ^ (d - 1) <= M -> d <= Zdigits2 M.
Proof.
  intros Hd H.
  assert (0 < 2 ^ (d - 1)) by (apply Z.pow_pos_nonneg; lia).
  pose proof (Zdigits2_bounds M ltac:(lia)) as [B1 B2].
  assert (d - 1 < Zdigits2 M) by (apply (Z.pow_lt_mono_r_iff 2); [lia| |lia]; apply Zdigits2_nonneg).
  lia.
Qed.

Lemma shl_align_fexp m e :
  let '(mz, ez) := shl_align m e (fexp prec emax (Zpos (digits2_pos m) + e)) in
  ez <= fexp prec emax (Zpos (digits2_pos mz) + ez)
  /\ Zpos (digits2_pos mz) + ez = Zpos (digits2_pos m) + e
  /\ ez <= e.
Proof.
  unfold shl_align.
  destruct (fexp prec emax (Zpos (digits2_pos m) + e) - e) as [|d|d] eqn:Ed.
  - repeat split; lia.
  - repeat split; lia.
  - rewrite digits2_pos_shiftl, Pos2Z.inj_add.
    replace (Zpos (digits2_pos m) + Zpos d + fexp prec emax (Zpos (digits2_pos m) + e))
      with (Zpos (digits2_pos m) + e) by lia.
    repeat split; lia.
Qed.

Lemma binary_round_valid s m e :
  valid_binary (binary_round prec emax s m e) = true.
Proof.
  unfold binary_round. pose proof (shl_align_fexp m e) as H.
  destruct (shl_align m e _) as [mz ez]. destruct H as (H1 & H2 & H3).
  apply binary_round_aux_valid; [lia | exact H1].
Qed.

Lemma binary_round_no_overflow s m e :
  Zpos (digits2_pos m) + e < emax ->
  forall s', binary_round prec emax s m e <> S754_infinity s'.
Proof.
  intros Hb. unfold binary_round. pose proof (shl_align_fexp m e) as H.
  destruct (shl_align m e _) as [mz ez]. destruct H as (H1 & H2 & H3).
  apply binary_round_aux_no_overflow; [lia|].
  cbn [Zdigits2]. rewrite fexp_eq in *. unfold emax, prec in *. lia.
Qed.

Lemma binary_normalize_valid z e sz :
  valid_binary (binary_normalize prec emax z e sz) = true.
Proof. destruct z; [reflexivity | apply binary_round_valid ..]. Qed.

Lemma binary_normalize_no_overflow z e sz :
  Zdigits2 z + e < emax ->
  forall s', binary_normalize prec emax z e sz <> S754_infinity s'.
Proof.
  destruct z; cbn [binary_normalize Zdigits2]; intros H s';
    [discriminate | now apply binary_round_no_overflow ..].
Qed.

Lemma binary_normalize_not_nan z e sz :
  binary_normalize prec emax z e sz <> S754_nan.
Proof.
  destruct z; cbn [binary_normalize]; [discriminate | |];
    unfold binary_round; destruct (shl_align _ _ _); apply binary_round_aux_not_nan; lia.
Qed.

Lemma Zdigits2_abs z : Zdigits2 (Z.abs z) = Zdigits2 z.
Proof. destruct z; reflexivity. Qed.

Lemma div_eucl_nonneg a b q r : a = b * q + r -> 0 <= r < b -> 0 <= a -> 0 <= q.
Proof. intros. nia. Qed.

Lemma div_eucl_lower a b q r K P :
  a = b * q + r -> 0 <= r < b -> b < P -> K * P <= a -> 0 <= K -> K <= q.
Proof. intros. nia. Qed.

Lemma div_eucl_upper a b q r U P :
  a = b * q + r -> 0 <= r < b -> P <= b -> 0 < P -> 0 <= a -> a < U * P -> q < U.
Proof.
  intros Ha Hr HP HP0 Ha0 HU.
  assert (0 <= q) by nia.
  destruct (Z.ltb_spec q U); [assumption|exfalso].
  assert (P * U <= P * q) by (apply Z.mul_le_mono_nonneg_l; lia).
  assert (P * q <= b * q) by (apply Z.mul_le_mono_nonneg_r; lia).
  lia.
Qed.

(** quotient produced by the division core on two positive integers *)
Lemma SFdiv_core_binary_spec m1 e1 m2 e2 q e' l :
  0 < m1 -> 0 < m2 ->
  SFdiv_core_binary prec emax m1 e1 m2 e2 = (q, e', l) ->
  0 <= q
  /\ e' <= fexp prec emax (Zdigits2 q + e')
  /\ Zdigits2 q + e' <= Z.max (Zdigits2 m1 + e1 - (Zdigits2 m2 + e2) + 1) e'
  /\ e' <= e1 - e2
  /\ Zdigits2 m1 + e1 - (Zdigits2 m2 + e2) <= Zdigits2 q + e'
  /\ e' <= fexp prec emax (Zdigits2 m1 + e1 - (Zdigits2 m2 + e2)).
Proof.
  intros H1 H2 H. unfold SFdiv_core_binary in H.
  set (d1 := Zdigits2 m1) in *. set (d2 := Zdigits2 m2) in *.
  set (e0 := Z.min (fexp prec emax (d1 + e1 - (d2 + e2))) (e1 - e2)) in *.
  set (s := e1 - e2 - e0) in *.
  assert (Hs : 0 <= s) by (unfold s, e0; lia).
  set (m' := match s with Z.pos _ => Z.shiftl m1 s | 0 => m1 | Z.neg _ => 0 end) in *.
  assert (Hm' : m' = m1 * 2 ^ s).
  { unfold m'. destruct s as [|p|p] eqn:Es; [cbn; lia | | lia].
    rewrite Z.shiftl_mul_pow2 by lia. reflexivity. }
  pose proof (Z.div_eucl_eq m' m2 ltac:(lia)) as Heq.
  pose proof (Z.mod_pos_bound m' m2 H2) as Hr.
  unfold Z.modulo in Hr.
  destruct (Z.div_eucl m' m2) as [q0 r0]. cbn in Heq, Hr. injection H as <- <- <-.
  pose proof (Zdigits2_bounds m1 H1) as [B1 B1'].
  pose proof (Zdigits2_bounds m2 H2) as [B2 B2'].
  fold d1 in B1, B1'. fold d2 in B2, B2'.
  assert (Hd1 : 0 < d1) by (apply Zdigits2_pos; lia).
  assert (Hd2 : 0 < d2) by (apply Zdigits2_pos; lia).
  assert (P2s : 0 < 2 ^ s) by (apply Z.pow_pos_nonneg; lia).
  assert (Hm'0 : 0 < m') by (rewrite Hm'; apply Z.mul_pos_pos; lia).
  assert (Hq0 : 0 <= q0) by (apply (div_eucl_nonneg m' m2 q0 r0); lia).
  split; [exact Hq0|].
  assert (Lq : d1 + s - d2 <= Zdigits2 q0).
  { destruct (Z.ltb_spec 0 (d1 + s - d2)) as [Hp|Hn];
      [|pose proof (Zdigits2_nonneg q0); lia].
    apply Zdigits2_ge_of_le; [lia|].
    assert (E : 2 ^ (d1 + s - 1) = 2 ^ (d1 + s - d2 - 1) * 2 ^ d2).
    { rewrite <- Z.pow_add_r by lia. f_equal. lia. }
    assert (E' : 2 ^ (d1 + s - 1) = 2 ^ (d1 - 1) * 2 ^ s).
    { rewrite <- Z.pow_add_r by lia. f_equal. lia. }
    assert (0 < 2 ^ (d1 + s - d2 - 1)) by (apply Z.pow_pos_nonneg; lia).
    assert (2 ^ (d1 - 1) * 2 ^ s <= m1 * 2 ^ s) by (apply Z.mul_le_mono_nonneg_r; lia).
    apply (div_eucl_lower m' m2 q0 r0 _ (2 ^ d2)); lia. }
  assert (Uq : Zdigits2 q0 <= Z.max (d1 + s - d2 + 1) 0).
  { destruct (Z.ltb_spec (d1 + s - d2 + 1) 0) as [Hn|Hp].
    { assert (q0 < 1); [|destruct q0; cbn; lia].
      assert (E : 2 ^ d1 * 2 ^ s = 2 ^ (d1 + s)) by (rewrite <- Z.pow_add_r by lia; reflexivity).
      assert (2 ^ (d1 + s) <= 2 ^ (d2 - 1)) by (apply Z.pow_le_mono_r; lia).
      assert (m1 * 2 ^ s < 2 ^ d1 * 2 ^ s) by (apply Z.mul_lt_mono_pos_r; lia).
      assert (0 < 2 ^ (d2 - 1)) by (apply Z.pow_pos_nonneg; lia).
      apply (div_eucl_upper m' m2 q0 r0 _ (2 ^ (d2 - 1))); lia. }
    rewrite Z.max_l by lia.
    apply Zdigits2_le_of_lt; [lia|lia|].
    assert (E : 2 ^ (d1 + s) = 2 ^ (d1 + s - d2 + 1) * 2 ^ (d2 - 1)).
    { rewrite <- Z.pow_add_r by lia. f_equal. lia. }
    assert (E' : 2 ^ (d1 + s) = 2 ^ d1 * 2 ^ s).
    { rewrite <- Z.pow_add_r by lia. reflexivity. }
    assert (0 < 2 ^ (d2 - 1)) by (apply Z.pow_pos_nonneg; lia).
    assert (m1 * 2 ^ s < 2 ^ d1 * 2 ^ s) by (apply Z.mul_lt_mono_pos_r; lia).
    apply (div_eucl_upper m' m2 q0 r0 _ (2 ^ (d2 - 1))); lia. }
  split.
  - assert (He0 : e0 <= fexp prec emax (d1 + e1 - (d2 + e2))) by (unfold e0; lia).
    rewrite fexp_eq in *. unfold s in *. lia.
  - repeat split; unfold s, e0 in *; lia.
Qed.

(** a rounded value is not smaller in magnitude than what was rounded *)
Lemma binary_round_aux_magnitude s M E l s' m e :
  0 < M -> E <= fexp prec emax (Zdigits2 M + E) ->
  fexp prec emax (Zdigits2 M + E) - E < Zdigits2 M ->
  binary_round_aux prec emax s M E l = S754_finite s' m e ->
  Zdigits2 M + E <= Zpos (digits2_pos m) + e.
Proof.
  intros HM HE Hk.
  destruct (binary_round_aux_spec s M E l ltac:(lia)) as (m2 & e' & e'' & He' & Hm2 & He'' & ->).
  set (f := fexp prec emax (Zdigits2 M + E)) in *.
  assert (Ef : e' = f) by lia. clear He'. subst e'.
  pose proof (Zdigits2_div_pow2 M (f - E) HM ltac:(lia) Hk) as Hd1.
  set (m1 := M / 2 ^ (f - E)) in *.
  assert (Hm1 : 0 < m1).
  { destruct (Z.ltb_spec 0 m1); [assumption|].
    assert (m1 = 0) as E0 by (assert (0 <= m1) by (apply Z.div_pos; [lia|]; apply Z.pow_pos_nonneg; lia); lia).
    rewrite E0 in Hd1. cbn [Zdigits2] in Hd1. lia. }
  pose proof (Zdigits2_mono m1 m2 Hm1 ltac:(lia)) as Hmono.
  destruct (m2 / 2 ^ (e'' - f)) as [|m3|m3] eqn:E3; try discriminate.
  destruct (e'' <=? emax - prec); [|discriminate].
  intros [= _ <- <-].
  assert (Hk2 : e'' - f < Zdigits2 m2).
  { destruct (Z.ltb_spec (e'' - f) (Zdigits2 m2)); [assumption|].
    rewrite div_pow2_zero in E3; try lia; discriminate. }
  change (Zpos (digits2_pos m3)) with (Zdigits2 (Zpos m3)). rewrite <- E3.
  rewrite Zdigits2_div_pow2 by lia. lia.
Qed.

Lemma binary_round_magnitude s p e0 s' m e :
  emin <= e0 ->
  binary_round prec emax s p e0 = S754_finite s' m e ->
  Zpos (digits2_pos p) + e0 <= Zpos (digits2_pos m) + e.
Proof.
  intros He0. unfold binary_round. pose proof (shl_align_fexp p e0) as H.
  destruct (shl_align p e0 _) as [mz ez]. destruct H as (H1 & H2 & H3).
  intros Hr. rewrite <- H2.
  apply (binary_round_aux_magnitude s (Zpos mz) ez loc_Exact s'); try assumption; try lia.
  cbn [Zdigits2]. rewrite H2. rewrite fexp_eq in *.
  unfold SpecFloat.emin, emax, prec in *. lia.
Qed.

(** a quotient of a finite float of magnitude at least [1] by a finite
    positive float does not underflow to zero *)
Lemma SFdiv_neg_pos mx ex my ey :
  valid_binary (S754_finite true mx ex) = true ->
  valid_binary (S754_finite false my ey) = true ->
  1 <= Zpos (digits2_pos mx) + ex ->
  SFltb (SFdiv prec emax (S754_finite true mx ex) (S754_finite false my ey))
        (S754_zero false) = true.
Proof.
  intros Vx Vy Hmag. unfold SFdiv.
  destruct (SFdiv_core_binary prec emax (Zpos mx) ex (Zpos my) ey) as [[mz ez] lz] eqn:Ed.
  change (xorb true false) with true.
  apply SFdiv_core_binary_spec in Ed; [|lia|lia].
  destruct Ed as (Hq & Hf & Hu & He & Hl & Hf0).
  apply valid_finite_inv in Vx, Vy.
  cbn [Zdigits2] in *. rewrite fexp_eq in *. unfold emax, prec in * |-.
  assert (Hd : 0 < Zdigits2 mz) by lia.
  destruct mz as [|M|M]; cbn [Zdigits2] in *; try lia.
  destruct (binary_round_aux_sign true M ez lz) as [(m & e & ->) | ->];
    [rewrite fexp_eq; lia | reflexivity | reflexivity].
Qed.

End FloatFacts.

(** ** Python arithmetic: when it raises and what it returns *)

Section PyNumFacts.
Import PyNum.

Lemma float_pos_ne_zero (y : float) :
  (0 <? y)%float = true -> (y =? 0)%float = false.
Proof.
  rewrite FloatAxioms.ltb_spec, FloatAxioms.eqb_spec. change (Prim2SF 0) with (S754_zero false).
  destruct (Prim2SF y) as [s|s| |s m e]; try discriminate;
    destruct s; try discriminate; reflexivity.
Qed.

Lemma abs_lt_pow2_digits z k : 0 <= k -> Z.abs z < 2 ^ k -> Zdigits2 z <= k.
Proof.
  intros Hk H. rewrite <- Zdigits2_abs. apply Zdigits2_le_of_lt; lia.
Qed.

(** [float(z)] succeeds on every integer below [2^1023] in magnitude. *)
Lemma float_of_int_ok z :
  Z.abs z < 2 ^ 1023 ->
  exists q, float_of_int z = Ok q
            /\ Prim2SF q = binary_normalize prec emax z 0 false.
Proof.
  intros Hz. unfold float_of_int.
  pose proof (abs_lt_pow2_digits z 1023 ltac:(lia) Hz) as Hd.
  pose proof (binary_normalize_no_overflow z 0 false ltac:(unfold emax; lia)) as Hno.
  pose proof (binary_normalize_valid z 0 false) as Hv.
  destruct (binary_normalize prec emax z 0 false) as [s|s| |s m e] eqn:E;
    try (eexists; split; [reflexivity | now apply Prim2SF_SF2Prim]).
  exfalso. now apply (Hno s).
Qed.

(** The conversion of a negative integer is a negative float of magnitude
    at least one. *)
Lemma float_of_int_neg_shape z q :
  z < 0 -> float_of_int z = Ok q ->
  exists m e, Prim2SF q = S754_finite true m e
              /\ 1 <= Zpos (digits2_pos m) + e.
Proof.
  intros Hz. unfold float_of_int.
  destruct z as [|p|p]; try lia. cbn [binary_normalize].
  pose proof (binary_round_valid true p 0) as Hv.
  assert (Hmin : emin <= 0) by (unfold SpecFloat.emin, emax, prec; lia).
  pose proof (binary_round_magnitude true p 0) as Hmag.
  destruct (binary_round_sign true p 0 Hmin) as [(m & e & E) | E];
    rewrite E in *; [|discriminate].
  intros H. change (Ok (SF2Prim (S754_finite true m e)) = Ok q) in H.
  assert (Hq : q = SF2Prim (S754_finite true m e)) by congruence. subst q.
  exists m, e. split; [now apply Prim2SF_SF2Prim|].
  specialize (Hmag true m e Hmin eq_refl).
  pose proof (Pos2Z.is_pos (digits2_pos p)). lia.
Qed.

Lemma float_of_int_neg z q :
  z < 0 -> float_of_int z = Ok q -> (q <? 0)%float = true.
Proof.
  intros Hz Hq. destruct (float_of_int_neg_shape z q Hz Hq) as (m & e & E & _).
  rewrite FloatAxioms.ltb_spec, E. reflexivity.
Qed.

(** A negative integer divided by a finite positive float is a negative
    float: the quotient is not clamped and does not vanish. *)
Lemma int_float_truediv_neg z y r :
  z < 0 -> (0 <? y)%float = true -> (y <? infinity)%float = true ->
  int_float_truediv z y = Ok r -> (r <? 0)%float = true.
Proof.
  intros Hz Hy Hfin. unfold int_float_truediv, bind.
  destruct (float_of_int z) as [q|] eqn:Eq; [|discriminate].
  unfold float_truediv. rewrite (float_pos_ne_zero y Hy).
  intros H. assert (Hr : r = (q / y)%float) by congruence. subst r. clear H.
  destruct (float_of_int_neg_shape z q Hz Eq) as (m & e & E & Hmag).
  pose proof (Prim2SF_valid q) as Vq. pose proof (Prim2SF_valid y) as Vy.
  rewrite FloatAxioms.ltb_spec in *. rewrite div_spec. unfold SF64div.
  change (Prim2SF 0) with (S754_zero false) in *.
  change (Prim2SF infinity) with (S754_infinity false) in *.
  rewrite E in *.
  destruct (Prim2SF y) as [sy|sy| |sy my ey]; try discriminate;
    destruct sy; try discriminate.
  now apply SFdiv_neg_pos.
Qed.

(** [a / b] on integers succeeds whenever [b <> 0] and [a] is below
    [2^1023] in magnitude, and its value is finite. *)
Lemma int_truediv_ok a b :
  b <> 0 -> Z.abs a < 2 ^ 1023 ->
  exists q, int_truediv a b = Ok q /\ is_finite q = true.
Proof.
  intros Hb Ha. unfold int_truediv.
  destruct (Z.eqb_spec b 0) as [|_]; [contradiction|].
  destruct (Z.eqb_spec a 0) as [|Hne].
  { destruct (b <? 0); eexists; split; reflexivity. }
  destruct (SFdiv_core_binary prec emax (Z.abs a) 0 (Z.abs b) 0) as [[mz ez] lz] eqn:Ed.
  apply SFdiv_core_binary_spec in Ed; [|lia|lia].
  destruct Ed as (Hq & Hf & Hu & He).
  pose proof (abs_lt_pow2_digits a 1023 ltac:(lia) Ha) as Hd.
  rewrite !Zdigits2_abs in Hu.
  pose proof (Zdigits2_pos (Z.abs b) ltac:(lia)) as Hdb. rewrite Zdigits2_abs in Hdb.
  set (s := xorb (a <? 0) (b <? 0)).
  pose proof (binary_round_aux_valid s mz ez lz Hq Hf) as Hv.
  pose proof (binary_round_aux_not_nan s mz ez lz Hq) as Hnan.
  assert (Hno : forall s', binary_round_aux prec emax s mz ez lz <> S754_infinity s').
  { apply binary_round_aux_no_overflow; [exact Hq|].
    rewrite fexp_eq. unfold emax, prec. lia. }
  destruct (binary_round_aux prec emax s mz ez lz) as [s'|s'| |s' m e] eqn:E.
  - eexists; split; [reflexivity|]. unfold is_finite.
    rewrite Prim2SF_SF2Prim by assumption. reflexivity.
  - exfalso. now apply (Hno s').
  - contradiction.
  - eexists; split; [reflexivity|]. unfold is_finite.
    rewrite Prim2SF_SF2Prim by assumption. reflexivity.
Qed.

Lemma round_half_even_bounds num den :
  0 <= num -> 0 < den ->
  num / den <= round_half_even num den <= num / den + 1.
Proof.
  intros Hn Hd. unfold round_half_even.
  destruct (2 * (num mod den) ?= den); [destruct (Z.even _)| |]; lia.
Qed.

(** [round(x, 1)] never raises. *)
Lemma float_round_ok (x : float) : exists r, float_round x 1 = Ok r.
Proof.
  unfold float_round. pose proof (Prim2SF_valid x) as Hv.
  destruct (Prim2SF x) as [s|s| |s m e] eqn:E; try (eexists; reflexivity).
  destruct (0 <=? e) eqn:Ee; [eexists; reflexivity|].
  apply Z.leb_gt in Ee.
  apply valid_finite_inv in Hv. destruct Hv as (_ & _ & Hd & _).
  pose proof (digits2_pos_bounds m) as [_ Hm].
  assert (Hm53 : Zpos m < 2 ^ 53).
  { apply Z.lt_le_trans with (2 ^ Zpos (digits2_pos m)); [lia|].
    apply Z.pow_le_mono_r; [lia | exact Hd]. }
  assert (Hden : 2 <= 2 ^ (- e)).
  { change 2 with (2 ^ 1) at 1. apply Z.pow_le_mono_r; lia. }
  pose proof (round_half_even_bounds (Zpos m * 10 ^ 1) (2 ^ (- e)) ltac:(lia) ltac:(lia)) as Hn.
  set (n := round_half_even (Zpos m * 10 ^ 1) (2 ^ (- e))) in *.
  assert (Hq : Zpos m * 10 ^ 1 / 2 ^ (- e) <= Zpos m * 10 ^ 1 / 2).
  { apply Z.div_le_compat_l; lia. }
  assert (Hq2 : Zpos m * 10 ^ 1 / 2 < 2 ^ 56).
  { apply Z.div_lt_upper_bound; [lia|]. change (10 ^ 1) with 10.
    change (2 * 2 ^ 56) with (16 * 2 ^ 53). lia. }
  assert (H0 : 0 <= Zpos m * 10 ^ 1 / 2 ^ (- e)) by (apply Z.div_pos; lia).
  destruct (n =? 0); [eexists; reflexivity|].
  assert (Hbound : Z.abs (if s then - n else n) < 2 ^ 1023).
  { assert (2 ^ 56 + 1 < 2 ^ 1023) by (apply Z.ltb_lt; vm_compute; reflexivity).
    destruct s; lia. }
  destruct (int_truediv_ok (if s then - n else n) (10 ^ 1) ltac:(discriminate) Hbound)
    as (r & Hr & _).
  exists r. exact Hr.
Qed.

(** [a / b] on integers, when it returns, returns a finite float. *)
Lemma int_truediv_finite a b q :
  int_truediv a b = Ok q -> is_finite q = true.
Proof.
  unfold int_truediv.
  destruct (Z.eqb_spec b 0) as [|Hb]; [discriminate|].
  destruct (Z.eqb_spec a 0) as [|Hne].
  { destruct (b <? 0); intros [= <-]; reflexivity. }
  destruct (SFdiv_core_binary prec emax (Z.abs a) 0 (Z.abs b) 0) as [[mz ez] lz] eqn:Ed.
  apply SFdiv_core_binary_spec in Ed; [|lia|lia].
  destruct Ed as (Hq & Hf & _).
  set (s := xorb (a <? 0) (b <? 0)).
  pose proof (binary_round_aux_valid s mz ez lz Hq Hf) as Hv.
  pose proof (binary_round_aux_not_nan s mz ez lz Hq) as Hnan.
  destruct (binary_round_aux prec emax s mz ez lz) as [s'|s'| |s' m e] eqn:E;
    try discriminate; try contradiction.
  - intros H. change (Ok (SF2Prim (S754_zero s')) = Ok q) in H.
    assert (Hq' : q = SF2Prim (S754_zero s')) by congruence. subst q.
    unfold is_finite. now rewrite Prim2SF_SF2Prim.
  - intros H. change (Ok (SF2Prim (S754_finite s' m e)) = Ok q) in H.
    assert (Hq' : q = SF2Prim (S754_finite s' m e)) by congruence. subst q.
    unfold is_finite. now rewrite Prim2SF_SF2Prim.
Qed.

(** A finite float divided by a positive one is not NaN. *)
Lemma float_div_not_nan (t p : float) :
  is_finite t = true -> (0 <? p)%float = true ->
  Prim2SF (t / p)%float <> S754_nan.
Proof.
  unfold is_finite. rewrite FloatAxioms.ltb_spec, div_spec. unfold SF64div.
  change (Prim2SF 0) with (S754_zero false).
  destruct (Prim2SF t) as [st|st| |st mt et]; try discriminate;
    destruct (Prim2SF p) as [sp|sp| |sp mp ep]; try discriminate;
    intros _ Hp; cbn [SFdiv]; try discriminate.
  destruct (SFdiv_core_binary prec emax (Zpos mt) et (Zpos mp) ep) as [[mz ez] lz] eqn:Ed.
  apply SFdiv_core_binary_spec in Ed; [|lia|lia].
  apply binary_round_aux_not_nan. tauto.
Qed.

Lemma float_mul100_not_nan (x : float) :
  Prim2SF x <> S754_nan -> Prim2SF (x * 100)%float <> S754_nan.
Proof.
  rewrite mul_spec. unfold SF64mul.
  replace (Prim2SF 100) with (S754_finite false 7036874417766400 (-46))
    by (vm_compute; reflexivity).
  destruct (Prim2SF x) as [s|s| |s m e]; intros H; try contradiction;
    cbn [SFmul]; try discriminate.
  apply binary_round_aux_not_nan. lia.
Qed.

Lemma float_round_not_nan (y r : float) :
  Prim2SF y <> S754_nan -> float_round y 1 = Ok r -> Prim2SF r <> S754_nan.
Proof.
  intros Hy. unfold float_round.
  destruct (Prim2SF y) as [s|s| |s m e] eqn:E; try contradiction;
    try (intros [= <-]; rewrite E; discriminate).
  destruct (0 <=? e); [intros [= <-]; rewrite E; discriminate|].
  destruct (_ =? 0); [destruct s; intros [= <-]; discriminate|].
  intros H. apply int_truediv_finite in H. unfold is_finite in H.
  destruct (Prim2SF r); try discriminate.
Qed.

End PyNumFacts.

(** ** The rate tracker *)

Section DeltaTrackerFacts.
Import DeltaTracker.

Implicit Types (d : gmap string (Z * float)) (key : string).

(** C7: on the first observation of a key the rate is [0.0] and the key is
    stored with the pair [(v, now)]. *)
Theorem update_first_observation d now key v :
  d !! key = None ->
  snd (update d now key v) = Ok 0%float
  /\ fst (update d now key v) !! key = Some (v, now).
Proof.
  intros Hnone. unfold update. rewrite Hnone. cbn.
  split; [reflexivity | apply lookup_insert_eq].
Qed.

Lemma update_first_observation_witness :
  snd (update ∅ 1%float "ctxt" 7) = Ok 0%float
  /\ fst (update ∅ 1%float "ctxt" 7) !! "ctxt" = Some (7, 1%float).
Proof. apply update_first_observation. apply lookup_empty. Defined.

(** C4: a second update at the stored timestamp yields [0.0] and still
    replaces the stored pair. *)
Theorem update_same_timestamp d key v1 t1 v2 :
  d !! key = Some (v1, t1) ->
  snd (update d t1 key v2) = Ok 0%float
  /\ fst (update d t1 key v2) !! key = Some (v2, t1).
Proof.
  intros Hsome. unfold update. rewrite Hsome.
  rewrite float_sub_diag_not_pos. cbn.
  split; [reflexivity | apply lookup_insert_eq].
Qed.

Lemma update_same_timestamp_witness :
  snd (update {["ctxt" := (5, 2%float)]} 2%float "ctxt" 9) = Ok 0%float
  /\ fst (update {["ctxt" := (5, 2%float)]} 2%float "ctxt" 9) !! "ctxt"
     = Some (9, 2%float).
Proof. apply (update_same_timestamp _ _ 5). apply lookup_singleton_eq. Defined.

(** C3: with a stored pair [(v1, t1)] and a later time [t2], the call returns
    the value of the Python expression [(v2 - v1) / (t2 - t1)] and stores
    [(v2, t2)]; for counters below [2^1023] in magnitude that value is the
    float quotient, never an exception; and a negative delta over a finite
    elapsed time comes back as a negative rate, not clamped. *)
Theorem update_rate d key v1 t1 v2 t2 :
  d !! key = Some (v1, t1) ->
  (t1 <? t2)%float = true ->
  snd (update d t2 key v2) = PyNum.int_float_truediv (v2 - v1) (t2 - t1)
  /\ fst (update d t2 key v2) !! key = Some (v2, t2)
  /\ (Z.abs (v2 - v1) < 2 ^ 1023 ->
      exists q, PyNum.float_of_int (v2 - v1) = Ok q
                /\ snd (update d t2 key v2) = Ok (q / (t2 - t1))%float)
  /\ (v2 < v1 -> (t2 - t1 <? infinity)%float = true ->
      forall r, snd (update d t2 key v2) = Ok r -> (r <? 0)%float = true).
Proof.
  intros Hsome Hlt. apply float_sub_pos in Hlt.
  unfold update. rewrite Hsome, Hlt. cbn [fst snd].
  split; [reflexivity|]. split; [apply lookup_insert_eq|]. split.
  - intros Hb. destruct (float_of_int_ok _ Hb) as (q & Hq & _).
    exists q. split; [exact Hq|].
    unfold PyNum.int_float_truediv, bind, PyNum.float_truediv.
    now rewrite Hq, (float_pos_ne_zero _ Hlt).
  - intros Hneg Hfin r Hr.
    apply (int_float_truediv_neg (v2 - v1) (t2 - t1)%float); auto; lia.
Qed.

Lemma update_rate_witness :
  snd (update {["ctxt" := (100, 1%float)]} 3%float "ctxt" 40)
  = PyNum.int_float_truediv (40 - 100) (3 - 1)%float.
Proof.
  apply (update_rate {["ctxt" := (100, 1%float)]} "ctxt" 100 1%float 40 3%float).
  - apply lookup_singleton_eq.
  - reflexivity.
Defined.

Example update_rate_negative :
  snd (update {["ctxt" := (100, 1%float)]} 3%float "ctxt" 40) = Ok (-30)%float.
Proof. vm_compute. reflexivity. Qed.

End DeltaTrackerFacts.

(** ** The per-core usage tracker *)

Section CoreTrackerFacts.
Import CoreTracker.

Implicit Types (c : gmap Z (Z * Z)).

(** C5: with a stored pair [(idle1, total1)], the call returns the value of
    [round((1.0 - idle_delta / total_delta) * 100, 1)] when
    [total_delta > 0] and [0.0] otherwise, and stores [(idle2, total2)]; for
    tick counters below [2^1023] in magnitude that value is a float, never an
    exception; the samples (100, 200) then (150, 300) give [50.0]. *)
Theorem core_update_usage c core_id idle1 total1 idle2 total2 :
  c !! core_id = Some (idle1, total1) ->
  snd (update c core_id idle2 total2)
  = (if 0 <? total2 - total1
     then usage (idle2 - idle1) (total2 - total1)
     else Ok 0%float)
  /\ fst (update c core_id idle2 total2) !! core_id = Some (idle2, total2)
  /\ (0 < total2 - total1 -> Z.abs (idle2 - idle1) < 2 ^ 1023 ->
      exists q r,
        PyNum.int_truediv (idle2 - idle1) (total2 - total1) = Ok q
        /\ PyNum.float_round ((1 - q) * 100)%float 1 = Ok r
        /\ snd (update c core_id idle2 total2) = Ok r)
  /\ snd (update (fst (update ∅ 0 100 200)) 0 150 300) = Ok 50%float.
Proof.
  intros Hsome. unfold update at 1 2 3. rewrite Hsome.
  split; [destruct (0 <? total2 - total1); reflexivity|].
  split; [destruct (0 <? total2 - total1); cbn [fst]; apply lookup_insert_eq|].
  split; [|vm_compute; reflexivity].
  intros Hpos Hb. apply Z.ltb_lt in Hpos. rewrite Hpos. cbn [snd].
  destruct (int_truediv_ok (idle2 - idle1) (total2 - total1) ltac:(lia) Hb)
    as (q & Hq & _).
  destruct (float_round_ok ((1 - q) * 100)%float) as (r & Hr).
  exists q, r. unfold usage, bind. now rewrite Hq, Hr.
Qed.

Lemma core_update_usage_witness :
  snd (update {[0 := (100, 200)]} 0 150 300)
  = (if 0 <? 300 - 200 then usage (150 - 100) (300 - 200) else Ok 0%float).
Proof.
  apply (core_update_usage {[0 := (100, 200)]} 0 100 200 150 300).
  apply lookup_singleton_eq.
Defined.

End CoreTrackerFacts.

(** ** The Docker socket client *)

Section ReadLoopFacts.
Import Docker.

Variable recv : nat -> recv_result.

Lemma stops_at_false k :
  stops_at recv k = false ->
  exists c, recv k = Chunk c /\ c <> []
            /\ contains end_marker (received recv k ++ c) = false
            /\ len (received recv k ++ c) <= 50000.
Proof.
  unfold stops_at. cbn [received].
  destruct (recv k) as [c| |]; try discriminate.
  destruct c as [|b c]; [discriminate|].
  intros H. apply orb_false_elim in H. destruct H as [H1 H2].
  exists (b :: c). repeat split; [discriminate | exact H1 | lia].
Qed.

(** The loop, started after [i] reads that gave no reason to stop, makes at
    most [n] further reads, goes on exactly while no stop condition holds,
    and returns what the reads have delivered. *)
Lemma read_loop_inv n : forall i response,
  response = received recv i ->
  (forall k, (k < i)%nat -> stops_at recv k = false) ->
  (i <= snd (read_loop recv n i response) <= i + n)%nat
  /\ (forall k, (S k < snd (read_loop recv n i response))%nat ->
       stops_at recv k = false)
  /\ ((i < snd (read_loop recv n i response) < i + n)%nat ->
      stops_at recv (snd (read_loop recv n i response) - 1) = true)
  /\ ((0 < n)%nat -> (i < snd (read_loop recv n i response))%nat)
  /\ (forall r, fst (read_loop recv n i response) = Ok r ->
       r = received recv (snd (read_loop recv n i response))).
Proof.
  induction n as [|n IH]; intros i response Hresp Hprev; cbn [read_loop].
  - cbn [fst snd]. repeat split; try lia.
    + intros k Hk. apply Hprev. lia.
    + intros r [= <-]. exact Hresp.
  - assert (Hstop : forall k, (S k < S i)%nat -> stops_at recv k = false)
      by (intros k Hk; apply Hprev; lia).
    assert (Hlast : (S i - 1 = i)%nat) by lia.
    destruct (recv i) as [chunk| |] eqn:Er.
    + destruct chunk as [|b chunk].
      * cbn [fst snd]. repeat split; try lia; try exact Hstop.
        -- intros _. rewrite Hlast. unfold stops_at. now rewrite Er.
        -- intros r [= <-]. cbn [received]. rewrite Er, app_nil_r. exact Hresp.
      * destruct (contains end_marker (response ++ b :: chunk)
                  || (50000 <? len (response ++ b :: chunk))) eqn:Ec.
        -- cbn [fst snd]. repeat split; try lia; try exact Hstop.
           ++ intros _. rewrite Hlast. unfold stops_at. rewrite Er.
              cbn [received]. rewrite Er, <- Hresp. exact Ec.
           ++ intros r [= <-]. cbn [received]. now rewrite Er, <- Hresp.
        -- assert (Hi : stops_at recv i = false).
           { unfold stops_at. rewrite Er. cbn [received].
             rewrite Er, <- Hresp. exact Ec. }
           destruct (IH (S i) (response ++ b :: chunk)) as (H1 & H2 & H3 & H4 & H5).
           { cbn [received]. now rewrite Er, <- Hresp. }
           { intros k Hk. destruct (Nat.eq_dec k i) as [->|]; [exact Hi|].
             apply Hprev. lia. }
           repeat split; try lia; try assumption.
           intros Hlt. destruct n as [|n']; [cbn in *; lia|].
           apply H3. specialize (H4 ltac:(lia)). lia.
    + cbn [fst snd]. repeat split; try lia; try exact Hstop.
      * intros _. rewrite Hlast. unfold stops_at. now rewrite Er.
      * intros r [= <-]. cbn [received]. rewrite Er, app_nil_r. exact Hresp.
    + cbn [fst snd]. repeat split; try lia; try exact Hstop.
      * intros _. rewrite Hlast. unfold stops_at. now rewrite Er.
      * intros r [=].
Qed.

Lemma len_app (a b : list byte) : len (a ++ b) = len a + len b.
Proof. unfold len. rewrite length_app. lia. Qed.

(** C6: whatever the peer does, the read loop makes between 1 and 100 reads;
    it makes a further read only when the reads so far gave no reason to
    stop (no marker in the buffer, at most 50,000 bytes, no empty read, no
    timeout), and stops at the first read that gives one; the buffer it
    returns is what was read, at most 51,024 bytes when each read delivers
    at most the 1,024 bytes asked for. *)
Theorem read_loop_bounded :
  (1 <= snd (read_loop recv 100 0 []) <= 100)%nat
  /\ (forall k, (S k < snd (read_loop recv 100 0 []))%nat ->
       stops_at recv k = false)
  /\ ((snd (read_loop recv 100 0 []) < 100)%nat ->
      stops_at recv (snd (read_loop recv 100 0 []) - 1) = true)
  /\ (forall response,
       fst (read_loop recv 100 0 []) = Ok response ->
       response = received recv (snd (read_loop recv 100 0 []))
       /\ ((forall i c, recv i = Chunk c -> len c <= 1024) ->
           len response <= 51024)).
Proof.
  destruct (read_loop_inv 100 0%nat []) as (H1 & H2 & H3 & H4 & H5);
    [reflexivity | intros k Hk; lia |].
  specialize (H4 ltac:(lia)).
  split; [lia|]. split; [exact H2|]. split; [intros Hlt; apply H3; lia|].
  intros response Hr. specialize (H5 response Hr). split; [exact H5|].
  intros Hchunk. subst response.
  set (reads := snd (read_loop recv 100 0 [])) in *.
  destruct reads as [|k]; [lia|]. cbn [received]. rewrite len_app.
  assert (Hprefix : len (received recv k) <= 50000).
  { destruct k as [|j]; [unfold len; cbn [received length]; lia|].
    destruct (stops_at_false j (H2 j ltac:(lia))) as (c & Ec & _ & _ & Hl).
    cbn [received]. now rewrite Ec. }
  destruct (recv k) as [c| |] eqn:Ek.
  - specialize (Hchunk k c Ek). lia.
  - unfold len at 2. cbn [length]. lia.
  - unfold len at 2. cbn [length]. lia.
Qed.

End ReadLoopFacts.

Section GetContainersFacts.
Import Docker PyObj.

Variable json_loads : list byte -> result json.

(** The loop only ever appends to the list it was given. *)
Lemma map_containers_extends data : forall containers,
  exists added, fst (map_containers data containers) = containers ++ added.
Proof.
  induction data as [|c data IH]; intros containers; cbn [map_containers].
  - exists []. now rewrite app_nil_r.
  - destruct (map_container c) as [[s|]|e].
    + destruct (IH (containers ++ [s])) as (added & ->).
      exists (s :: added). now rewrite <- app_assoc.
    + apply IH.
    + exists []. now rewrite app_nil_r.
Qed.

(** A failure of connect, send, read, header split, bracket extraction or
    JSON parse leaves the list empty: a non-empty result has gone through
    all of them and comes from the mapping loop. *)
Lemma get_containers_nonempty sock c cs :
  get_containers json_loads sock = c :: cs ->
  exists response headers body json_str data items,
    fst (read_loop (recv sock) 100 0 []) = Ok response
    /\ split_headers response = Some (headers, body)
    /\ extract_json body = Some json_str
    /\ json_loads json_str = Ok data
    /\ iterate data = Ok items
    /\ fst (map_containers items []) = c :: cs.
Proof.
  unfold get_containers, get_containers_body.
  destruct (connect sock); [|discriminate].
  destruct (sendall sock); [|discriminate].
  destruct (fst (read_loop (recv sock) 100 0 [])) as [response|] eqn:Er; [|discriminate].
  destruct (split_headers response) as [[headers body]|] eqn:Es; [|discriminate].
  destruct (extract_json body) as [json_str|] eqn:Ej; [|discriminate].
  destruct (json_loads json_str) as [data|] eqn:El; [|discriminate].
  destruct (iterate data) as [items|] eqn:Ei; [|discriminate].
  intros H. exists response, headers, body, json_str, data, items.
  repeat split; assumption.
Qed.

(** When no element fails to map, every element with a name is reported. *)
Lemma map_containers_ok data : forall containers,
  snd (map_containers data containers) = Ok tt ->
  Forall (fun c => exists r, map_container c = Ok r) data.
Proof.
  induction data as [|c data IH]; intros containers; cbn [map_containers].
  - constructor.
  - destruct (map_container c) as [[s|]|e] eqn:E; cbn [snd].
    + intros H. constructor; [eauto | apply (IH _ H)].
    + intros H. constructor; [eauto | apply (IH _ H)].
    + discriminate.
Qed.

(** C1, on the reply [[{..web..}, {"Names": [7]}]]: the first element is
    mapped and appended, the second raises [AttributeError] at
    [names[0].lstrip], and the function returns the list as it stands, one
    summary long, where the claim asks for the empty list. *)
Theorem get_containers_partial_list :
  json_loads reply_payload = Ok reply_data ->
  snd (get_containers_body json_loads peer) = Raise AttributeError
  /\ get_containers json_loads peer
     = [ {| name := "web"; status := JStr "running"; image := JStr "nginx" |} ].
Proof.
  intros Hloads. unfold get_containers, get_containers_body.
  cbn [connect sendall recv peer].
  replace (fst (read_loop (fun i => match i with O => Chunk reply | _ => Chunk [] end)
                          100 0 []))
    with (Ok (A := list byte) reply) by (vm_compute; reflexivity).
  replace (split_headers reply)
    with (Some (bytes_of "HTTP/1.1 200 OK", reply_payload))
    by (vm_compute; reflexivity).
  replace (extract_json reply_payload) with (Some reply_payload)
    by (vm_compute; reflexivity).
  rewrite Hloads. vm_compute. split; reflexivity.
Qed.

End GetContainersFacts.

Lemma get_containers_partial_list_witness :
  Docker.get_containers (fun _ => Ok Docker.reply_data) Docker.peer
  = [ {| Docker.name := "web"; Docker.status := JStr "running";
         Docker.image := JStr "nginx" |} ].
Proof.
  apply (get_containers_partial_list (fun _ => Ok Docker.reply_data)).
  reflexivity.
Defined.

Lemma read_loop_bounded_witness :
  (1 <= snd (Docker.read_loop (fun _ => Docker.Chunk [x41]) 100 0 []) <= 100)%nat.
Proof. apply (read_loop_bounded (fun _ => Docker.Chunk [x41])). Defined.

(** ** Static host information and the snapshot *)

Section DictFacts.
Import PyObj.

Lemma dict_lookup_set d k v k' :
  dict_lookup (dict_set d k v) k'
  = if String.eqb k k' then Some v else dict_lookup d k'.
Proof.
  induction d as [|[k0 v0] d IH]; cbn [dict_set dict_lookup].
  - reflexivity.
  - destruct (String.eqb_spec k0 k) as [->|Hne]; cbn [dict_lookup].
    + destruct (String.eqb k k'); reflexivity.
    + rewrite IH. destruct (String.eqb_spec k0 k') as [->|]; [|reflexivity].
      destruct (String.eqb_spec k k'); [congruence | reflexivity].
Qed.

Lemma dict_lookup_set_if b d k v k' :
  dict_lookup (Orchestrator.set_if b d k v) k'
  = if b && String.eqb k k' then Some v else dict_lookup d k'.
Proof.
  unfold Orchestrator.set_if. destruct b; [apply dict_lookup_set | reflexivity].
Qed.

End DictFacts.

Section StaticInfoFacts.
Import PyObj StaticInfo.

Lemma scan_cpuinfo_other f : forall info k,
  k <> "cpu_model" ->
  dict_lookup (fst (scan_cpuinfo f info)) k = dict_lookup info k.
Proof.
  induction f as [|line rest IH|e]; intros info k Hk; cbn [scan_cpuinfo];
    try reflexivity.
  destruct (PyStr.startswith "model name" line); [|now apply IH].
  destruct (PyStr.split1_second ":" line); cbn [fst]; [|reflexivity].
  rewrite dict_lookup_set.
  destruct (String.eqb_spec "cpu_model" k); [congruence | reflexivity].
Qed.

Lemma scan_cpuinfo_model f : forall info,
  dict_lookup info "cpu_model" <> None ->
  dict_lookup (fst (scan_cpuinfo f info)) "cpu_model" <> None.
Proof.
  induction f as [|line rest IH|e]; intros info H; cbn [scan_cpuinfo];
    try exact H.
  destruct (PyStr.startswith "model name" line); [|now apply IH].
  destruct (PyStr.split1_second ":" line); cbn [fst]; [|exact H].
  rewrite dict_lookup_set. cbn. discriminate.
Qed.

(** A file read to its end without a [PRETTY_NAME=] line leaves [info]
    as it was and raises nothing: the [except] branch that would set the
    default is not taken. *)
Lemma scan_os_release_no_match f : forall info,
  no_pretty_name f = true -> scan_os_release f info = (info, Ok tt).
Proof.
  induction f as [|line rest IH|e]; intros info H; cbn in H |- *;
    [reflexivity | | discriminate].
  apply andb_prop in H. destruct H as [H1 H2].
  apply negb_true_iff in H1. rewrite H1. now apply IH.
Qed.

Lemma scan_os_release_other f : forall info k,
  k <> "os" ->
  dict_lookup (fst (scan_os_release f info)) k = dict_lookup info k.
Proof.
  induction f as [|line rest IH|e]; intros info k Hk; cbn [scan_os_release];
    try reflexivity.
  destruct (PyStr.startswith "PRETTY_NAME=" line); [|now apply IH].
  destruct (PyStr.split1_second "=" line); cbn [fst]; [|reflexivity].
  rewrite dict_lookup_set.
  destruct (String.eqb_spec "os" k); [congruence | reflexivity].
Qed.

Lemma get_static_info_other h k :
  k <> "os" -> k <> "cpu_model" ->
  dict_lookup (get_static_info h) k
  = dict_lookup [ ("hostname", JStr (hostname h)); ("arch", JStr (machine h));
                  ("cpu_model", JStr "unknown"); ("cpu_count", JInt (cpu_count h));
                  ("page_size", JInt (page_size h)) ] k.
Proof.
  intros Hos Hcm. unfold get_static_info.
  match goal with |- context [scan_os_release ?f ?i] =>
    pose proof (scan_os_release_other f i k Hos) as H;
    destruct (scan_os_release f i) as [info [u|e]] end; cbn [fst] in H.
  - rewrite H. now apply scan_cpuinfo_other.
  - rewrite dict_lookup_set.
    destruct (String.eqb_spec "os" k); [congruence|].
    rewrite H. now apply scan_cpuinfo_other.
Qed.

Lemma get_static_info_no_os h :
  no_pretty_name (os_release h) = true ->
  dict_lookup (get_static_info h) "os" = None.
Proof.
  intros H. unfold get_static_info.
  rewrite (scan_os_release_no_match _ _ H).
  rewrite scan_cpuinfo_other by discriminate. reflexivity.
Qed.

End StaticInfoFacts.

Section OrchestratorFacts.
Import PyObj StaticInfo Collectors Orchestrator Http.

(** The collectors catch what their [try] blocks raise: with the five host
    facts in place, a pass yields a snapshot whatever the sources do. *)
Lemma collect_metrics_total static timestamp r :
  (forall k, In k ["hostname"; "os"; "arch"; "cpu_model"; "cpu_count"] ->
             dict_lookup static k <> None) ->
  exists metrics, collect_metrics static timestamp (run_collectors r) = Ok metrics.
Proof.
  intros Hk. unfold collect_metrics, dict_getitem.
  destruct (dict_lookup static "hostname") eqn:E1; [|exfalso; apply (Hk "hostname"); [cbn; tauto | assumption]].
  destruct (dict_lookup static "os") eqn:E2; [|exfalso; apply (Hk "os"); [cbn; tauto | assumption]].
  destruct (dict_lookup static "arch") eqn:E3; [|exfalso; apply (Hk "arch"); [cbn; tauto | assumption]].
  destruct (dict_lookup static "cpu_model") eqn:E4; [|exfalso; apply (Hk "cpu_model"); [cbn; tauto | assumption]].
  destruct (dict_lookup static "cpu_count") eqn:E5; [|exfalso; apply (Hk "cpu_count"); [cbn; tauto | assumption]].
  cbn [bind run_collectors memory]. unfold get_memory.
  destruct (memory_body r) as [[m sw]|e]; eexists; reflexivity.
Qed.

(** C2, on a host whose [/etc/os-release] is read to its end without a
    [PRETTY_NAME=] line: [get_static_info] sets no ['os'] entry (the default
    ['Linux'] is set only in the [except] branch), [collect_metrics] raises
    [KeyError] at [static['os']] whatever the collectors return, and
    [GET /metrics] ends with that exception instead of a 200 response. *)
Theorem collect_metrics_os_release h :
  no_pretty_name (os_release h) = true ->
  forall float_repr request_path timestamp r,
    nth 0 (PyStr.split "?" request_path) EmptyString = "/metrics" ->
    collect_metrics (get_static_info h) timestamp (run_collectors r) = Raise KeyError
    /\ do_GET float_repr request_path (get_static_info h) timestamp (run_collectors r)
       = Unhandled KeyError.
Proof.
  intros Hno float_repr request_path timestamp r Hpath.
  assert (Hraise : collect_metrics (get_static_info h) timestamp (run_collectors r)
                   = Raise KeyError).
  { unfold collect_metrics, dict_getitem.
    rewrite (get_static_info_no_os h Hno).
    rewrite get_static_info_other by discriminate. reflexivity. }
  split; [exact Hraise|].
  unfold do_GET. rewrite Hraise, Hpath. reflexivity.
Qed.

Lemma collect_metrics_os_release_witness :
  collect_metrics (get_static_info minimal_host) "2024-01-01T00:00:00Z"
                  (run_collectors nothing_readable) = Raise KeyError
  /\ do_GET (fun _ => "0.0") "/metrics?compact=1" (get_static_info minimal_host)
            "2024-01-01T00:00:00Z" (run_collectors nothing_readable)
     = Unhandled KeyError.
Proof.
  apply (collect_metrics_os_release minimal_host eq_refl (fun _ => "0.0")
           "/metrics?compact=1" "2024-01-01T00:00:00Z" nothing_readable eq_refl).
Defined.

(** What the four optional collectors return: [None], or a value that is
    true in a condition. *)
Lemma optional_collectors_truthy r :
  truthy (get_cpu_freq r) = match get_cpu_freq r with JNull => false | _ => true end
  /\ truthy (get_temperatures r)
     = match get_temperatures r with JNull => false | _ => true end
  /\ truthy (get_file_descriptors r)
     = match get_file_descriptors r with JNull => false | _ => true end.
Proof.
  unfold get_cpu_freq, get_temperatures, get_file_descriptors, try_except, bind.
  repeat split.
  - destruct (cpu_freq_body r) as [[[[? ?] ?]|]|]; reflexivity.
  - destruct (temps_found r); reflexivity.
  - destruct (fds_body r) as [[a m]|]; [|reflexivity]. cbn [fst snd].
    destruct (fds_percent a m); reflexivity.
Qed.

(** C8: in the snapshot of a pass, each of [cpu_freq], [temperatures],
    [file_descriptors] and [entropy] is present, with the collector's value,
    exactly when the collector returned something other than [None] (for
    [temperatures]: a non-empty list), and is absent otherwise; an entropy of
    [0] is a value and is present. *)
Theorem optional_fields static timestamp r metrics :
  collect_metrics static timestamp (run_collectors r) = Ok metrics ->
  dict_lookup metrics "cpu_freq"
  = match get_cpu_freq r with JNull => None | v => Some v end
  /\ dict_lookup metrics "temperatures"
     = match get_temperatures r with JNull => None | v => Some v end
  /\ dict_lookup metrics "file_descriptors"
     = match get_file_descriptors r with JNull => None | v => Some v end
  /\ dict_lookup metrics "entropy"
     = match get_entropy r with JNull => None | v => Some v end
  /\ (get_temperatures r <> JList [])
  /\ (entropy_body r = Ok 0 -> dict_lookup metrics "entropy" = Some (JInt 0)).
Proof.
  unfold collect_metrics, bind.
  destruct (dict_getitem static "hostname"); [|discriminate].
  destruct (dict_getitem static "os"); [|discriminate].
  destruct (dict_getitem static "arch"); [|discriminate].
  destruct (dict_getitem static "cpu_model"); [|discriminate].
  destruct (dict_getitem static "cpu_count"); [|discriminate].
  destruct (getitem _ "memory"); [|discriminate].
  destruct (getitem _ "swap"); [|discriminate].
  intros [= <-].
  destruct (optional_collectors_truthy r) as (T1 & T2 & T3).
  cbn [run_collectors cpu_freq temps fds entropy uptime cpu load filesystems
       disk_io network tcp processes containers logs].
  rewrite T1, T2, T3.
  assert (Ht : get_temperatures r <> JList []).
  { unfold get_temperatures. destruct (temps_found r); discriminate. }
  assert (He : entropy_body r = Ok 0 -> get_entropy r = JInt 0).
  { intros H. unfold get_entropy. now rewrite H. }
  assert (H4 : forall d,
    dict_lookup (set_if match get_entropy r with JNull => false | _ => true end
                        d "entropy" (get_entropy r)) "entropy"
    = match get_entropy r with JNull => dict_lookup d "entropy" | v => Some v end).
  { intros d. rewrite dict_lookup_set_if. destruct (get_entropy r); reflexivity. }
  split; [|split; [|split; [|split; [|split]]]].
  - rewrite !dict_lookup_set_if. cbn [String.eqb Ascii.eqb Bool.eqb andb].
    rewrite !andb_false_r, andb_true_r. destruct (get_cpu_freq r); reflexivity.
  - rewrite !dict_lookup_set_if. cbn [String.eqb Ascii.eqb Bool.eqb andb].
    rewrite !andb_false_r, andb_true_r. destruct (get_temperatures r); reflexivity.
  - rewrite !dict_lookup_set_if. cbn [String.eqb Ascii.eqb Bool.eqb andb].
    rewrite !andb_false_r, andb_true_r. destruct (get_file_descriptors r); reflexivity.
  - rewrite H4. destruct (get_entropy r); try reflexivity.
    rewrite !dict_lookup_set_if. cbn [String.eqb Ascii.eqb Bool.eqb andb].
    rewrite !andb_false_r. reflexivity.
  - exact Ht.
  - intros H0. rewrite H4, (He H0). reflexivity.
Qed.

Lemma optional_fields_witness :
  dict_lookup sample_metrics "cpu_freq" = None
  /\ dict_lookup sample_metrics "temperatures" = None
  /\ dict_lookup sample_metrics "file_descriptors"
     = Some (JDict [("allocated", JInt 1024); ("max", JInt 65536);
                    ("percent", JFloat 0x1.8f5c28f5c28f6p+0%float)])
  /\ dict_lookup sample_metrics "entropy" = Some (JInt 0).
Proof.
  destruct (optional_fields sample_static "2024-01-01T00:00:00Z" sample_readings
              sample_metrics eq_refl) as (H1 & H2 & H3 & H4 & _).
  split; [exact H1|]. split; [exact H2|]. split; [exact H3 | exact H4].
Defined.

End OrchestratorFacts.

(** ** The order on numbers and the sort *)

Section NumOrderFacts.
Import TopProcesses.

Lemma SFcompare_finite_swap s1 m1 e1 s2 m2 e2 :
  SFcompare (S754_finite s2 m2 e2) (S754_finite s1 m1 e1)
  = option_map CompOpp (SFcompare (S754_finite s1 m1 e1) (S754_finite s2 m2 e2)).
Proof.
  unfold SFcompare. destruct s1, s2; cbn [option_map CompOpp]; try reflexivity;
    rewrite (Z.compare_antisym e1 e2); destruct (e1 ?= e2); cbn [CompOpp];
    try reflexivity;
    rewrite (Pos.compare_cont_antisym m1 m2 Eq); reflexivity.
Qed.

Lemma finite_value_lt sx mx ex sy my ey :
  valid_binary (S754_finite sx mx ex) = true ->
  valid_binary (S754_finite sy my ey) = true ->
  SFltb (S754_finite sy my ey) (S754_finite sx mx ex) = true ->
  (if sy then Zneg my else Zpos my) * 2 ^ (ey + 1074)
  < (if sx then Zneg mx else Zpos mx) * 2 ^ (ex + 1074).
Proof.
  intros Vx Vy Hlt. pose proof (finite_lt_aligned _ _ _ _ _ _ Vx Vy Hlt) as HD.
  apply valid_finite_inv in Vx, Vy.
  destruct Vx as (Hx & _), Vy as (Hy & _).
  unfold SpecFloat.emin, emax, prec in Hx, Hy.
  set (ez := Z.min ex ey) in *.
  assert (Px : 2 ^ (ex + 1074) = 2 ^ (ex - ez) * 2 ^ (ez + 1074)).
  { rewrite <- Z.pow_add_r by lia. f_equal. lia. }
  assert (Py : 2 ^ (ey + 1074) = 2 ^ (ey - ez) * 2 ^ (ez + 1074)).
  { rewrite <- Z.pow_add_r by lia. f_equal. lia. }
  assert (P0 : 0 < 2 ^ (ez + 1074)) by (apply Z.pow_pos_nonneg; lia).
  rewrite Px, Py. unfold cond_Zopp in HD.
  change IntDef.Z.opp with Z.opp in HD.
  destruct sx, sy; change (Zneg mx) with (- Zpos mx) in *;
    change (Zneg my) with (- Zpos my) in *; nia.
Qed.

Lemma finite_compare_eq sx mx ex sy my ey :
  SFcompare (S754_finite sy my ey) (S754_finite sx mx ex) = Some Eq ->
  sx = sy /\ mx = my /\ ex = ey.
Proof.
  unfold SFcompare. destruct sx, sy; try discriminate;
    destruct (ey ?= ex) eqn:Ec; try discriminate;
    apply Z.compare_eq in Ec; subst;
    change (Pos.compare_cont Eq my mx) with (Pos.compare my mx);
    destruct (Pos.compare my mx) eqn:Ep; try discriminate;
    apply Pos.compare_eq in Ep; subst; auto.
Qed.

(** On valid floats the hardware comparison is the comparison of values. *)
Lemma SFltb_value x y :
  valid_binary x = true -> valid_binary y = true ->
  SFltb y x
  = match sf_value y, sf_value x with
    | Some vy, Some vx => ext_lt vy vx
    | _, _ => false
    end.
Proof.
  intros Vx Vy.
  destruct x as [sx|sx| |sx mx ex], y as [sy|sy| |sy my ey];
    try reflexivity; try (destruct sx; reflexivity); try (destruct sy; reflexivity);
    try (destruct sx, sy; reflexivity).
  - (* finite < zero *)
    apply valid_finite_inv in Vy. destruct Vy as (Hy & _).
    unfold SpecFloat.emin, emax, prec in Hy.
    assert (0 < 2 ^ (ey + 1074)) by (apply Z.pow_pos_nonneg; lia).
    cbn [sf_value ext_lt]. unfold SFltb, SFcompare.
    destruct sy; symmetry; [apply Z.ltb_lt | apply Z.ltb_ge]; nia.
  - (* zero < finite *)
    apply valid_finite_inv in Vx. destruct Vx as (Hx & _).
    unfold SpecFloat.emin, emax, prec in Hx.
    assert (0 < 2 ^ (ex + 1074)) by (apply Z.pow_pos_nonneg; lia).
    cbn [sf_value ext_lt]. unfold SFltb, SFcompare.
    destruct sx; symmetry; [apply Z.ltb_ge | apply Z.ltb_lt]; nia.
  - (* finite < finite *)
    cbn [sf_value ext_lt].
    destruct (SFltb (S754_finite sy my ey) (S754_finite sx mx ex)) eqn:E;
      symmetry.
    + apply Z.ltb_lt. now apply finite_value_lt.
    + apply Z.ltb_ge. unfold SFltb in E.
      destruct (SFcompare (S754_finite sy my ey) (S754_finite sx mx ex))
        as [[| |]|] eqn:Ec; try discriminate.
      * apply finite_compare_eq in Ec. destruct Ec as (-> & -> & ->). lia.
      * assert (Hs : SFltb (S754_finite sx mx ex) (S754_finite sy my ey) = true).
        { unfold SFltb. rewrite SFcompare_finite_swap, Ec. reflexivity. }
        pose proof (finite_value_lt _ _ _ _ _ _ Vy Vx Hs). lia.
Qed.

Lemma float_value_spec f : float_value f = sf_value (Prim2SF f).
Proof. reflexivity. Qed.

(** every comparison of numbers is the comparison of their values *)
Lemma num_lt_value a b :
  num_lt a b
  = match value a, value b with
    | Some va, Some vb => ext_lt va vb
    | _, _ => false
    end.
Proof.
  destruct a as [x|x], b as [y|y]; cbn [num_lt value]; try reflexivity.
  - cbn [ext_lt]. assert (0 < 2 ^ 1074) by (apply Z.pow_pos_nonneg; lia).
    destruct (Z.ltb_spec x y), (Z.ltb_spec (x * 2 ^ 1074) (y * 2 ^ 1074));
      try reflexivity; nia.
  - rewrite FloatAxioms.ltb_spec, !float_value_spec.
    apply SFltb_value; apply Prim2SF_valid.
Qed.

Lemma ext_lt_trans a b c : ext_lt a b = true -> ext_lt b c = true -> ext_lt a c = true.
Proof.
  destruct a, b, c; cbn; try discriminate; try reflexivity.
  rewrite !Z.ltb_lt. lia.
Qed.

Lemma ext_lt_asym a b : ext_lt a b = true -> ext_lt b a = false.
Proof.
  destruct a, b; cbn; try discriminate; try reflexivity.
  rewrite Z.ltb_lt, Z.ltb_ge. lia.
Qed.

Lemma num_lt_trans a b c : num_lt a b = true -> num_lt b c = true -> num_lt a c = true.
Proof.
  rewrite !num_lt_value.
  destruct (value a), (value b), (value c); try discriminate.
  apply ext_lt_trans.
Qed.

Lemma num_lt_asym a b : num_lt a b = true -> num_lt b a = false.
Proof.
  rewrite !num_lt_value.
  destruct (value a), (value b); try discriminate. apply ext_lt_asym.
Qed.

End NumOrderFacts.

Section SortFacts.
Import TopProcesses.

Context {A : Type} (key : A -> pynum).

(** [ascending a b]: [a] may stand before [b] in increasing order;
    [descending a b]: in decreasing order *)
Let ascending (a b : A) : Prop := num_lt (key b) (key a) = false.
Let descending (a b : A) : Prop := num_lt (key a) (key b) = false.

Lemma insert_In x l y : In y (insert key x l) <-> y = x \/ In y l.
Proof.
  induction l as [|z l IH]; cbn [insert].
  - cbn. intuition.
  - destruct (num_lt (key x) (key z)); cbn [In]; [intuition|].
    rewrite IH. intuition.
Qed.

Lemma insert_sorted x l :
  StronglySorted ascending l -> StronglySorted ascending (insert key x l).
Proof.
  induction l as [|y l IH]; intros Hs; cbn [insert].
  - repeat constructor.
  - apply StronglySorted_inv in Hs. destruct Hs as [Hs Hy].
    destruct (num_lt (key x) (key y)) eqn:E.
    + constructor; [constructor; assumption|].
      constructor; [now apply num_lt_asym|].
      rewrite List.Forall_forall in *. intros z Hz. specialize (Hy z Hz).
      unfold ascending in *.
      destruct (num_lt (key z) (key x)) eqn:Ez; [|reflexivity].
      rewrite (num_lt_trans _ _ _ Ez E) in Hy. discriminate.
    + constructor; [now apply IH|].
      rewrite List.Forall_forall in *. intros z Hz.
      apply insert_In in Hz. destruct Hz as [->|Hz]; [exact E | now apply Hy].
Qed.

Lemma sort_fold_sorted l : forall sorted,
  StronglySorted ascending sorted ->
  StronglySorted ascending (fold_left (fun sorted x => insert key x sorted) l sorted).
Proof.
  induction l as [|x l IH]; intros sorted Hs; cbn [fold_left];
    [assumption | now apply IH, insert_sorted].
Qed.

Lemma sort_fold_In l : forall sorted y,
  In y (fold_left (fun sorted x => insert key x sorted) l sorted)
  <-> In y l \/ In y sorted.
Proof.
  induction l as [|x l IH]; intros sorted y; cbn [fold_left In]; [intuition|].
  rewrite IH, insert_In. intuition.
Qed.

Lemma sorted_app (R : A -> A -> Prop) l1 l2 :
  StronglySorted R l1 -> StronglySorted R l2 ->
  (forall a b, In a l1 -> In b l2 -> R a b) ->
  StronglySorted R (l1 ++ l2).
Proof.
  induction l1 as [|a l1 IH]; intros H1 H2 H12; cbn [app]; [assumption|].
  apply StronglySorted_inv in H1. destruct H1 as [H1 Ha].
  constructor.
  - apply IH; auto. intros x y Hx Hy. apply H12; [now right | assumption].
  - rewrite List.Forall_forall in *. intros z Hz. apply in_app_or in Hz.
    destruct Hz as [Hz|Hz]; [now apply Ha | apply H12; [now left | assumption]].
Qed.

Lemma sorted_rev (R : A -> A -> Prop) l :
  StronglySorted R l -> StronglySorted (fun a b => R b a) (List.rev l).
Proof.
  induction l as [|a l IH]; intros Hs; cbn [List.rev]; [constructor|].
  apply StronglySorted_inv in Hs. destruct Hs as [Hs Ha].
  apply sorted_app; [now apply IH | repeat constructor |].
  intros x y Hx [<-|[]]. rewrite List.Forall_forall in Ha.
  apply Ha. now apply in_rev.
Qed.

Lemma In_firstn n (l : list A) y : In y (firstn n l) -> In y l.
Proof.
  intros H. rewrite <- (firstn_skipn n l). apply in_or_app. now left.
Qed.

Lemma sorted_firstn (R : A -> A -> Prop) n : forall l,
  StronglySorted R l -> StronglySorted R (firstn n l).
Proof.
  induction n as [|n IH]; intros [|a l] Hs; cbn [firstn]; try constructor.
  - apply IH. now apply StronglySorted_inv in Hs.
  - apply StronglySorted_inv in Hs. destruct Hs as [_ Ha].
    rewrite List.Forall_forall in *. intros z Hz. apply Ha.
    eapply In_firstn; eassumption.
Qed.

(** [list.sort(key=..., reverse=True)] leaves no element before a greater one. *)
Lemma sort_reverse_sorted l : StronglySorted descending (sort_reverse key l).
Proof.
  unfold sort_reverse, sort.
  apply (sorted_rev ascending). apply sort_fold_sorted. constructor.
Qed.

Lemma sort_reverse_In (l : list A) (y : A) : In y (sort_reverse key l) <-> In y l.
Proof.
  unfold sort_reverse, sort. rewrite <- in_rev, sort_fold_In, <- in_rev.
  cbn. intuition.
Qed.

Lemma slice_to_sorted (R : A -> A -> Prop) (l : list A) n :
  StronglySorted R l -> StronglySorted R (slice_to l n).
Proof. unfold slice_to. destruct (0 <=? n); apply sorted_firstn. Qed.

Lemma slice_to_In (l : list A) n (y : A) : In y (slice_to l n) -> In y l.
Proof. unfold slice_to. destruct (0 <=? n); apply In_firstn. Qed.

Lemma slice_to_length (l : list A) n :
  0 <= n -> Z.of_nat (length (slice_to l n)) <= n.
Proof.
  intros Hn. unfold slice_to. apply Z.leb_le in Hn. rewrite Hn.
  pose proof (firstn_le_length (Z.to_nat n) l). apply Z.leb_le in Hn. lia.
Qed.

End SortFacts.

(** ** The top processes *)

Section TopProcessesFacts.
Import PyNum TopProcesses.

Lemma value_float_some (f : float) :
  Prim2SF f <> S754_nan -> value (PFloat f) <> None.
Proof.
  cbn [value]. unfold float_value. destruct (Prim2SF f); cbn; congruence.
Qed.

Lemma cpu_percent_value uptime clock_ticks f c :
  cpu_percent uptime clock_ticks f = Ok c -> value c <> None.
Proof.
  unfold cpu_percent, bind.
  destruct (int_truediv (starttime f) clock_ticks) as [q|]; [|discriminate].
  destruct (0 <? uptime - q)%float eqn:Hpos; [|intros [= <-]; discriminate].
  destruct (int_truediv (utime f + stime f) clock_ticks) as [t|] eqn:Et;
    [|discriminate].
  unfold float_truediv. rewrite (float_pos_ne_zero _ Hpos). intros [= <-].
  apply value_float_some, float_mul100_not_nan, float_div_not_nan;
    [now apply (int_truediv_finite _ _ _ Et) | exact Hpos].
Qed.

Lemma round1_value c r : value c <> None -> round1 c = Ok r -> value r <> None.
Proof.
  destruct c as [z|f]; cbn [round1]; [intros _ [= <-]; discriminate|].
  intros Hv. unfold bind.
  destruct (float_round f 1) as [x|] eqn:E; [|discriminate]. intros [= <-].
  apply value_float_some. apply (float_round_not_nan f x); [|exact E].
  intros Hn. apply Hv. cbn [value]. unfold float_value. now rewrite Hn.
Qed.

Lemma read_process_value uptime page_size clock_ticks d p :
  read_process uptime page_size clock_ticks d = Ok p -> value (cpu p) <> None.
Proof.
  unfold read_process, bind.
  destruct (stat d) as [f|]; [|discriminate].
  destruct (cpu_percent uptime clock_ticks f) as [c|] eqn:Ec; [|discriminate].
  destruct (round1 c) as [r|] eqn:Er; [|discriminate].
  intros [= <-]. cbn [cpu].
  apply (round1_value c r); [now apply (cpu_percent_value _ _ _ _ Ec) | exact Er].
Qed.

Lemma scan_values uptime page_size clock_ticks dirs : forall proc_data,
  Forall (fun p => value (cpu p) <> None) proc_data ->
  Forall (fun p => value (cpu p) <> None)
         (scan uptime page_size clock_ticks dirs proc_data).
Proof.
  induction dirs as [|d dirs IH]; intros proc_data H; cbn [scan]; [assumption|].
  destruct (read_process uptime page_size clock_ticks d) as [p|] eqn:E;
    [|now apply IH].
  apply IH. apply Forall_app. split; [assumption|].
  constructor; [now apply (read_process_value _ _ _ _ _ E) | constructor].
Qed.

(** C10, [n] being a count ([n >= 0]): [get_top_processes(n)] returns at
    most [n] entries (10 with the default argument); every [cpu] in the
    result is a number other than NaN and no entry stands before one with a
    greater [cpu]; and when [/proc/uptime] cannot be read the result is the
    empty list. *)
Theorem get_top_processes_sorted n page_size clock_ticks uptime listing :
  (0 <= n ->
   Z.of_nat (length (get_top_processes n page_size clock_ticks uptime listing)) <= n)
  /\ Z.of_nat (length (get_top_processes 10 page_size clock_ticks uptime listing)) <= 10
  /\ StronglySorted (fun a b => num_lt (cpu a) (cpu b) = false)
       (get_top_processes n page_size clock_ticks uptime listing)
  /\ Forall (fun p => value (cpu p) <> None)
       (get_top_processes n page_size clock_ticks uptime listing)
  /\ (forall e, get_top_processes n page_size clock_ticks (Raise e) listing = []).
Proof.
  assert (Hlen : forall k, 0 <= k ->
    Z.of_nat (length (get_top_processes k page_size clock_ticks uptime listing)) <= k).
  { intros k Hk. unfold get_top_processes.
    destruct uptime as [u|]; [|cbn; lia].
    destruct listing as [pids|]; [|cbn; lia].
    now apply slice_to_length. }
  split; [apply Hlen|]. split; [apply Hlen; lia|].
  unfold get_top_processes. split; [|split; [|reflexivity]].
  - destruct uptime as [u|]; [|constructor].
    destruct listing as [pids|]; [|constructor].
    apply slice_to_sorted. apply sort_reverse_sorted.
  - destruct uptime as [u|]; [|constructor].
    destruct listing as [pids|]; [|constructor].
    apply List.Forall_forall. intros p Hp.
    apply slice_to_In, sort_reverse_In in Hp.
    pose proof (scan_values u page_size clock_ticks pids [] (List.Forall_nil _)) as H.
    rewrite List.Forall_forall in H. now apply H.
Qed.

Lemma get_top_processes_sorted_witness :
  Z.of_nat (length (get_top_processes 1 4096 100 (Ok 1000%float) (Ok two_procs))) < 2.
Proof.
  apply (Z.le_lt_trans _ 1); [|reflexivity].
  apply (get_top_processes_sorted 1 4096 100 (Ok 1000%float) (Ok two_procs)).
  discriminate.
Defined.

End TopProcessesFacts.

(** ** The two serializations of a snapshot *)

Section LexFacts.
Import JsonDumps.

Local Open Scope string_scope.

Lemma str_app_cons (x : ascii) (a b : string) : String x a ++ b = String x (a ++ b).
Proof. reflexivity. Qed.

Lemma str_app_nil_l (b : string) : "" ++ b = b.
Proof. reflexivity. Qed.

Lemma str_app_assoc (a b c : string) : (a ++ b) ++ c = a ++ (b ++ c).
Proof.
  induction a as [|x a IH]; [reflexivity|]. rewrite !str_app_cons. now f_equal.
Qed.

Lemma str_app_nil_r (a : string) : a ++ "" = a.
Proof.
  induction a as [|x a IH]; [reflexivity|]. rewrite str_app_cons. now f_equal.
Qed.

Ltac str_norm :=
  unfold add_char;
  repeat (rewrite str_app_assoc || rewrite str_app_cons || rewrite str_app_nil_l).


Lemma feed_none s : feed s None = None.
Proof. induction s as [|c s IH]; cbn; [reflexivity | exact IH]. Qed.

Lemma feed_app a b st : feed (a ++ b) st = feed b (feed a st).
Proof.
  revert st. induction a as [|c a IH]; intros st; [reflexivity|].
  rewrite str_app_cons. cbn [feed]. apply IH.
Qed.

Lemma all_chars_app p a b :
  all_chars p (a ++ b) = all_chars p a && all_chars p b.
Proof.
  induction a as [|c a IH]; [reflexivity|].
  rewrite str_app_cons. cbn [all_chars]. now rewrite IH, andb_assoc.
Qed.

(** *** Strings *)

Lemma step_plain raw ts c :
  plain_char c = true ->
  step (MStr raw, ts) c = Some (MStr (add_char raw c), ts).
Proof.
  unfold plain_char. intros H.
  apply andb_prop in H. destruct H as [H H3].
  apply andb_prop in H. destruct H as [H1 H2].
  apply negb_true_iff in H1, H2, H3. cbn [step]. now rewrite H1, H2, H3.
Qed.

Lemma feed_cons c s st : feed (String c s) (Some st) = feed s (step st c).
Proof. reflexivity. Qed.

Lemma step_esc raw ts c : step (MEsc raw, ts) c = Some (MStr (add_char raw c), ts).
Proof. reflexivity. Qed.

Lemma step_backslash raw ts :
  step (MStr raw, ts) backslash = Some (MEsc (add_char raw backslash), ts).
Proof. reflexivity. Qed.

Lemma hex_digit_plain k : (k < 16)%N -> plain_char (hex_digit k) = true.
Proof.
  intros Hk.
  assert (H : forallb (fun n => plain_char (hex_digit (N.of_nat n))) (seq 0 16) = true)
    by (vm_compute; reflexivity).
  rewrite forallb_forall in H. specialize (H (N.to_nat k)).
  rewrite N2Nat.id in H. apply H. apply in_seq. lia.
Qed.

(** an escaped character is read back, inside a string, as it was written *)
Lemma feed_escape_char c raw ts :
  feed (escape_char c) (Some (MStr raw, ts))
  = Some (MStr (raw ++ escape_char c), ts).
Proof.
  assert (Hshort : forall x, feed (String backslash (String x "")) (Some (MStr raw, ts))
                             = Some (MStr (raw ++ String backslash (String x "")), ts)).
  { intros x. rewrite feed_cons, step_backslash, feed_cons, step_esc.
    cbn [feed]. str_norm. reflexivity. }
  unfold escape_char.
  destruct (Ascii.eqb c dquote) eqn:E1; [apply Hshort|].
  destruct (Ascii.eqb c backslash) eqn:E2; [apply Hshort|].
  destruct (N_of_ascii c =? 10)%N; [apply Hshort|].
  destruct (N_of_ascii c =? 13)%N; [apply Hshort|].
  destruct (N_of_ascii c =? 9)%N; [apply Hshort|].
  destruct (N_of_ascii c =? 8)%N; [apply Hshort|].
  destruct (N_of_ascii c =? 12)%N; [apply Hshort|].
  destruct ((32 <=? N_of_ascii c) && (N_of_ascii c <=? 126))%N eqn:E3.
  - apply andb_prop in E3. destruct E3 as [E3 _]. apply N.leb_le in E3.
    rewrite feed_cons, step_plain.
    + reflexivity.
    + unfold plain_char. rewrite E1, E2. cbn.
      apply negb_true_iff, N.ltb_ge. exact E3.
  - assert (Hn : (N_of_ascii c < 256)%N) by apply N_ascii_bounded.
    assert (H1 : plain_char (hex_digit (N_of_ascii c / 16)) = true).
    { apply hex_digit_plain. apply N.Div0.div_lt_upper_bound. exact Hn. }
    assert (H2 : plain_char (hex_digit (N_of_ascii c mod 16)) = true).
    { apply hex_digit_plain. apply N.mod_lt. discriminate. }
    rewrite feed_cons, step_backslash, feed_cons, step_esc.
    rewrite feed_cons, (step_plain _ _ "0") by reflexivity.
    rewrite feed_cons, (step_plain _ _ "0") by reflexivity.
    rewrite feed_cons, (step_plain _ _ _ H1), feed_cons, (step_plain _ _ _ H2).
    cbn [feed]. str_norm. reflexivity.
Qed.

Lemma feed_escape s : forall raw ts,
  feed (escape s) (Some (MStr raw, ts)) = Some (MStr (raw ++ escape s), ts).
Proof.
  induction s as [|c s IH]; intros raw ts; cbn [escape].
  - cbn [feed]. now rewrite str_app_nil_r.
  - rewrite feed_app, feed_escape_char, IH. now rewrite str_app_assoc.
Qed.

Lemma feed_encode_str s ts :
  feed (encode_str s) (Some (MOut, ts))
  = Some (MOut, (ts ++ [TString (escape s)])%list).
Proof.
  unfold encode_str. cbn [feed]. change (step (MOut, ts) dquote)
    with (Some (MStr "", ts)).
  rewrite feed_app, feed_escape. reflexivity.
Qed.

(** *** Atoms *)

Lemma feed_atom_chars s : forall text ts,
  all_chars is_atom_char s = true ->
  feed s (Some (MAtom text, ts)) = Some (MAtom (text ++ s), ts).
Proof.
  induction s as [|c s IH]; intros text ts H; cbn [all_chars feed step] in H |- *.
  - now rewrite str_app_nil_r.
  - apply andb_prop in H. destruct H as [Hc Hs].
    unfold is_atom_char in Hc.
    apply andb_prop in Hc. destruct Hc as [Hc H3].
    apply andb_prop in Hc. destruct Hc as [H1 H2].
    apply negb_true_iff in H1, H3. rewrite H1, H3.
    destruct (structural c); [discriminate|].
    rewrite IH by assumption. str_norm. reflexivity.
Qed.

Lemma feed_atom s ts :
  atom_text s = true -> feed s (Some (MOut, ts)) = Some (MAtom s, ts).
Proof.
  destruct s as [|c s]; [discriminate|]. cbn [atom_text all_chars].
  intros H. apply andb_prop in H. destruct H as [Hc Hs].
  unfold is_atom_char in Hc.
  apply andb_prop in Hc. destruct Hc as [Hc H3].
  apply andb_prop in Hc. destruct Hc as [H1 H2].
  apply negb_true_iff in H1, H3. cbn [feed step]. rewrite H1, H3.
  destruct (structural c); [discriminate|].
  now rewrite feed_atom_chars.
Qed.

Lemma uint_atom_chars d : all_chars is_atom_char (NilEmpty.string_of_uint d) = true.
Proof. induction d; cbn [NilEmpty.string_of_uint all_chars]; try reflexivity; exact IHd. Qed.

Lemma int_repr_atom z : atom_text (int_repr z) = true.
Proof.
  unfold int_repr, NilZero.string_of_int, NilZero.string_of_uint.
  destruct (Z.to_int z) as [d|d]; destruct d; try reflexivity;
    cbn [atom_text NilEmpty.string_of_uint all_chars append];
    try apply uint_atom_chars;
    try (change (is_atom_char "-") with true; cbn [andb]; apply uint_atom_chars).
Qed.

(** *** Whitespace and structural characters *)

Lemma reads_out ts : reads (Some (MOut, ts)) ts.
Proof. exists (MOut, ts). split; reflexivity. Qed.

Lemma reads_atom s ts :
  atom_text s = true ->
  reads (feed s (Some (MOut, ts))) (ts ++ [TAtom s])%list.
Proof.
  intros H. rewrite (feed_atom s ts H). exists (MAtom s, ts). split; reflexivity.
Qed.

Lemma feed_ws_out s : forall ts,
  all_chars is_ws s = true -> feed s (Some (MOut, ts)) = Some (MOut, ts).
Proof.
  induction s as [|c s IH]; intros ts H; [reflexivity|].
  cbn [all_chars] in H. apply andb_prop in H. destruct H as [Hc Hs].
  rewrite feed_cons. cbn [step]. rewrite Hc. now apply IH.
Qed.

Lemma reads_ws s st ts :
  all_chars is_ws s = true -> reads st ts -> reads (feed s st) ts.
Proof.
  intros Hs (st' & -> & Hst). destruct s as [|c s]; [now exists st'|].
  cbn [all_chars] in Hs. apply andb_prop in Hs. destruct Hs as [Hc Hs].
  rewrite feed_cons. destruct st' as [[ |text|raw|raw] ts0]; try discriminate;
    cbn [step settle] in *; rewrite Hc; injection Hst as <-;
    rewrite feed_ws_out by assumption; apply reads_out.
Qed.

Lemma structural_not_ws c t : structural c = Some t -> is_ws c = false.
Proof.
  unfold structural.
  repeat match goal with
         | |- context [Ascii.eqb c ?x] =>
             destruct (Ascii.eqb_spec c x) as [->|_]; [reflexivity|]
         end.
  discriminate.
Qed.

Lemma reads_struct c t st ts :
  structural c = Some t -> reads st ts ->
  feed (String c "") st = Some (MOut, (ts ++ [t])%list).
Proof.
  intros Hc (st' & -> & Hst). rewrite feed_cons. cbn [feed].
  pose proof (structural_not_ws c t Hc) as Hw.
  destruct st' as [[ |text|raw|raw] ts0]; try discriminate;
    cbn [step settle] in *; rewrite Hw, Hc; injection Hst as <-;
    [reflexivity | now rewrite <- app_assoc].
Qed.

Lemma spaces_ws n : all_chars is_ws (spaces n) = true.
Proof. induction n as [|n IH]; [reflexivity | exact IH]. Qed.

Lemma newline_indent_ws indent level :
  all_chars is_ws (newline_indent indent level) = true.
Proof. destruct indent as [n|]; [apply spaces_ws | reflexivity]. Qed.

End LexFacts.

Section EncodeFacts.
Import JsonDumps.

Local Open Scope string_scope.

(** induction on a value, with the elements of a list and the values of a
    dictionary as premises *)
Lemma json_nested_ind (P : json -> Prop) :
  P JNull -> (forall b, P (JBool b)) -> (forall z, P (JInt z)) ->
  (forall f, P (JFloat f)) -> (forall s, P (JStr s)) ->
  (forall l, Forall P l -> P (JList l)) ->
  (forall d, Forall (fun kx => P (snd kx)) d -> P (JDict d)) ->
  forall v, P v.
Proof.
  intros Hnull Hbool Hint Hfloat Hstr Hlist Hdict.
  fix IH 1. intros [ |b|z|f|s|l|d].
  - exact Hnull.
  - apply Hbool.
  - apply Hint.
  - apply Hfloat.
  - apply Hstr.
  - apply Hlist. induction l as [|x l IHl]; constructor; [apply IH | exact IHl].
  - apply Hdict. induction d as [|[k x] d IHd]; constructor; [apply IH | exact IHd].
Qed.

Variable float_repr : float -> string.
Hypothesis float_repr_atom : forall f, atom_text (float_repr f) = true.

Lemma floatstr_atom f : atom_text (floatstr float_repr f) = true.
Proof.
  unfold floatstr.
  destruct (negb (f =? f)%float); [reflexivity|].
  destruct (f =? infinity)%float; [reflexivity|].
  destruct (f =? neg_infinity)%float; [reflexivity | apply float_repr_atom].
Qed.

(** the encoder is run with [','] between items and, after a key, [':']
    followed by whitespace (none, or one space) *)
Variable indent : option nat.
Variable key_ws : string.
Hypothesis key_ws_ws : all_chars is_ws key_ws = true.

Let enc := encode float_repr indent "," (String ":" key_ws).
Let nl := newline_indent indent.

Lemma enc_list x l level :
  enc (JList (x :: l)) level
  = "[" ++ nl (S level)
    ++ join ("," ++ nl (S level)) (map (fun x => enc x (S level)) (x :: l))
    ++ nl level ++ "]".
Proof. reflexivity. Qed.

Lemma enc_dict kx d level :
  enc (JDict (kx :: d)) level
  = "{" ++ nl (S level)
    ++ join ("," ++ nl (S level))
         (map (fun kx => encode_str (fst kx) ++ String ":" key_ws
                         ++ enc (snd kx) (S level)) (kx :: d))
    ++ nl level ++ "}".
Proof. reflexivity. Qed.

(** items written one after the other, separated by [sep], read as their
    tokens separated by commas *)
Lemma feed_join {A : Type} (write : A -> string) (toks : A -> list token)
    (level : nat) (items : list A) :
  Forall (fun x => forall ts,
            reads (feed (write x) (Some (MOut, ts))) (ts ++ toks x)%list) items ->
  forall ts,
    reads (feed (join ("," ++ nl level) (map write items)) (Some (MOut, ts)))
          (ts ++ join_tokens (map toks items))%list.
Proof.
  induction items as [|x items IH]; intros H ts.
  - cbn [map join join_tokens feed]. rewrite app_nil_r. apply reads_out.
  - apply Forall_cons_iff in H. destruct H as [Hx Hitems].
    destruct items as [|y items].
    + cbn [map join join_tokens]. apply Hx.
    + change (join ("," ++ nl level) (map write (x :: y :: items)))
        with (write x ++ ("," ++ nl level) ++ join ("," ++ nl level) (map write (y :: items))).
      change (join_tokens (map toks (x :: y :: items)))
        with (toks x ++ TComma :: join_tokens (map toks (y :: items)))%list.
      rewrite !feed_app.
      rewrite (reads_struct "," TComma _ _ eq_refl (Hx ts)).
      rewrite feed_ws_out by apply newline_indent_ws.
      specialize (IH Hitems (ts ++ toks x ++ [TComma])%list).
      replace (ts ++ toks x ++ TComma :: join_tokens (map toks (y :: items)))%list
        with ((ts ++ toks x ++ [TComma]) ++ join_tokens (map toks (y :: items)))%list
        by (rewrite <- !app_assoc; reflexivity).
      rewrite <- app_assoc. exact IH.
Qed.

(** the text written for a value reads as the tokens of the value *)
Lemma feed_enc v : forall level ts,
  reads (feed (enc v level) (Some (MOut, ts))) (ts ++ tokens_of float_repr v)%list.
Proof.
  induction v as [ |b|z|f|s|l IHl|d IHd] using json_nested_ind; intros level ts.
  - apply (reads_atom "null"). reflexivity.
  - destruct b; [apply (reads_atom "true") | apply (reads_atom "false")]; reflexivity.
  - apply reads_atom, int_repr_atom.
  - apply reads_atom, floatstr_atom.
  - change (enc (JStr s) level) with (encode_str s).
    rewrite feed_encode_str. apply reads_out.
  - destruct l as [|x l].
    { change (feed (enc (JList []) level) (Some (MOut, ts)))
        with (Some (MOut, ((ts ++ [TLBrack]) ++ [TRBrack])%list)).
      replace (ts ++ tokens_of float_repr (JList []))%list
        with ((ts ++ [TLBrack]) ++ [TRBrack])%list
        by (rewrite <- app_assoc; reflexivity).
      apply reads_out. }
    rewrite enc_list. rewrite !feed_app.
    change (feed "[" (Some (MOut, ts))) with (Some (MOut, (ts ++ [TLBrack])%list)).
    rewrite feed_ws_out by apply newline_indent_ws.
    pose proof (feed_join (fun x => enc x (S level)) (tokens_of float_repr)
                  (S level) (x :: l)) as Hj.
    specialize (Hj ltac:(rewrite List.Forall_forall in *; intros y Hy ts'; now apply IHl)
                  (ts ++ [TLBrack])%list).
    apply (reads_ws (nl level)) in Hj; [|apply newline_indent_ws].
    rewrite (reads_struct "]" TRBrack _ _ eq_refl Hj).
    replace (ts ++ tokens_of float_repr (JList (x :: l)))%list
      with (((ts ++ [TLBrack]) ++ join_tokens (map (tokens_of float_repr) (x :: l)))
            ++ [TRBrack])%list
      by (cbn [tokens_of]; rewrite <- !app_assoc; reflexivity).
    apply reads_out.
  - destruct d as [|kx d].
    { change (feed (enc (JDict []) level) (Some (MOut, ts)))
        with (Some (MOut, ((ts ++ [TLBrace]) ++ [TRBrace])%list)).
      replace (ts ++ tokens_of float_repr (JDict []))%list
        with ((ts ++ [TLBrace]) ++ [TRBrace])%list
        by (rewrite <- app_assoc; reflexivity).
      apply reads_out. }
    rewrite enc_dict. rewrite !feed_app.
    change (feed "{" (Some (MOut, ts))) with (Some (MOut, (ts ++ [TLBrace])%list)).
    rewrite feed_ws_out by apply newline_indent_ws.
    pose proof (feed_join
                  (fun kx => encode_str (fst kx) ++ String ":" key_ws
                             ++ enc (snd kx) (S level))
                  (fun kx => TString (escape (fst kx)) :: TColon
                             :: tokens_of float_repr (snd kx))
                  (S level) (kx :: d)) as Hj.
    assert (Hitems : Forall (fun kx => forall ts',
              reads (feed (encode_str (fst kx) ++ String ":" key_ws
                           ++ enc (snd kx) (S level)) (Some (MOut, ts')))
                    (ts' ++ TString (escape (fst kx)) :: TColon
                         :: tokens_of float_repr (snd kx))%list) (kx :: d)).
    { rewrite List.Forall_forall in *. intros [k x] Hkx ts'. cbn [fst snd].
      rewrite feed_app, feed_encode_str.
      change (String ":" key_ws ++ enc x (S level))
        with (":" ++ key_ws ++ enc x (S level)).
      rewrite !feed_app.
      change (feed ":" (Some (MOut, (ts' ++ [TString (escape k)])%list)))
        with (Some (MOut, ((ts' ++ [TString (escape k)]) ++ [TColon])%list)).
      rewrite feed_ws_out by exact key_ws_ws.
      replace (ts' ++ TString (escape k) :: TColon :: tokens_of float_repr x)%list
        with (((ts' ++ [TString (escape k)]) ++ [TColon]) ++ tokens_of float_repr x)%list
        by (rewrite <- !app_assoc; reflexivity).
      apply (IHd (k, x) Hkx). }
    specialize (Hj Hitems (ts ++ [TLBrace])%list).
    apply (reads_ws (nl level)) in Hj; [|apply newline_indent_ws].
    rewrite (reads_struct "}" TRBrace _ _ eq_refl Hj).
    replace (ts ++ tokens_of float_repr (JDict (kx :: d)))%list
      with (((ts ++ [TLBrace])
             ++ join_tokens (map (fun kx => TString (escape (fst kx)) :: TColon
                                            :: tokens_of float_repr (snd kx)) (kx :: d)))
            ++ [TRBrace])%list
      by (cbn [tokens_of]; rewrite <- !app_assoc; reflexivity).
    apply reads_out.
Qed.

Lemma lex_enc v : lex (enc v 0) = Some (tokens_of float_repr v).
Proof.
  unfold lex. destruct (feed_enc v 0%nat []) as (st & -> & Hst). exact Hst.
Qed.

End EncodeFacts.

Section CompactFacts.
Import JsonDumps.

Local Open Scope string_scope.

Lemma all_chars_impl (p q : ascii -> bool) s :
  (forall c, p c = true -> q c = true) ->
  all_chars p s = true -> all_chars q s = true.
Proof.
  intros Hpq. induction s as [|c s IH]; [reflexivity|].
  cbn [all_chars]. intros H. apply andb_prop in H. destruct H as [Hc Hs].
  now rewrite (Hpq c Hc), IH.
Qed.

Lemma atom_char_not_newline c : is_atom_char c = true -> not_newline c = true.
Proof.
  unfold is_atom_char, not_newline. intros H.
  destruct (Ascii.eqb_spec c newline) as [->|]; [discriminate | reflexivity].
Qed.

Lemma plain_char_not_newline c : plain_char c = true -> not_newline c = true.
Proof.
  unfold plain_char, not_newline. intros H.
  destruct (Ascii.eqb_spec c newline) as [->|]; [discriminate | reflexivity].
Qed.

Lemma atom_text_not_newline s : atom_text s = true -> all_chars not_newline s = true.
Proof.
  intros H. apply (all_chars_impl is_atom_char); [apply atom_char_not_newline|].
  destruct s; [discriminate | exact H].
Qed.

Lemma escape_char_not_newline c : all_chars not_newline (escape_char c) = true.
Proof.
  unfold escape_char.
  destruct (Ascii.eqb c dquote); [reflexivity|].
  destruct (Ascii.eqb c backslash); [reflexivity|].
  destruct (N_of_ascii c =? 10)%N eqn:E10; [reflexivity|].
  destruct (N_of_ascii c =? 13)%N; [reflexivity|].
  destruct (N_of_ascii c =? 9)%N; [reflexivity|].
  destruct (N_of_ascii c =? 8)%N; [reflexivity|].
  destruct (N_of_ascii c =? 12)%N; [reflexivity|].
  destruct ((32 <=? N_of_ascii c) && (N_of_ascii c <=? 126))%N.
  - cbn [all_chars]. rewrite andb_true_r. unfold not_newline.
    destruct (Ascii.eqb_spec c newline) as [->|]; [discriminate | reflexivity].
  - assert (Hn : (N_of_ascii c < 256)%N) by apply N_ascii_bounded.
    cbn [all_chars].
    rewrite (plain_char_not_newline (hex_digit (N_of_ascii c / 16))),
            (plain_char_not_newline (hex_digit (N_of_ascii c mod 16))).
    + reflexivity.
    + apply hex_digit_plain. apply N.mod_lt. discriminate.
    + apply hex_digit_plain. apply N.Div0.div_lt_upper_bound. exact Hn.
Qed.

Lemma escape_not_newline s : all_chars not_newline (escape s) = true.
Proof.
  induction s as [|c s IH]; [reflexivity|].
  cbn [escape]. now rewrite all_chars_app, escape_char_not_newline, IH.
Qed.

Lemma encode_str_not_newline s : all_chars not_newline (encode_str s) = true.
Proof.
  unfold encode_str. cbn [all_chars].
  now rewrite all_chars_app, escape_not_newline.
Qed.

Lemma join_all_chars p sep items :
  all_chars p sep = true ->
  Forall (fun x => all_chars p x = true) items ->
  all_chars p (join sep items) = true.
Proof.
  intros Hsep. induction items as [|x items IH]; intros H; [reflexivity|].
  apply Forall_cons_iff in H. destruct H as [Hx Hitems].
  destruct items as [|y items]; [exact Hx|].
  change (join sep (x :: y :: items)) with (x ++ sep ++ join sep (y :: items)).
  now rewrite !all_chars_app, Hx, Hsep, IH.
Qed.

Variable float_repr : float -> string.
Hypothesis float_repr_atom : forall f, atom_text (float_repr f) = true.

(** without [indent] the encoder writes no newline *)
Lemma encode_compact_not_newline v : forall level,
  all_chars not_newline (encode float_repr None "," ":" v level) = true.
Proof.
  induction v as [ |b|z|f|s|l IHl|d IHd] using json_nested_ind; intros level.
  - reflexivity.
  - destruct b; reflexivity.
  - apply atom_text_not_newline, int_repr_atom.
  - apply atom_text_not_newline, floatstr_atom, float_repr_atom.
  - apply encode_str_not_newline.
  - destruct l as [|x l]; [reflexivity|].
    rewrite (enc_list float_repr None ""). rewrite !all_chars_app.
    rewrite join_all_chars; [reflexivity | reflexivity |].
    rewrite List.Forall_forall in *. intros y Hy. apply in_map_iff in Hy.
    destruct Hy as (x0 & <- & Hx0). now apply IHl.
  - destruct d as [|kx d]; [reflexivity|].
    rewrite (enc_dict float_repr None ""). rewrite !all_chars_app.
    rewrite join_all_chars; [reflexivity | reflexivity |].
    rewrite List.Forall_forall in *. intros y Hy. apply in_map_iff in Hy.
    destruct Hy as ([k x0] & <- & Hx0). cbn [fst snd].
    rewrite !all_chars_app, encode_str_not_newline.
    now rewrite (IHd (k, x0) Hx0).
Qed.

End CompactFacts.

Section BodyFacts.
Import PyObj Collectors Orchestrator JsonDumps Http.

Local Open Scope string_scope.

Lemma dict_set_cons d k v : exists kx d', dict_set d k v = kx :: d'.
Proof.
  destruct d as [|[k' v'] d]; cbn [dict_set]; [eauto|].
  destruct (String.eqb k' k); eauto.
Qed.

Lemma set_if_cons b kx d k v : exists kx' d', set_if b (kx :: d) k v = kx' :: d'.
Proof. unfold set_if. destruct b; [apply dict_set_cons | eauto]. Qed.

Lemma collect_metrics_cons static timestamp res metrics :
  collect_metrics static timestamp res = Ok metrics ->
  exists kx d, metrics = kx :: d.
Proof.
  unfold collect_metrics, bind.
  repeat match goal with
         | |- context [match ?x with Ok _ => _ | Raise _ => _ end] =>
             destruct x; [|discriminate]
         end.
  intros [= <-].
  repeat match goal with
         | |- exists kx d, set_if ?b ?m ?k ?v = kx :: d =>
             let H := fresh in
             assert (H : exists kx d, m = kx :: d);
             [|destruct H as (? & ? & ->); apply set_if_cons]
         end.
  eauto.
Qed.



End BodyFacts.

(** ** The trackers: what every call does to the stored state *)

Section TrackerStateFacts.
Import PyNum.

Lemma SFcompare_refl x : x <> S754_nan -> SFcompare x x = Some Eq.
Proof.
  destruct x as [s|s| |s m e]; intros H; try contradiction; cbn.
  - reflexivity.
  - destruct s; reflexivity.
  - destruct s; rewrite Z.compare_refl; [rewrite Pos.compare_cont_refl|rewrite Pos.compare_cont_refl]; reflexivity.
Qed.

Lemma not_nan_is_nan (r : float) : Prim2SF r <> S754_nan -> is_nan r = false.
Proof.
  intros H. unfold is_nan. rewrite FloatAxioms.eqb_spec. unfold SFeqb.
  now rewrite SFcompare_refl.
Qed.

Lemma float_of_int_finite z q : float_of_int z = Ok q -> is_finite q = true.
Proof.
  unfold float_of_int.
  pose proof (binary_normalize_valid z 0 false) as Hv.
  pose proof (binary_normalize_not_nan z 0 false) as Hn.
  destruct (binary_normalize prec emax z 0 false) as [s|s| |s m e] eqn:E;
    try discriminate; try contradiction.
  - intros H. change (Ok (SF2Prim (S754_zero s)) = Ok q) in H.
    assert (q = SF2Prim (S754_zero s)) by congruence. subst q.
    unfold is_finite. now rewrite Prim2SF_SF2Prim.
  - intros H. change (Ok (SF2Prim (S754_finite s m e)) = Ok q) in H.
    assert (q = SF2Prim (S754_finite s m e)) by congruence. subst q.
    unfold is_finite. now rewrite Prim2SF_SF2Prim.
Qed.

Lemma float_of_int_raises z e : float_of_int z = Raise e -> e = OverflowError.
Proof.
  unfold float_of_int. destruct (binary_normalize prec emax z 0 false); congruence.
Qed.

Lemma int_truediv_raises a b e :
  b <> 0 -> int_truediv a b = Raise e -> e = OverflowError.
Proof.
  intros Hb. unfold int_truediv. destruct (Z.eqb_spec b 0); [contradiction|].
  destruct (a =? 0); [discriminate|].
  destruct (SFdiv_core_binary _ _ _ _ _ _) as [[mz ez] lz].
  destruct (binary_round_aux _ _ _ _ _ _); congruence.
Qed.


Lemma float_sub_one_not_nan (q : float) :
  is_finite q = true -> Prim2SF (1 - q)%float <> S754_nan.
Proof.
  unfold is_finite. rewrite sub_spec. unfold SF64sub.
  replace (Prim2SF 1) with (S754_finite false 4503599627370496 (-52))
    by (vm_compute; reflexivity).
  destruct (Prim2SF q) as [s|s| |s m e]; try discriminate; intros _.
  cbn [SFsub]. apply binary_normalize_not_nan.
Qed.

(** X1: whatever the stored state and the clock, [DeltaTracker.update] stores
    the new sample under its key and touches no other key, also when it
    raises; the only exception it lets out is [OverflowError] (from the
    conversion of the delta to [float]), never [ZeroDivisionError]; and a
    rate it returns is never NaN. *)
Theorem delta_update_state (d : gmap string (Z * float)) (now : float)
    (key : string) (value : Z) :
  fst (DeltaTracker.update d now key value) !! key = Some (value, now)
  /\ (forall k, k <> key -> fst (DeltaTracker.update d now key value) !! k = d !! k)
  /\ (snd (DeltaTracker.update d now key value) = Raise OverflowError
      \/ exists r, snd (DeltaTracker.update d now key value) = Ok r
                   /\ is_nan r = false).
Proof.
  unfold DeltaTracker.update.
  destruct (d !! key) as [[old_val old_time]|] eqn:E.
  - destruct (0 <? now - old_time)%float eqn:Et; cbn [fst snd].
    + split; [apply lookup_insert_eq|].
      split; [intros k Hk; now rewrite lookup_insert_ne by congruence|].
      unfold int_float_truediv, bind.
      destruct (float_of_int (value - old_val)) as [x|e] eqn:Ex.
      * right. unfold float_truediv. rewrite (float_pos_ne_zero _ Et).
        eexists. split; [reflexivity|]. apply not_nan_is_nan.
        apply float_div_not_nan; [now apply (float_of_int_finite _ _ Ex) | exact Et].
      * left. now rewrite (float_of_int_raises _ _ Ex).
    + split; [apply lookup_insert_eq|].
      split; [intros k Hk; now rewrite !lookup_insert_ne by congruence|].
      right. exists 0%float. split; reflexivity.
  - cbn [fst snd]. split; [apply lookup_insert_eq|].
    split; [intros k Hk; now rewrite lookup_insert_ne by congruence|].
    right. exists 0%float. split; reflexivity.
Qed.

(** X2: [CoreTracker.update] likewise: the new pair is stored under the core's
    id and no other core is touched, also when it raises; it never divides
    by zero, the only exception it lets out is [OverflowError]; and a usage
    it returns is never NaN. *)
Theorem core_update_state (c : gmap Z (Z * Z)) (core_id idle total : Z) :
  fst (CoreTracker.update c core_id idle total) !! core_id = Some (idle, total)
  /\ (forall k, k <> core_id ->
        fst (CoreTracker.update c core_id idle total) !! k = c !! k)
  /\ (snd (CoreTracker.update c core_id idle total) = Raise OverflowError
      \/ exists r, snd (CoreTracker.update c core_id idle total) = Ok r
                   /\ is_nan r = false).
Proof.
  unfold CoreTracker.update.
  destruct (c !! core_id) as [[old_idle old_total]|] eqn:E.
  - destruct (0 <? total - old_total) eqn:Et; cbn [fst snd].
    + split; [apply lookup_insert_eq|].
      split; [intros k Hk; now rewrite lookup_insert_ne by congruence|].
      apply Z.ltb_lt in Et. unfold CoreTracker.usage, bind.
      destruct (int_truediv (idle - old_idle) (total - old_total)) as [q|e] eqn:Eq.
      * right. destruct (float_round_ok ((1 - q) * 100)%float) as (r & Hr).
        exists r. split; [exact Hr|]. apply not_nan_is_nan.
        apply (float_round_not_nan _ _ (float_mul100_not_nan _
                 (float_sub_one_not_nan _ (int_truediv_finite _ _ _ Eq))) Hr).
      * left. assert (Hb : total - old_total <> 0) by lia.
        now rewrite (int_truediv_raises _ _ _ Hb Eq).
    + split; [apply lookup_insert_eq|].
      split; [intros k Hk; now rewrite !lookup_insert_ne by congruence|].
      right. exists 0%float. split; reflexivity.
  - cbn [fst snd]. split; [apply lookup_insert_eq|].
    split; [intros k Hk; now rewrite lookup_insert_ne by congruence|].
    right. exists 0%float. split; reflexivity.
Qed.

End TrackerStateFacts.

(** ** The Docker reply: header split and array extraction *)

Section FramingFacts.
Import Docker Framing.

Lemma starts_with_app needle : forall hay,
  starts_with needle hay = true -> exists rest, hay = needle ++ rest.
Proof.
  induction needle as [|n needle IH]; intros hay H.
  - exists hay. reflexivity.
  - destruct hay as [|h hay]; [discriminate|]. cbn in H.
    apply andb_prop in H. destruct H as [H1 H2].
    apply Byte.byte_dec_bl in H1. subst h.
    destruct (IH hay H2) as (rest & ->). exists rest. reflexivity.
Qed.

Lemma starts_with_prefix needle : forall hay extra,
  starts_with needle hay = true -> starts_with needle (hay ++ extra) = true.
Proof.
  induction needle as [|n needle IH]; intros hay extra H; [reflexivity|].
  destruct hay as [|h hay]; [discriminate|]. cbn in H |- *.
  apply andb_prop in H. destruct H as [H1 H2].
  rewrite H1. cbn. now apply IH.
Qed.

(** [find] returns the first position at which the needle occurs. *)
Lemma find_Some needle : forall hay i,
  find needle hay = Some i ->
  starts_with needle (skipn i hay) = true
  /\ (i <= length hay)%nat
  /\ forall j, (j < i)%nat -> starts_with needle (skipn j hay) = false.
Proof.
  induction hay as [|h hay IH]; intros i H.
  - cbn in H. destruct (starts_with needle []) eqn:E; [|discriminate].
    injection H as <-. cbn. repeat split; [exact E | lia | intros j Hj; lia].
  - cbn [find] in H. destruct (starts_with needle (h :: hay)) eqn:E.
    + injection H as <-. cbn. repeat split; [exact E | lia | intros j Hj; lia].
    + destruct (find needle hay) as [k|] eqn:Ek; [|discriminate].
      injection H as <-. destruct (IH k eq_refl) as (H1 & H2 & H3).
      cbn [skipn length]. repeat split; [exact H1 | lia |].
      intros [|j] Hj; [exact E|]. cbn [skipn]. apply H3. lia.
Qed.

Lemma find_None needle : forall hay j,
  find needle hay = None -> starts_with needle (skipn j hay) = false.
Proof.
  induction hay as [|h hay IH]; intros j H.
  - cbn in H. destruct (starts_with needle []) eqn:E; [discriminate|].
    destruct j; exact E.
  - cbn [find] in H. destruct (starts_with needle (h :: hay)) eqn:E; [discriminate|].
    destruct (find needle hay) eqn:Ek; [discriminate|].
    destruct j as [|j]; [exact E|]. cbn [skipn]. now apply IH.
Qed.

Lemma skipn_firstn_prefix {A : Type} (l : list A) i j :
  (j <= i)%nat -> exists extra, skipn j l = skipn j (firstn i l) ++ extra.
Proof.
  intros Hji. exists (skipn i l).
  destruct (Nat.le_gt_cases i (length l)) as [Hle|Hgt].
  - rewrite <- (firstn_skipn i l) at 1. rewrite skipn_app.
    rewrite length_firstn. replace (j - Nat.min i (length l))%nat with O by lia.
    reflexivity.
  - rewrite firstn_all2 by lia. rewrite (skipn_all2 l (n := i)) by lia.
    now rewrite app_nil_r.
Qed.

(** X3: when the reply holds the blank line [\r\n\r\n], the header split
    cuts it at the first one: the reply is the headers, the blank line and
    the body put together again, and the headers hold no blank line; the
    split fails only on a reply without one. *)
Theorem split_headers_round_trip (response : list byte) :
  match split_headers response with
  | Some (headers, body) =>
      response = headers ++ blank_line ++ body
      /\ contains blank_line headers = false
  | None => contains blank_line response = false
  end.
Proof.
  unfold split_headers, contains.
  destruct (find blank_line response) as [i|] eqn:E; [|reflexivity].
  destruct (find_Some _ _ _ E) as (H1 & H2 & H3).
  destruct (starts_with_app _ _ H1) as (rest & Hrest). split.
  - rewrite <- (firstn_skipn i response) at 1. f_equal.
    rewrite Hrest. f_equal.
    rewrite Nat.add_comm, <- skipn_skipn, Hrest.
    now rewrite skipn_app, skipn_all, Nat.sub_diag.
  - destruct (find blank_line (firstn i response)) as [j|] eqn:Ej; [|reflexivity].
    exfalso. destruct (find_Some _ _ _ Ej) as (J1 & J2 & _).
    assert (Hji : (j <= i)%nat).
    { etransitivity; [exact J2 | apply firstn_le_length]. }
    destruct (skipn_firstn_prefix response i j Hji) as (extra & Hx).
    assert (Hlt : (j < i)%nat).
    { destruct (Nat.eq_dec j i) as [->|]; [|lia].
      rewrite skipn_all2 in J1 by (rewrite length_firstn; lia). discriminate. }
    specialize (H3 j Hlt). rewrite Hx in H3.
    now rewrite (starts_with_prefix _ _ _ J1) in H3.
Qed.

Lemma find_skip_prefix (b : byte) pre rest :
  contains [b] pre = false ->
  find [b] (pre ++ b :: rest) = Some (length pre).
Proof.
  unfold contains. induction pre as [|p pre IH]; intros H.
  - cbn. rewrite (Byte.byte_dec_lb (eq_refl b)). reflexivity.
  - cbn [find app] in H |- *. cbn [starts_with] in H |- *.
    destruct (Byte.eqb b p); cbn [andb] in H |- *; [discriminate|].
    destruct (find [b] pre) eqn:E; [discriminate|].
    rewrite IH by reflexivity. reflexivity.
Qed.

(** Inside a well-nested run the scan never sees the depth return to
    zero: it goes through the run and continues behind it. *)
Lemma scan_brackets_nested inner : forall rest n i depth k,
  nested inner k = true -> 1 <= depth ->
  scan_brackets (inner ++ rest) (length inner + n) i (depth + k)
  = scan_brackets rest n (length inner + i) depth.
Proof.
  induction inner as [|b inner IH]; intros rest n i depth k Hn Hd.
  - cbn in Hn. apply Z.eqb_eq in Hn. subst k. now rewrite Z.add_0_r.
  - cbn [nested] in Hn. cbn [app length Nat.add scan_brackets].
    replace (S (length inner + i)) with (length inner + S i)%nat by lia.
    destruct (Byte.eqb b open_bracket).
    + rewrite <- Z.add_assoc. now apply IH.
    + destruct (Byte.eqb b close_bracket).
      * apply andb_prop in Hn. destruct Hn as [Hk Hn]. apply Z.ltb_lt in Hk.
        destruct (Z.eqb_spec (depth + k - 1) 0) as [H0|_]; [lia|].
        replace (depth + k - 1) with (depth + (k - 1)) by lia. now apply IH.
      * now apply IH.
Qed.

(** X4: the chunk framing around the array is dropped.  When the body
    holds no [[] before the array, the array's inner brackets are well
    nested and it is at most 50,000 bytes long, the extracted text is the
    array itself, from its opening bracket to the matching closing one,
    whatever comes before (a chunk-size line) and after (the closing
    chunk). *)
Theorem extract_json_strips_framing (pre inner post : list byte) :
  contains [open_bracket] pre = false ->
  nested inner 0 = true ->
  len inner + 2 <= 50000 ->
  extract_json (pre ++ open_bracket :: inner ++ close_bracket :: post)
  = Some (open_bracket :: inner ++ [close_bracket]).
Proof.
  intros Hpre Hnest Hlen. unfold extract_json.
  rewrite (find_skip_prefix _ _ _ Hpre).
  rewrite skipn_app, skipn_all, Nat.sub_diag. cbn [app skipn]. f_equal.
  replace (Z.to_nat 50000)
    with (S (length inner + S (Z.to_nat (50000 - len inner - 2))))
    by (unfold len in *; lia).
  cbn [scan_brackets].
  change (Byte.eqb open_bracket open_bracket) with true. cbv iota.
  change (0 + 1) with (1 + 0).
  rewrite (scan_brackets_nested inner _ _ _ 1 0 Hnest ltac:(lia)).
  cbn [scan_brackets].
  change (Byte.eqb close_bracket open_bracket) with false.
  change (Byte.eqb close_bracket close_bracket) with true. cbv iota.
  change (1 - 1 =? 0) with true. cbv iota.
  replace (S (length inner + 1)) with (S (length inner) + 1)%nat by lia.
  change (open_bracket :: inner ++ close_bracket :: post)
    with ((open_bracket :: inner) ++ close_bracket :: post).
  replace ((open_bracket :: inner) ++ close_bracket :: post)
    with (((open_bracket :: inner) ++ [close_bracket]) ++ post)
    by (now rewrite <- app_assoc).
  rewrite firstn_app.
  replace (S (length inner) + 1)%nat with (length ((open_bracket :: inner) ++ [close_bracket]))
    by (rewrite length_app; cbn [length]; lia).
  rewrite firstn_all, Nat.sub_diag. cbn [firstn]. now rewrite app_nil_r.
Qed.

Lemma extract_json_strips_framing_witness :
  extract_json chunked_body
  = Some (bytes_of "[{'Names':[],'Ports':[[1]]}]").
Proof.
  apply (extract_json_strips_framing
           (bytes_of "1a" ++ [x0d; x0a])
           (bytes_of "{'Names':[],'Ports':[[1]]}")
           ([x0d; x0a; x30; x0d; x0a; x0d; x0a]));
    [reflexivity | reflexivity | vm_compute; discriminate].
Defined.

End FramingFacts.

(** ** What the container summaries hold *)

Section ContainerFacts.
Import Docker PyObj.

Variable json_loads : list byte -> result json.

Lemma str_lstrip_slash_prefix s : PyStr.startswith "/" (str_lstrip_slash s) = false.
Proof.
  unfold PyStr.startswith. induction s as [|c s IH]; [reflexivity|].
  cbn [str_lstrip_slash]. destruct (Ascii.eqb_spec c "/") as [->|Hne]; [exact IH|].
  cbn [String.prefix]. destruct (ascii_dec "/" c); [congruence | reflexivity].
Qed.

Lemma str_has_slash_app (a b : string) :
  str_has_slash (a ++ b)%string = str_has_slash a || str_has_slash b.
Proof.
  induction a as [|c a IH]; [reflexivity|].
  change (String c a ++ b)%string with (String c (a ++ b)%string).
  cbn [str_has_slash]. now rewrite IH, orb_assoc.
Qed.

Lemma str_last_segment_no_slash s : forall acc,
  str_has_slash acc = false -> str_has_slash (str_last_segment s acc) = false.
Proof.
  induction s as [|c s IH]; intros acc H; [exact H|].
  cbn [str_last_segment]. destruct (Ascii.eqb c "/") eqn:E.
  - now apply IH.
  - apply IH. rewrite str_has_slash_app, H. cbn. now rewrite E.
Qed.

Let summary_ok (s : summary) : Prop :=
  PyStr.startswith "/" (name s) = false
  /\ forall i, image s = JStr i -> str_has_slash i = false.

Lemma map_container_ok container s :
  map_container container = Ok (Some s) -> summary_ok s.
Proof.
  unfold map_container, bind.
  destruct (get container "Names" (JList [])) as [names|]; [|discriminate].
  destruct (negb (truthy names)); [discriminate|].
  destruct (getitem0 names) as [first|]; [|discriminate].
  destruct (lstrip_slash first) as [nm|] eqn:En; [|discriminate].
  destruct (get container "Image" (JStr "")) as [img|]; [|discriminate].
  destruct (contains_slash img) as [has|] eqn:Eh; [|discriminate].
  destruct (if has then split_slash_last img else Ok img) as [img'|] eqn:Ei; [|discriminate].
  destruct (get container "State" (JStr "unknown")) as [st|]; [|discriminate].
  intros [= <-]. split; cbn [name image].
  - destruct first; try discriminate. injection En as <-.
    apply str_lstrip_slash_prefix.
  - intros i ->. destruct has.
    + destruct img; try discriminate. injection Ei as <-.
      now apply str_last_segment_no_slash.
    + injection Ei as ->. cbn in Eh. congruence.
Qed.

Lemma map_containers_summaries data : forall containers,
  Forall summary_ok containers ->
  Forall summary_ok (fst (map_containers data containers)).
Proof.
  induction data as [|c data IH]; intros containers H; cbn [map_containers].
  - exact H.
  - destruct (map_container c) as [[s|]|e] eqn:E.
    + apply IH. apply Forall_app. split; [exact H|].
      constructor; [now apply (map_container_ok c) | constructor].
    + now apply IH.
    + exact H.
Qed.

(** X5: whatever the daemon answers and however the reading ends, every
    container that [get_containers] reports has a name that does not begin
    with [/], and an image that, when it is a string, holds no [/]: only
    the last segment of a repository path is kept. *)
Theorem get_containers_summaries (sock : socket) :
  Forall (fun s => PyStr.startswith "/" (name s) = false
                   /\ forall i, image s = JStr i -> str_has_slash i = false)
         (get_containers json_loads sock).
Proof.
  change (Forall summary_ok (get_containers json_loads sock)).
  unfold get_containers, get_containers_body.
  destruct (connect sock); [|constructor].
  destruct (sendall sock); [|constructor].
  destruct (fst (read_loop (recv sock) 100 0 [])); [|constructor].
  destruct (split_headers _) as [[headers body]|]; [|constructor].
  destruct (extract_json body); [|constructor].
  destruct (json_loads _); [|constructor].
  destruct (iterate _); [|constructor].
  apply map_containers_summaries. constructor.
Qed.

End ContainerFacts.

(** ** When the host facts are complete *)

Section StaticInfoComplete.
Import PyObj StaticInfo Collectors Orchestrator.

Lemma prefix_app p : forall s,
  String.prefix p s = true -> exists rest, s = (p ++ rest)%string.
Proof.
  induction p as [|a p IH]; intros s H.
  - exists s. reflexivity.
  - destruct s as [|b s]; [discriminate|]. cbn [String.prefix] in H.
    destruct (ascii_dec a b) as [->|]; [|discriminate].
    destruct (IH s H) as (rest & ->). exists rest. reflexivity.
Qed.

(** A line that begins with [PRETTY_NAME=] sets the entry; so does a read
    error, through the [except] branch. *)
Lemma scan_os_release_match f : forall info,
  no_pretty_name f = false ->
  match scan_os_release f info with
  | (info', Ok _) => dict_lookup info' "os" <> None
  | (_, Raise _) => True
  end.
Proof.
  induction f as [|line rest IH|e]; intros info H; cbn in H |- *;
    [discriminate | | exact I].
  destruct (PyStr.startswith "PRETTY_NAME=" line) eqn:E.
  - destruct (prefix_app _ _ E) as (v & ->).
    replace (PyStr.split1_second "=" ("PRETTY_NAME=" ++ v)%string)
      with (Ok (A := string) v) by reflexivity.
    rewrite dict_lookup_set. cbn. discriminate.
  - cbn in H. now apply IH.
Qed.

(** X6: [get_static_info] always reports the host name, the architecture,
    the processor count, the page size and a processor model; it reports
    an ['os'] entry unless [/etc/os-release] is read to its end without a
    [PRETTY_NAME=] line (an unreadable file gives ['Linux']); and a
    collection pass on these facts returns a snapshot exactly when that
    entry is there, whatever the collectors find. *)
Theorem get_static_info_complete (h : host) :
  dict_lookup (get_static_info h) "hostname" = Some (JStr (hostname h))
  /\ dict_lookup (get_static_info h) "arch" = Some (JStr (machine h))
  /\ dict_lookup (get_static_info h) "cpu_count" = Some (JInt (cpu_count h))
  /\ dict_lookup (get_static_info h) "page_size" = Some (JInt (page_size h))
  /\ (exists model, dict_lookup (get_static_info h) "cpu_model" = Some model)
  /\ (dict_lookup (get_static_info h) "os" = None
      <-> no_pretty_name (os_release h) = true)
  /\ (forall e, os_release h = ReadError e ->
        dict_lookup (get_static_info h) "os" = Some (JStr "Linux"))
  /\ (forall timestamp r,
        (exists metrics,
           collect_metrics (get_static_info h) timestamp (run_collectors r)
           = Ok metrics)
        <-> no_pretty_name (os_release h) = false).
Proof.
  assert (Hmodel : exists model,
            dict_lookup (get_static_info h) "cpu_model" = Some model).
  { unfold get_static_info.
    set (base := [ ("hostname", JStr (hostname h)); ("arch", JStr (machine h));
                   ("cpu_model", JStr "unknown"); ("cpu_count", JInt (cpu_count h));
                   ("page_size", JInt (page_size h)) ]).
    pose proof (scan_cpuinfo_model (cpuinfo h) base ltac:(discriminate)) as Hm.
    set (i0 := fst (scan_cpuinfo (cpuinfo h) base)) in *.
    pose proof (scan_os_release_other (os_release h) i0 "cpu_model"
                  ltac:(discriminate)) as H.
    destruct (scan_os_release (os_release h) i0) as [info [u|e]]; cbn [fst] in H.
    - rewrite H. destruct (dict_lookup i0 "cpu_model"); [eauto | contradiction].
    - rewrite dict_lookup_set. change (String.eqb "os" "cpu_model") with false.
      cbv iota. rewrite H.
      destruct (dict_lookup i0 "cpu_model"); [eauto | contradiction]. }
  assert (Hos : dict_lookup (get_static_info h) "os" = None
                <-> no_pretty_name (os_release h) = true).
  { split; [|apply get_static_info_no_os].
    destruct (no_pretty_name (os_release h)) eqn:En; [reflexivity|].
    intros Hnone. exfalso. unfold get_static_info in Hnone.
    match type of Hnone with context [scan_os_release ?f ?i] =>
      pose proof (scan_os_release_match f i En) as Hm;
      destruct (scan_os_release f i) as [info [u|e]] end.
    - contradiction.
    - rewrite dict_lookup_set in Hnone. discriminate. }
  repeat (split; [rewrite get_static_info_other by discriminate; reflexivity|]).
  split; [exact Hmodel|]. split; [exact Hos|]. split.
  - intros e He. unfold get_static_info. rewrite He. cbn [scan_os_release].
    now rewrite dict_lookup_set.
  - intros timestamp r. split.
    + intros (metrics & Hm).
      destruct (no_pretty_name (os_release h)) eqn:En; [|reflexivity].
      exfalso. unfold collect_metrics, dict_getitem in Hm.
      rewrite (get_static_info_no_os h En) in Hm.
      rewrite get_static_info_other in Hm by discriminate. discriminate.
    + intros En. apply collect_metrics_total. intros k Hk.
      destruct Hmodel as (model & Hmodel).
      cbn in Hk. destruct Hk as [<-|[<-|[<-|[<-|[<-|[]]]]]];
        try (rewrite get_static_info_other by discriminate; discriminate).
      * intros Hnone. apply Hos in Hnone. congruence.
      * congruence.
Qed.

End StaticInfoComplete.

(** ** Which processes are reported *)

Section TopProcessesSelection.
Import PyNum TopProcesses.

Lemma insert_perm {A : Type} (key : A -> pynum) x l :
  Permutation (insert key x l) (x :: l).
Proof.
  induction l as [|y l IH]; cbn [insert]; [reflexivity|].
  destruct (num_lt (key x) (key y)); [reflexivity|].
  rewrite IH. apply perm_swap.
Qed.

Lemma sort_fold_perm {A : Type} (key : A -> pynum) l : forall sorted,
  Permutation (fold_left (fun sorted x => insert key x sorted) l sorted)
              (sorted ++ l).
Proof.
  induction l as [|x l IH]; intros sorted; cbn [fold_left].
  - now rewrite app_nil_r.
  - rewrite IH, insert_perm. apply Permutation_middle.
Qed.

Lemma sort_reverse_perm {A : Type} (key : A -> pynum) (l : list A) :
  Permutation (sort_reverse key l) l.
Proof.
  unfold sort_reverse, sort. rewrite <- Permutation_rev, sort_fold_perm.
  cbn [app]. symmetry. apply Permutation_rev.
Qed.

Lemma slice_to_split {A : Type} (l : list A) n :
  exists rest, slice_to l n ++ rest = l.
Proof.
  unfold slice_to. destruct (0 <=? n); eexists; apply firstn_skipn.
Qed.

Lemma slice_to_exact {A : Type} (l : list A) n :
  0 <= n -> length (slice_to l n) = Nat.min (Z.to_nat n) (length l).
Proof.
  intros Hn. unfold slice_to. apply Z.leb_le in Hn. rewrite Hn.
  apply length_firstn.
Qed.

Lemma take_length n s : (String.length (PyStr.take n s) <= n)%nat.
Proof.
  unfold PyStr.take. revert s. induction n as [|n IH]; intros s.
  - destruct s; cbn; lia.
  - destruct s as [|c s]; cbn [substring String.length]; [lia|].
    specialize (IH s). lia.
Qed.

Lemma scan_In uptime page_size clock_ticks dirs : forall proc_data p,
  In p (scan uptime page_size clock_ticks dirs proc_data) ->
  In p proc_data
  \/ exists d, In d dirs /\ read_process uptime page_size clock_ticks d = Ok p.
Proof.
  induction dirs as [|d dirs IH]; intros proc_data p H; cbn [scan] in H;
    [now left|].
  destruct (read_process uptime page_size clock_ticks d) as [q|] eqn:E.
  - destruct (IH _ _ H) as [Hin|(d' & Hd & Hr)].
    + apply in_app_or in Hin. destruct Hin as [Hin|[<-|[]]]; [now left|].
      right. exists d. split; [now left | exact E].
    + right. exists d'. split; [now right | exact Hr].
  - destruct (IH _ _ H) as [Hin|(d' & Hd & Hr)]; [now left|].
    right. exists d'. split; [now right | exact Hr].
Qed.

(** X7: with [/proc/uptime] and the listing of [/proc] readable,
    [get_top_processes(n)] returns the processes with the greatest [cpu]:
    the result, followed by the processes that are left out, is an
    arrangement of all the processes whose [stat] could be read in which
    no entry stands before one with a greater [cpu]; for [n >= 0] the
    result has exactly [min(n, number read)] entries; and every entry
    carries the pid of its [/proc] entry, the command name cut to 15
    characters, the resident pages times the page size and the virtual
    size. *)
Theorem get_top_processes_selection (n page_size clock_ticks : Z) (uptime : float)
    (listing : list proc_dir) :
  (exists rest,
     Permutation
       (get_top_processes n page_size clock_ticks (Ok uptime) (Ok listing) ++ rest)
       (scan uptime page_size clock_ticks listing [])
     /\ StronglySorted (fun a b => num_lt (cpu a) (cpu b) = false)
          (get_top_processes n page_size clock_ticks (Ok uptime) (Ok listing) ++ rest))
  /\ (0 <= n ->
      length (get_top_processes n page_size clock_ticks (Ok uptime) (Ok listing))
      = Nat.min (Z.to_nat n) (length (scan uptime page_size clock_ticks listing [])))
  /\ Forall (fun p => exists d f,
               In d listing /\ stat d = Ok f
               /\ pid p = dir_pid d
               /\ name p = PyStr.take 15 (comm f)
               /\ (String.length (name p) <= 15)%nat
               /\ mem_rss p = rss f * page_size
               /\ mem_virt p = vsize f)
            (get_top_processes n page_size clock_ticks (Ok uptime) (Ok listing)).
Proof.
  unfold get_top_processes.
  set (readable := scan uptime page_size clock_ticks listing []).
  split; [|split].
  - destruct (slice_to_split (sort_reverse cpu readable) n) as (rest & Hrest).
    exists rest. rewrite Hrest. split; [apply sort_reverse_perm|].
    apply (sort_reverse_sorted cpu).
  - intros Hn. rewrite slice_to_exact by exact Hn.
    now rewrite (Permutation_length (sort_reverse_perm cpu readable)).
  - apply List.Forall_forall. intros p Hp.
    apply slice_to_In in Hp. apply sort_reverse_In in Hp.
    apply scan_In in Hp. destruct Hp as [[]|(d & Hd & Hr)].
    unfold read_process, bind in Hr.
    destruct (stat d) as [f|] eqn:Ef; [|discriminate].
    destruct (cpu_percent uptime clock_ticks f) as [c|]; [|discriminate].
    destruct (round1 c) as [r|]; [|discriminate].
    injection Hr as <-. exists d, f. cbn [pid name mem_rss mem_virt].
    repeat split; try assumption. apply take_length.
Qed.

End TopProcessesSelection.

(** ** Routing of a request *)

Section RoutingFacts.
Import Collectors Orchestrator JsonDumps Http.

Local Open Scope string_scope.

Lemma contains_char_cons (c a : ascii) (s : string) :
  PyStr.contains (String c "") (String a s)
  = Ascii.eqb c a || PyStr.contains (String c "") s.
Proof.
  cbn [PyStr.contains String.prefix].
  destruct (ascii_dec c a) as [->|Hne].
  - rewrite Ascii.eqb_refl. now destruct s.
  - destruct (Ascii.eqb_spec c a); [contradiction | reflexivity].
Qed.

Lemma split_go_app (sep : ascii) (p q : string) : forall acc,
  PyStr.contains (String sep "") p = false ->
  PyStr.split_go sep (p ++ String sep q) acc
  = (acc ++ p) :: PyStr.split_go sep q "".
Proof.
  induction p as [|a p IH]; intros acc H.
  - change ("" ++ String sep q) with (String sep q). cbn [PyStr.split_go].
    rewrite Ascii.eqb_refl. now rewrite str_app_nil_r.
  - rewrite contains_char_cons in H. apply orb_false_elim in H.
    destruct H as [Ha Hp].
    change (String a p ++ String sep q) with (String a (p ++ String sep q)).
    cbn [PyStr.split_go]. rewrite Ascii.eqb_sym, Ha. rewrite (IH _ Hp).
    now rewrite str_app_assoc.
Qed.

Lemma split_go_head (sep : ascii) (s : string) : forall acc,
  exists first others, PyStr.split_go sep s acc = first :: others.
Proof.
  induction s as [|a s IH]; intros acc; cbn [PyStr.split_go]; [eauto|].
  destruct (Ascii.eqb a sep); [eauto | apply IH].
Qed.

Lemma contains_char_app (c : ascii) (p q : string) :
  PyStr.contains (String c "") (p ++ String c q) = true.
Proof.
  induction p as [|a p IH].
  - change ("" ++ String c q) with (String c q).
    rewrite contains_char_cons, Ascii.eqb_refl. reflexivity.
  - change (String a p ++ String c q) with (String a (p ++ String c q)).
    rewrite contains_char_cons, IH. apply orb_true_r.
Qed.



End RoutingFacts.

(** ** [get_cpu] *)

Section CpuStatFacts.
Import PyNum PyText PyBuiltins TopProcesses Tracked CpuStat.

(** [max(0, min(100, x))] is a number between 0 and 100 for every float
    [x], NaN and the infinities included. *)
Lemma clamp_within (f : float) : within_0_100 (clamp (PFloat f)) = true.
Proof.
  unfold clamp, py_min, py_max, within_0_100.
  destruct (num_lt (PFloat f) (PInt 100)) eqn:E100; [|reflexivity].
  destruct (num_lt (PInt 0) (PFloat f)) eqn:E0; [|reflexivity].
  rewrite (num_lt_asym _ _ E100), (num_lt_asym _ _ E0).
  rewrite num_lt_value in E0. cbn [value] in E0 |- *.
  destruct (float_value f); [reflexivity | discriminate].
Qed.

Lemma map_result_length {A B : Type} (f : A -> result B) l : forall ys,
  map_result f l = Ok ys -> length ys = length l.
Proof.
  induction l as [|x l IH]; intros ys; cbn [map_result bind].
  - intros [= <-]. reflexivity.
  - destruct (f x); [|discriminate].
    destruct (map_result f l) as [ys'|]; [|discriminate].
    intros [= <-]. cbn [length]. f_equal. now apply IH.
Qed.

Section WithInterpreter.

Variable to_int : string -> result Z.
Variable monotonic : nat -> float.

Lemma scan_cores_within lines : forall cores st st' cs,
  scan_cores to_int lines cores st = (st', Ok cs) ->
  Forall (fun c => within_0_100 (percent c) = true) cores ->
  Forall (fun c => within_0_100 (percent c) = true) cs.
Proof.
  induction lines as [|line lines IH]; intros cores st st' cs; cbn [scan_cores].
  - unfold ret. intros [= _ <-]. auto.
  - destruct (is_core_line line); [|apply IH].
    unfold mbind, lift.
    destruct (getitem (split_ws line) 0); [|discriminate].
    destruct (to_int _); [|discriminate].
    destruct (parse_fields to_int _); [|discriminate].
    destruct (idle_total _) as [it|]; [|discriminate].
    destruct (core_tracker_update _ _ _ _) as [st1 [usage|]]; [|discriminate].
    intros H Hc. apply (IH _ _ _ _ H). apply Forall_app. split; [exact Hc|].
    constructor; [apply clamp_within | constructor].
Qed.

(** X9: whatever [/proc/stat] holds and whatever the trackers have stored,
    the ['percent'] that [get_cpu] returns and the ['percent'] of every
    core it lists are numbers between 0 and 100, never NaN: the usage
    computed from the rates is clamped, and the fallback is 0. *)
Theorem get_cpu_percent_range (content : string) (st : state) :
  exists p cs rest,
    snd (get_cpu to_int monotonic content st)
    = JDict (("percent", json_of_num p)
             :: ("cores", JList (map core_json cs)) :: rest)
    /\ within_0_100 p = true
    /\ Forall (fun c => within_0_100 (percent c) = true) cs.
Proof.
  assert (Hdefault : exists p cs rest,
            default = JDict (("percent", json_of_num p)
                             :: ("cores", JList (map core_json cs)) :: rest)
            /\ within_0_100 p = true
            /\ Forall (fun c => within_0_100 (percent c) = true) cs).
  { exists (PInt 0), [], [("context_switches_sec", JInt 0)].
    split; [reflexivity|]. split; [reflexivity | constructor]. }
  unfold get_cpu, get_cpu_body, mbind, lift.
  destruct (parse_fields to_int _); [|exact Hdefault].
  destruct (idle_total _) as [it|]; [|exact Hdefault].
  destruct (tracker_update monotonic "cpu_idle" _ st) as [st1 [idle_rate|]];
    [|exact Hdefault].
  destruct (tracker_update monotonic "cpu_total" _ st1) as [st2 [total_rate|]];
    [|exact Hdefault].
  destruct (overall_percent idle_rate total_rate) as [pc|]; [|exact Hdefault].
  destruct (scan_cores to_int _ [] st2) as [st3 [cs|]] eqn:Ecores; [|exact Hdefault].
  destruct (scan_counters to_int _ _) as [c|]; [|exact Hdefault].
  destruct (tracker_update monotonic "ctxt" _ st3) as [st4 [ctxt_rate|]];
    [|exact Hdefault].
  destruct (float_round ctxt_rate 1) as [rounded|]; [|exact Hdefault].
  cbn [ret snd]. eexists _, cs, _. split; [reflexivity|].
  split; [apply clamp_within|].
  apply (scan_cores_within _ _ _ _ _ Ecores). constructor.
Qed.

(** X11: when the first line of [/proc/stat] has fewer than five fields
    (so also when the file cannot be read and the content is empty),
    [get_cpu] returns its fallback and leaves both trackers as they
    were. *)
Theorem get_cpu_short_first_line (content : string) (st : state) :
  (length (split_ws (nth 0 (PyStr.split "010" content) EmptyString)) < 5)%nat ->
  get_cpu to_int monotonic content st = (st, default).
Proof.
  intros Hlen. unfold get_cpu, get_cpu_body, mbind, lift.
  destruct (parse_fields to_int _) as [fields|] eqn:Ef; [|reflexivity].
  apply map_result_length in Ef. unfold slice in Ef.
  rewrite length_firstn, length_skipn in Ef.
  replace (idle_total fields) with (Raise (A := Z * Z) IndexError); [reflexivity|].
  unfold idle_total, getitem.
  destruct (nth_error fields 3) eqn:E3; [|reflexivity].
  assert (H3 : nth_error fields 3 <> None) by congruence.
  apply nth_error_Some in H3. lia.
Qed.

End WithInterpreter.

Lemma get_cpu_short_first_line_witness :
  get_cpu int_of_str (fun _ => 1%float) (read_proc_file (Raise OSError)) fresh
  = (fresh, default).
Proof.
  apply (get_cpu_short_first_line int_of_str (fun _ => 1%float)
           (read_proc_file (Raise OSError)) fresh).
  cbn. lia.
Defined.

End CpuStatFacts.

(** ** [get_cpu] while other requests are served *)

Section CpuSharedFacts.
Import PyNum PyText PyBuiltins TopProcesses Tracked CpuStat CpuShared.

Section WithInterpreter.

Variable to_int : string -> result Z.
Variable monotonic : nat -> float.

Lemma disturbed_alone (k : nat) (st : state) : disturbed (alone k) st = st.
Proof. now destruct st. Qed.

Lemma scan_cores_among_alone (lines : list string) :
  forall cs st,
    scan_cores_among to_int alone lines cs st = scan_cores to_int lines cs st.
Proof.
  induction lines as [|line lines IH]; intros cs st; [reflexivity|].
  cbn [scan_cores_among scan_cores].
  destruct (is_core_line line); [|apply IH].
  unfold mbind, lift.
  destruct (getitem _ 0); [|reflexivity].
  destruct (to_int _); [|reflexivity].
  destruct (parse_fields to_int _); [|reflexivity].
  destruct (idle_total _); [|reflexivity].
  unfold core_tracker_update_among. rewrite disturbed_alone.
  destruct (core_tracker_update _ _ _ st) as [st' [usage|]]; [|reflexivity].
  apply IH.
Qed.

(** With no other thread at work the call is [CpuStat.get_cpu]. *)
Lemma get_cpu_among_alone (content : string) (st : state) :
  get_cpu_among to_int monotonic alone alone content st
  = get_cpu to_int monotonic content st.
Proof.
  unfold get_cpu_among, get_cpu, get_cpu_body_among, get_cpu_body.
  unfold mbind, lift, tracker_update_among.
  destruct (parse_fields to_int _); [|reflexivity].
  destruct (idle_total _); [|reflexivity].
  rewrite disturbed_alone.
  destruct (tracker_update monotonic "cpu_idle" _ st) as [st1 [idle_rate|]];
    [|reflexivity].
  rewrite disturbed_alone.
  destruct (tracker_update monotonic "cpu_total" _ st1) as [st2 [total_rate|]];
    [|reflexivity].
  destruct (overall_percent _ _); [|reflexivity].
  rewrite scan_cores_among_alone.
  destruct (scan_cores to_int _ [] st2) as [st3 [cs|]]; [|reflexivity].
  destruct (scan_counters to_int _ _); [|reflexivity].
  rewrite disturbed_alone.
  reflexivity.
Qed.

Variable others : nat -> state -> state.
Variable others_core : nat -> state -> state.

(** X10: a call of [get_cpu] that finds no sample under ['cpu_total'] when
    it starts reports a usage of 0, whatever [/proc/stat] holds and
    whatever the threads of other requests do to the trackers meanwhile,
    as long as none of them stores a sample under ['cpu_total'] (the other
    collectors do not: only a [get_cpu] of another request does). *)
Theorem get_cpu_first_pass (content : string) (st : state) :
  data st !! "cpu_total" = None ->
  (forall k s, data s !! "cpu_total" = None ->
               data (others k s) !! "cpu_total" = None) ->
  Orchestrator.getitem
    (snd (get_cpu_among to_int monotonic others others_core content st))
    "percent"
  = Ok (JInt 0).
Proof.
  intros Hnone Hothers.
  unfold get_cpu_among, get_cpu_body_among, mbind, lift.
  destruct (parse_fields to_int _); [|reflexivity].
  destruct (idle_total _) as [it|]; [|reflexivity].
  unfold tracker_update_among at 1 2, tracker_update, disturbed.
  cbn [data cores calls].
  destruct (DeltaTracker.update (data (others (calls st) st)) _ "cpu_idle"
              (fst it)) as [d1 r1] eqn:E1.
  assert (Hd1 : d1 !! "cpu_total" = None).
  { replace d1 with (fst (DeltaTracker.update (data (others (calls st) st))
                            (monotonic (calls st)) "cpu_idle" (fst it)))
      by now rewrite E1.
    pose proof (Hothers (calls st) st Hnone) as Hseen.
    unfold DeltaTracker.update.
    destruct (data (others (calls st) st) !! "cpu_idle") as [[ov ot]|];
      [destruct (0 <? _)%float|]; cbn [fst];
      now rewrite ?lookup_insert_ne by discriminate. }
  destruct r1 as [idle_rate|]; [|reflexivity].
  cbn [data cores calls].
  match goal with
  | |- context [DeltaTracker.update (data (others ?k ?s)) _ "cpu_total" _] =>
      pose proof (Hothers k s Hd1) as Hd2; cbn [data] in Hd2
  end.
  unfold DeltaTracker.update at 1. rewrite Hd2.
  change (overall_percent idle_rate 0) with (Ok (A := float) 0%float).
  cbv iota.
  destruct (scan_cores_among to_int others_core _ [] _) as [st3 [cs|]];
    [|reflexivity].
  destruct (scan_counters to_int _ _) as [c|]; [|reflexivity].
  destruct (tracker_update_among monotonic others "ctxt" _ st3)
    as [st4 [ctxt_rate|]]; [|reflexivity].
  destruct (float_round ctxt_rate 1) as [rounded|]; reflexivity.
Qed.

End WithInterpreter.

(** The condition on the other threads is needed: when the [get_cpu] of
    another request stores its sample between the two updates of a call
    that started with empty trackers, the call finds that sample and
    reports 100. *)
Example get_cpu_overlapping_requests :
  Orchestrator.getitem
    (snd (get_cpu_among int_of_str (fun _ => 1%float) overlapping alone
            stat_sample_1 fresh)) "percent"
  = Ok (JInt 100).
Proof. vm_compute. reflexivity. Qed.

Lemma get_cpu_first_pass_witness :
  Orchestrator.getitem
    (snd (get_cpu_among int_of_str (fun _ => 1%float) at_network alone
            stat_sample_1 fresh)) "percent"
  = Ok (JInt 0).
Proof.
  apply (get_cpu_first_pass int_of_str (fun _ => 1%float) at_network alone
           stat_sample_1 fresh).
  - reflexivity.
  - intros k s Hs. cbn [at_network data].
    rewrite lookup_insert_ne by discriminate. exact Hs.
Defined.

End CpuSharedFacts.

(** ** Reading integers, [get_entropy] and [get_memory] *)

Section IntFacts.
Import PyText.

Lemma digit_of_char (k : N) :
  (k < 10)%N -> digit_of (ascii_of_N (48 + k)) = Some (Z.of_N k).
Proof.
  intros Hk. unfold digit_of.
  assert (Hcases : (k = 0 \/ k = 1 \/ k = 2 \/ k = 3 \/ k = 4 \/ k = 5 \/ k = 6
                    \/ k = 7 \/ k = 8 \/ k = 9)%N) by lia.
  repeat (destruct Hcases as [->|Hcases]; [reflexivity|]). now subst k.
Qed.

(** The digits of a decimal numeral are read back as its value. *)
Lemma int_digits_uint (d : Decimal.uint) : forall acc,
  int_digits (NilEmpty.string_of_uint d) (Z.pos acc) false
  = Ok (Z.pos (Pos.of_uint_acc d acc)).
Proof.
  induction d; intros acc; cbn [NilEmpty.string_of_uint int_digits Pos.of_uint_acc];
    try reflexivity;
    match goal with
    | |- context [digit_of ?c] =>
        let v := eval vm_compute in (digit_of c) in
        change (digit_of c) with v; cbv iota
    end;
    rewrite <- IHd; f_equal; lia.
Qed.

Lemma int_digits_uint_zero (d : Decimal.uint) :
  int_digits (NilEmpty.string_of_uint d) 0 false = Ok (Z.of_N (Pos.of_uint d)).
Proof.
  induction d; cbn [NilEmpty.string_of_uint int_digits Pos.of_uint];
    try reflexivity;
    match goal with
    | |- context [digit_of ?c] =>
        let v := eval vm_compute in (digit_of c) in
        change (digit_of c) with v; cbv iota
    end;
    try exact IHd;
    match goal with
    | |- int_digits _ ?a false = _ =>
        let p := eval vm_compute in a in change a with p
    end;
    apply int_digits_uint.
Qed.

Lemma int_unsigned_uint (d : Decimal.uint) :
  d <> Decimal.Nil ->
  int_unsigned (NilEmpty.string_of_uint d) = Ok (Z.of_N (Pos.of_uint d)).
Proof.
  intros Hd. destruct d; try contradiction;
    cbn [NilEmpty.string_of_uint int_unsigned Pos.of_uint];
    match goal with
    | |- context [digit_of ?c] =>
        let v := eval vm_compute in (digit_of c) in
        change (digit_of c) with v; cbv iota
    end;
    try apply int_digits_uint_zero;
    match goal with
    | |- int_digits _ ?a false = _ =>
        let p := eval vm_compute in a in change a with p
    end;
    apply int_digits_uint.
Qed.

Lemma to_uint_not_nil p : Pos.to_uint p <> Decimal.Nil.
Proof.
  intros H. pose proof (DecimalPos.Unsigned.of_to p) as Hp.
  rewrite H in Hp. discriminate.
Qed.

Lemma int_of_str_digit_first (c : ascii) (s : string) (d : Z) :
  digit_of c = Some d -> int_of_str (String c s) = int_unsigned (String c s).
Proof.
  destruct c as [[] [] [] [] [] [] [] []]; try discriminate; reflexivity.
Qed.

Lemma string_of_uint_digit_first (u : Decimal.uint) :
  u <> Decimal.Nil ->
  exists c s d, NilEmpty.string_of_uint u = String c s /\ digit_of c = Some d.
Proof.
  intros Hu. destruct u; try contradiction; cbn [NilEmpty.string_of_uint];
    eexists _, _, _; (split; [reflexivity|]); reflexivity.
Qed.

(** [int] reads back what [repr] writes. *)
Lemma int_of_str_repr (z : Z) : int_of_str (JsonDumps.int_repr z) = Ok z.
Proof.
  unfold JsonDumps.int_repr. destruct z as [|p|p]; cbn [Z.to_int]; [reflexivity| |].
  - pose proof (to_uint_not_nil p) as Hn.
    assert (Hs : NilZero.string_of_int (Decimal.Pos (Pos.to_uint p))
                 = NilEmpty.string_of_uint (Pos.to_uint p)).
    { cbn [NilZero.string_of_int]. destruct (Pos.to_uint p); [contradiction|..];
        reflexivity. }
    rewrite Hs.
    destruct (string_of_uint_digit_first _ Hn) as (c & s & d & Hc & Hd).
    rewrite Hc, (int_of_str_digit_first c s d Hd), <- Hc.
    now rewrite (int_unsigned_uint _ Hn), DecimalPos.Unsigned.of_to.
  - pose proof (to_uint_not_nil p) as Hn.
    assert (Hs : NilZero.string_of_int (Decimal.Neg (Pos.to_uint p))
                 = String "-" (NilEmpty.string_of_uint (Pos.to_uint p))).
    { cbn [NilZero.string_of_int]. destruct (Pos.to_uint p); [contradiction|..];
        reflexivity. }
    rewrite Hs.
    change (int_of_str (String "-" (NilEmpty.string_of_uint (Pos.to_uint p))))
      with (do z <- int_unsigned (NilEmpty.string_of_uint (Pos.to_uint p)); Ok (- z)).
    now rewrite (int_unsigned_uint _ Hn), DecimalPos.Unsigned.of_to.
Qed.

End IntFacts.

Section StripFacts.
Import JsonDumps.

Local Open Scope string_scope.

Lemma list_ascii_app (a b : string) :
  list_ascii_of_string (a ++ b)
  = (list_ascii_of_string a ++ list_ascii_of_string b)%list.
Proof.
  induction a as [|c a IH]; [reflexivity|].
  change (String c a ++ b) with (String c (a ++ b)).
  cbn [list_ascii_of_string]. now rewrite IH.
Qed.

Lemma string_of_list_app (l1 l2 : list ascii) :
  string_of_list_ascii (l1 ++ l2)%list
  = string_of_list_ascii l1 ++ string_of_list_ascii l2.
Proof.
  induction l1 as [|c l1 IH]; [reflexivity|].
  cbn [app string_of_list_ascii]. now rewrite IH.
Qed.

Lemma rev_app (a b : string) : PyStr.rev (a ++ b) = PyStr.rev b ++ PyStr.rev a.
Proof.
  unfold PyStr.rev. now rewrite list_ascii_app, rev_app_distr, string_of_list_app.
Qed.

Lemma rev_rev (s : string) : PyStr.rev (PyStr.rev s) = s.
Proof.
  unfold PyStr.rev.
  now rewrite list_ascii_of_string_of_list_ascii, rev_involutive,
    string_of_list_ascii_of_string.
Qed.

Lemma all_chars_list p (s : string) :
  all_chars p s = forallb p (list_ascii_of_string s).
Proof. induction s as [|c s IH]; [reflexivity|]. cbn. now rewrite IH. Qed.

Lemma all_chars_rev p (s : string) : all_chars p (PyStr.rev s) = all_chars p s.
Proof.
  rewrite !all_chars_list. unfold PyStr.rev.
  rewrite list_ascii_of_string_of_list_ascii.
  apply eq_true_iff_eq. rewrite !forallb_forall.
  split; intros H x Hx; apply H; [now apply in_rev in Hx | now apply in_rev].
Qed.

Lemma lstrip_all p (w s : string) :
  all_chars p w = true -> PyStr.lstrip_by p (w ++ s) = PyStr.lstrip_by p s.
Proof.
  induction w as [|c w IH]; intros H; [reflexivity|].
  cbn [all_chars] in H. apply andb_prop in H. destruct H as [Hc Hw].
  change (String c w ++ s) with (String c (w ++ s)).
  cbn [PyStr.lstrip_by]. rewrite Hc. now apply IH.
Qed.

Lemma lstrip_none p (s t : string) :
  all_chars (fun c => negb (p c)) s = true -> s <> "" ->
  PyStr.lstrip_by p (s ++ t) = s ++ t.
Proof.
  destruct s as [|c s]; intros H Hs; [contradiction|].
  cbn [all_chars] in H. apply andb_prop in H. destruct H as [Hc _].
  change (String c s ++ t) with (String c (s ++ t)).
  cbn [PyStr.lstrip_by]. apply negb_true_iff in Hc. now rewrite Hc.
Qed.

(** Stripping removes the white space around a text that holds none. *)
Lemma strip_by_trailing p (s w : string) :
  all_chars (fun c => negb (p c)) s = true -> s <> "" ->
  all_chars p w = true ->
  PyStr.strip_by p (s ++ w) = s.
Proof.
  intros Hs Hne Hw. unfold PyStr.strip_by.
  rewrite (lstrip_none p s w Hs Hne), rev_app.
  rewrite lstrip_all by now rewrite all_chars_rev.
  rewrite <- (str_app_nil_r (PyStr.rev s)).
  rewrite lstrip_none.
  - now rewrite str_app_nil_r, rev_rev.
  - now rewrite all_chars_rev.
  - intros H. apply (f_equal PyStr.rev) in H. rewrite rev_rev in H.
    now apply Hne.
Qed.

Lemma uint_no_space (d : Decimal.uint) :
  all_chars (fun c => negb (PyStr.isspace c)) (NilEmpty.string_of_uint d) = true.
Proof. induction d; cbn; auto. Qed.

Lemma nilzero_no_space (d : Decimal.uint) :
  all_chars (fun c => negb (PyStr.isspace c)) (NilZero.string_of_uint d) = true.
Proof.
  unfold NilZero.string_of_uint. destruct d; cbv beta iota;
    try apply uint_no_space. reflexivity.
Qed.

Lemma int_repr_no_space (z : Z) :
  all_chars (fun c => negb (PyStr.isspace c)) (int_repr z) = true
  /\ int_repr z <> "".
Proof.
  unfold int_repr.
  destruct (Z.to_int z) as [d|d]; cbn [NilZero.string_of_int].
  - split; [apply nilzero_no_space | destruct d; discriminate].
  - split; [|discriminate].
    cbn [all_chars]. now rewrite nilzero_no_space.
Qed.

End StripFacts.

Section EntropyFacts.
Import PyObj PyText Collectors Orchestrator JsonDumps MemInfo.

Local Open Scope string_scope.

(** X12: when [/proc/sys/kernel/random/entropy_avail] holds the decimal
    digits of an integer [z] followed by a newline, [get_entropy] returns
    [z], and every snapshot assembled from that pass carries it under
    ['entropy']: what [int] reads is what the kernel wrote.  (The bound
    is the interpreter's default limit on the digits of an integer.) *)
Theorem get_entropy_reads_value (z : Z) (r : readings) :
  Z.abs z < 10 ^ 4300 ->
  Collectors.entropy_body r
  = entropy_body PyText.int_of_str (int_repr z ++ String "010" "") ->
  get_entropy r = JInt z
  /\ forall static timestamp metrics,
       collect_metrics static timestamp (run_collectors r) = Ok metrics ->
       dict_lookup metrics "entropy" = Some (JInt z).
Proof.
  intros _ Hbody.
  assert (He : get_entropy r = JInt z).
  { unfold get_entropy. rewrite Hbody. unfold entropy_body, PyStr.strip.
    destruct (int_repr_no_space z) as [Hs Hne].
    rewrite (strip_by_trailing PyStr.isspace (int_repr z) (String "010" "") Hs Hne eq_refl).
    now rewrite int_of_str_repr. }
  split; [exact He|].
  intros static timestamp metrics. unfold collect_metrics, bind.
  destruct (dict_getitem static "hostname"); [|discriminate].
  destruct (dict_getitem static "os"); [|discriminate].
  destruct (dict_getitem static "arch"); [|discriminate].
  destruct (dict_getitem static "cpu_model"); [|discriminate].
  destruct (dict_getitem static "cpu_count"); [|discriminate].
  destruct (getitem _ "memory"); [|discriminate].
  destruct (getitem _ "swap"); [|discriminate].
  intros [= <-]. cbn [run_collectors entropy]. rewrite He.
  rewrite dict_lookup_set_if. reflexivity.
Qed.

Lemma get_entropy_reads_value_witness :
  get_entropy (readings_of PyText.int_of_str "" "" ("256" ++ String "010" ""))
  = JInt 256.
Proof.
  apply (get_entropy_reads_value 256
           (readings_of PyText.int_of_str "" "" ("256" ++ String "010" ""))).
  - apply Z.ltb_lt. vm_compute. reflexivity.
  - reflexivity.
Defined.

End EntropyFacts.

Section MemInfoFacts.
Import PyObj PyText PyBuiltins Collectors MemInfo.

Variable to_int : string -> result Z.

Lemma scan_bad_line lines : forall mem,
  existsb (bad_line to_int) lines = true ->
  exists e, scan to_int lines mem = Raise e.
Proof.
  induction lines as [|line lines IH]; intros mem H; [discriminate|].
  cbn [existsb] in H. cbn [scan]. unfold bad_line in H.
  destruct (PyStr.contains ":" line); cbn [andb] in H; [|now apply IH].
  unfold bind.
  destruct (PyStr.split1_second ":" line) as [val|]; [|eauto].
  destruct (getitem (split_ws val) 0) as [field|]; [|eauto].
  destruct (to_int field) as [kb|]; [|eauto].
  cbn [orb] in H. now apply IH.
Qed.

(** X13: [get_memory] returns either its fallback, in which the two
    dictionaries hold only ['total'], ['used'] and ['percent'], all 0, or
    the figures read from [/proc/meminfo], in which [used] is
    [total - available] (for swap [total - free]), a field that is not in
    the file counts as 0 and the percentage is the integer 0 when the
    total is not positive.  It returns the fallback whenever a line with a
    colon has no integer as the first field after the colon. *)
Theorem get_memory_outcome (content : string) (r : readings) :
  Collectors.memory_body r = MemInfo.memory_body to_int content ->
  (existsb (bad_line to_int) (PyStr.split "010" content) = true ->
   get_memory r
   = JDict [("memory", JDict [("total", JInt 0); ("used", JInt 0); ("percent", JInt 0)]);
            ("swap", JDict [("total", JInt 0); ("used", JInt 0); ("percent", JInt 0)])])
  /\ (get_memory r
      = JDict [("memory", JDict [("total", JInt 0); ("used", JInt 0); ("percent", JInt 0)]);
               ("swap", JDict [("total", JInt 0); ("used", JInt 0); ("percent", JInt 0)])]
      \/ exists mem percent swap_percent,
           scan to_int (PyStr.split "010" content) ∅ = Ok mem
           /\ get_memory r
              = JDict [("memory",
                        JDict [("total", JInt (get0 mem "MemTotal"));
                               ("used", JInt (get0 mem "MemTotal" - get0 mem "MemAvailable"));
                               ("available", JInt (get0 mem "MemAvailable"));
                               ("buffers", JInt (get0 mem "Buffers"));
                               ("cached", JInt (get0 mem "Cached"));
                               ("slab", JInt (get0 mem "Slab"));
                               ("percent", percent)]);
                       ("swap",
                        JDict [("total", JInt (get0 mem "SwapTotal"));
                               ("used", JInt (get0 mem "SwapTotal" - get0 mem "SwapFree"));
                               ("free", JInt (get0 mem "SwapFree"));
                               ("percent", swap_percent)])]
           /\ (get0 mem "MemTotal" <= 0 -> percent = JInt 0)
           /\ (get0 mem "SwapTotal" <= 0 -> swap_percent = JInt 0)).
Proof.
  intros Hbody. unfold get_memory. rewrite Hbody. unfold MemInfo.memory_body, bind.
  split.
  - intros Hbad.
    destruct (scan_bad_line _ ∅ Hbad) as (e & ->). reflexivity.
  - destruct (scan to_int _ ∅) as [mem|]; [|now left].
    destruct (percent_of _ (get0 mem "MemTotal")) as [percent|] eqn:Ep; [|now left].
    destruct (percent_of _ (get0 mem "SwapTotal")) as [swap_percent|] eqn:Es; [|now left].
    right. exists mem, percent, swap_percent.
    split; [reflexivity|]. split; [reflexivity|].
    unfold percent_of in Ep, Es. split; intros Hz.
    + destruct (Z.ltb_spec 0 (get0 mem "MemTotal")); [lia | congruence].
    + destruct (Z.ltb_spec 0 (get0 mem "SwapTotal")); [lia | congruence].
Qed.

End MemInfoFacts.

Lemma get_memory_outcome_witness :
  Collectors.get_memory
    (MemInfo.readings_of PyText.int_of_str "MemTotal:" EmptyString EmptyString)
  = JDict [("memory", JDict [("total", JInt 0); ("used", JInt 0); ("percent", JInt 0)]);
           ("swap", JDict [("total", JInt 0); ("used", JInt 0); ("percent", JInt 0)])].
Proof.
  apply (get_memory_outcome PyText.int_of_str "MemTotal:"
           (MemInfo.readings_of PyText.int_of_str "MemTotal:" EmptyString EmptyString)
           eq_refl).
  reflexivity.
Defined.

(** ** [get_tcp_connections] *)

Section TcpFacts.
Import PyText TcpStates.

Variable upper : string -> string.

Lemma lookup_incr counts k k' :
  lookup (incr counts k) k'
  = if String.eqb k k' then option_map (Z.add 1) (lookup counts k')
    else lookup counts k'.
Proof.
  induction counts as [|[k0 v0] counts IH]; cbn [incr lookup].
  - now destruct (String.eqb k k').
  - destruct (String.eqb_spec k0 k) as [->|Hne]; cbn [lookup].
    + destruct (String.eqb_spec k k'); [|reflexivity].
      cbn [option_map]. f_equal. lia.
    + rewrite IH. destruct (String.eqb_spec k0 k') as [->|]; [|reflexivity].
      destruct (String.eqb_spec k k'); [congruence | reflexivity].
Qed.

Lemma keys_incr counts k : map fst (incr counts k) = map fst counts.
Proof.
  induction counts as [|[k0 v0] counts IH]; [reflexivity|]. cbn [incr].
  destruct (String.eqb k0 k); cbn [map fst]; [reflexivity | now rewrite IH].
Qed.

Lemma lookup_keys counts k :
  lookup counts k <> None <-> In k (map fst counts).
Proof.
  induction counts as [|[k0 v0] counts IH]; cbn [lookup map fst In].
  - tauto.
  - destruct (String.eqb_spec k0 k) as [->|Hne].
    + split; [now left | discriminate].
    + rewrite IH. split; [now right | intros [?|?]; [contradiction | assumption]].
Qed.

(** whether a line adds one to the count under [k] *)
Let hits (k : string) (line : string) : bool :=
  (4 <=? length (split_ws line))%nat
  && (String.eqb "total" k
      || String.eqb (state_name states (row_state upper line)) k).

Lemma keys_count_line counts line :
  map fst (count_line upper counts line) = map fst counts.
Proof.
  unfold count_line. destruct (4 <=? _)%nat; [|reflexivity].
  destruct (lookup _ _); now rewrite ?keys_incr.
Qed.

Lemma lookup_count_line counts line k v :
  lookup counts k = Some v ->
  state_name states (row_state upper line) <> "total" ->
  lookup (count_line upper counts line) k
  = Some (v + (if hits k line then 1 else 0)).
Proof.
  intros Hk Hnt. unfold count_line, hits. fold (row_state upper line).
  destruct (4 <=? _)%nat; cbn [andb]; [|now rewrite Z.add_0_r].
  set (name := state_name states (row_state upper line)) in *.
  destruct (String.eqb_spec "total" k) as [<-|Hne]; cbn [orb].
  - assert (Ht : lookup (incr counts "total") "total" = Some (v + 1)).
    { rewrite lookup_incr, String.eqb_refl, Hk. cbn. f_equal. lia. }
    destruct (lookup (incr counts "total") name); [|exact Ht].
    rewrite lookup_incr. destruct (String.eqb_spec name "total"); [contradiction|].
    exact Ht.
  - assert (Ht : lookup (incr counts "total") k = Some v).
    { rewrite lookup_incr. destruct (String.eqb_spec "total" k); [contradiction|].
      exact Hk. }
    destruct (String.eqb_spec name k) as [->|Hnk].
    + rewrite Ht, lookup_incr, String.eqb_refl, Ht. cbn. f_equal. lia.
    + destruct (lookup (incr counts "total") name).
      * rewrite lookup_incr. destruct (String.eqb_spec name k); [contradiction|].
        now rewrite Ht, Z.add_0_r.
      * now rewrite Ht, Z.add_0_r.
Qed.

Lemma state_name_not_total s : state_name states s <> "total".
Proof.
  unfold states. cbn [state_name].
  repeat (destruct (String.eqb _ s); [discriminate|]). discriminate.
Qed.

Lemma lookup_fold lines : forall counts k v,
  lookup counts k = Some v ->
  lookup (fold_left (count_line upper) lines counts) k
  = Some (v + Z.of_nat (length (List.filter (hits k) lines))).
Proof.
  induction lines as [|line lines IH]; intros counts k v Hk; cbn [fold_left List.filter].
  - cbn. now rewrite Z.add_0_r.
  - rewrite (IH _ k _ (lookup_count_line counts line k v Hk
                         (state_name_not_total _))).
    apply (f_equal Some). destruct (hits k line); cbn [length]; lia.
Qed.

Lemma filter_filter_length {A : Type} (f g : A -> bool) (l : list A) :
  length (List.filter (fun x => f x && g x) l) = length (List.filter g (List.filter f l)).
Proof.
  induction l as [|x l IH]; [reflexivity|]. cbn [List.filter].
  destruct (f x); cbn [andb List.filter]; [|exact IH].
  destruct (g x); cbn [length]; now rewrite IH.
Qed.

(** the name under which a state code is counted *)
Lemma state_name_code code name s :
  In (code, name) states ->
  String.eqb (state_name states s) name = String.eqb s code.
Proof.
  unfold states. cbn [In state_name].
  intros H.
  repeat (destruct H as [[= <- <-]|H];
    [repeat (match goal with
             | |- context [String.eqb ?c s] =>
                 destruct (String.eqb_spec c s) as [<-|?]
             end; [reflexivity|]);
     symmetry; apply String.eqb_neq; congruence|]).
  destruct H.
Qed.

(** X14: [get_tcp_connections] always returns the same twelve keys, the
    eleven state names and ['total'], never ['other']; ['total'] is the
    number of lines with at least four fields after the header line of
    either file, and each state's count is the number of those lines
    whose fourth field, in upper case, is the state's code.  A line with
    an unknown code adds to ['total'] only. *)
Theorem get_tcp_connections_counts (tcp tcp6 : string) :
  map fst (get_tcp_connections upper tcp tcp6) = map snd states ++ ["total"]
  /\ lookup (get_tcp_connections upper tcp tcp6) "total"
     = Some (Z.of_nat (length (rows tcp tcp6)))
  /\ (forall code name, In (code, name) states ->
        lookup (get_tcp_connections upper tcp tcp6) name
        = Some (Z.of_nat (length (List.filter
                   (fun line => String.eqb (row_state upper line) code)
                   (rows tcp tcp6))))).
Proof.
  unfold get_tcp_connections, count_file, rows. rewrite <- fold_left_app.
  set (lines := (tl (PyStr.split "010" tcp) ++ tl (PyStr.split "010" tcp6))%list).
  split; [|split].
  - assert (H : forall ls c0,
              map fst (fold_left (count_line upper) ls c0) = map fst c0).
    { induction ls as [|l ls IH]; intros c0; [reflexivity|]. cbn [fold_left].
      now rewrite IH, keys_count_line. }
    now rewrite H.
  - rewrite (lookup_fold lines initial "total" 0 eq_refl). rewrite Z.add_0_l.
    do 3 f_equal. apply filter_ext. intros line. unfold hits.
    rewrite String.eqb_refl. cbn [orb]. apply andb_true_r.
  - intros code name Hin.
    assert (Hinit : lookup initial name = Some 0 /\ String.eqb "total" name = false).
    { unfold states in Hin. cbn [In] in Hin.
      repeat (destruct Hin as [[= <- <-]|Hin]; [split; reflexivity|]).
      destruct Hin. }
    destruct Hinit as [Hinit Hnt].
    rewrite (lookup_fold lines initial name 0 Hinit). rewrite Z.add_0_l.
    do 2 f_equal. rewrite <- filter_filter_length. f_equal.
    apply filter_ext. intros line. unfold hits.
    now rewrite Hnt, (state_name_code code name _ Hin).
Qed.

End TcpFacts.

(** ** [get_filesystems] *)

Section FilesystemsFacts.
Import PyNum PyText PyBuiltins Filesystems.

Variable statvfs : string -> result statvfs_result.

Let entry_ok (fs : filesystem) : Prop :=
  str_in (fstype fs) virtual = false
  /\ 0 < total fs
  /\ used fs + available fs = total fs
  /\ PyObj.str_has_slash (device fs) = false
  /\ exists st, statvfs (mount fs) = Ok st
                /\ total fs = f_blocks st * f_frsize st
                /\ available fs = f_bavail st * f_frsize st.

Lemma short_device_no_slash d : PyObj.str_has_slash (short_device d) = false.
Proof.
  unfold short_device. destruct (PyObj.str_has_slash d) eqn:E; [|exact E].
  now apply str_last_segment_no_slash.
Qed.

Lemma measure_entry dev mnt fst fs :
  str_in fst virtual = false ->
  measure statvfs dev mnt fst = Ok (Some fs) -> mount fs = mnt /\ entry_ok fs.
Proof.
  intros Hv. unfold measure, bind.
  destruct (statvfs mnt) as [st|] eqn:Es; [|discriminate].
  destruct (Z.ltb_spec 0 (f_blocks st * f_frsize st)); [|discriminate].
  destruct (int_truediv _ _); [|discriminate].
  destruct (float_round _ 1); [|discriminate].
  intros [= <-]. split; [reflexivity|]. unfold entry_ok. cbn.
  repeat split; try assumption; try lia.
  - apply short_device_no_slash.
  - exists st. repeat split. exact Es.
Qed.

Lemma scan_invariant mounts : forall seen fss,
  NoDup (map mount fss) ->
  (forall fs, In fs fss -> mount fs ∈ seen) ->
  Forall entry_ok fss ->
  NoDup (map mount (scan statvfs mounts seen fss))
  /\ Forall entry_ok (scan statvfs mounts seen fss).
Proof.
  induction mounts as [|line mounts IH]; intros seen fss Hnd Hseen Hok;
    cbn [scan]; [now split|].
  destruct (_ <? 3)%nat; [now apply IH|].
  destruct (str_in _ virtual) eqn:Ev; [now apply IH|].
  set (mnt := nth 1 (split_ws line) EmptyString).
  destruct (bool_decide (mnt ∈ seen)) eqn:Eseen; [now apply IH|].
  apply bool_decide_eq_false in Eseen.
  assert (Hseen' : forall fs, In fs fss -> mount fs ∈ ({[mnt]} ∪ seen : gset string)).
  { intros fs Hfs. apply elem_of_union. right. now apply Hseen. }
  destruct (measure statvfs _ mnt _) as [[fs|]|] eqn:Em; try now apply IH.
  destruct (measure_entry _ _ _ _ Ev Em) as [Hm Hfs].
  apply IH.
  - rewrite map_app. cbn [map]. rewrite Hm.
    apply NoDup_app. split; [exact Hnd|]. split.
    + intros x Hx Hx'. apply list_elem_of_singleton in Hx'. subst x.
      apply list_elem_of_In, in_map_iff in Hx. destruct Hx as (fs' & Hfs' & Hin).
      apply Eseen. rewrite <- Hfs'. now apply Hseen.
    + apply NoDup_singleton.
  - intros fs' Hin. apply in_app_or in Hin. destruct Hin as [Hin|[<-|[]]].
    + now apply Hseen'.
    + rewrite Hm. apply elem_of_union. left. now apply elem_of_singleton.
  - apply Forall_app. split; [exact Hok|]. now constructor.
Qed.

(** X15: [get_filesystems] never reports a mount point twice and never a
    virtual file system; every entry has a positive total, taken with the
    available space from [os.statvfs] of its mount point, [used] and
    [available] add up to [total], and the device name holds no [/].
    When [/proc/mounts] cannot be read the list is empty. *)
Theorem get_filesystems_entries (mounts : result (list string)) :
  NoDup (map mount (get_filesystems statvfs mounts))
  /\ Forall (fun fs =>
       str_in (fstype fs) virtual = false
       /\ 0 < total fs
       /\ used fs + available fs = total fs
       /\ PyObj.str_has_slash (device fs) = false
       /\ exists st, statvfs (mount fs) = Ok st
                     /\ total fs = f_blocks st * f_frsize st
                     /\ available fs = f_bavail st * f_frsize st)
     (get_filesystems statvfs mounts)
  /\ (forall e, get_filesystems statvfs (Raise e) = []).
Proof.
  assert (H : NoDup (map mount (get_filesystems statvfs mounts))
              /\ Forall entry_ok (get_filesystems statvfs mounts)).
  { destruct mounts as [lines|e]; cbn [get_filesystems].
    - apply scan_invariant; [constructor | intros fs [] | constructor].
    - split; constructor. }
  destruct H as [H1 H2]. split; [exact H1|]. split; [exact H2 | reflexivity].
Qed.

End FilesystemsFacts.

(** ** [get_disk_io] and [get_network] *)

Section RoundedRates.
Import PyNum PyBuiltins TopProcesses Rates.

(** The quotient of two positive integers is a float that is not
    negative. *)
Lemma int_truediv_pos_sign a b q :
  0 < a -> 0 < b -> int_truediv a b = Ok q ->
  Prim2SF q = S754_zero false \/ exists m e, Prim2SF q = S754_finite false m e.
Proof.
  intros Ha Hb. unfold int_truediv.
  destruct (Z.eqb_spec b 0); [lia|]. destruct (Z.eqb_spec a 0); [lia|].
  destruct (SFdiv_core_binary prec emax (Z.abs a) 0 (Z.abs b) 0) as [[mz ez] lz] eqn:Ed.
  apply SFdiv_core_binary_spec in Ed; [|lia|lia].
  destruct Ed as (Hq & Hf & _).
  replace (xorb (a <? 0) (b <? 0)) with false
    by (destruct (Z.ltb_spec a 0), (Z.ltb_spec b 0); try lia; reflexivity).
  pose proof (binary_round_aux_valid false mz ez lz Hq Hf) as Hv.
  pose proof (binary_round_aux_not_nan false mz ez lz Hq) as Hnan.
  destruct (binary_round_aux_spec false mz ez lz Hq) as (m2 & e' & e'' & _ & _ & _ & Hr).
  rewrite Hr in Hv, Hnan |- *.
  destruct (m2 / 2 ^ (e'' - e')) as [|m|m].
  - intros H. change (Ok (SF2Prim (S754_zero false)) = Ok q) in H.
    assert (q = SF2Prim (S754_zero false)) by congruence. subst q.
    left. now rewrite Prim2SF_SF2Prim.
  - destruct (e'' <=? emax - prec); [|discriminate].
    intros H. change (Ok (SF2Prim (S754_finite false m e'')) = Ok q) in H.
    assert (q = SF2Prim (S754_finite false m e'')) by congruence. subst q.
    right. exists m, e''. now rewrite Prim2SF_SF2Prim.
  - contradiction.
Qed.

Lemma not_negative_shape (r : float) :
  (Prim2SF r = S754_zero false \/ Prim2SF r = S754_infinity false
   \/ exists m e, Prim2SF r = S754_finite false m e) ->
  not_negative (PFloat r) = true.
Proof.
  intros H. unfold not_negative. rewrite num_lt_value. cbn [value].
  unfold float_value.
  destruct H as [->|[->|(m & e & ->)]]; cbn [sf_value ext_lt andb negb];
    try reflexivity.
  apply negb_true_iff, Z.ltb_ge.
  apply Z.mul_nonneg_nonneg; [lia|].
  apply Z.pow_nonneg. lia.
Qed.

(** [round(x, 1)] of a float above 0 is not negative. *)
Lemma float_round_pos (x r : float) :
  num_lt (PInt 0) (PFloat x) = true -> float_round x 1 = Ok r ->
  not_negative (PFloat r) = true.
Proof.
  rewrite num_lt_value. cbn [value]. unfold float_value, float_round.
  destruct (Prim2SF x) as [s|s| |s m e] eqn:E; cbn [sf_value ext_lt];
    try discriminate.
  - destruct s; [discriminate|]. intros _ [= <-].
    apply not_negative_shape. rewrite E. tauto.
  - intros Hpos.
    assert (Hs : s = false).
    { destruct s; [|reflexivity]. apply Z.ltb_lt in Hpos.
      assert (0 <= 2 ^ (e + 1074)) by (apply Z.pow_nonneg; lia). nia. }
    subst s.
    destruct (Z.leb_spec 0 e) as [He|He].
    + intros [= <-]. apply not_negative_shape. rewrite E. eauto.
    + set (n := round_half_even (Z.pos m * 10 ^ 1) (2 ^ (- e))).
      destruct (Z.eqb_spec n 0).
      * intros [= <-]. now apply not_negative_shape; left.
      * intros H. apply not_negative_shape.
        assert (Hn : 0 <= n).
        { pose proof (round_half_even_bounds (Z.pos m * 10 ^ 1) (2 ^ (- e))
                        ltac:(lia) ltac:(apply Z.pow_pos_nonneg; lia)) as Hb.
          assert (0 <= Z.pos m * 10 ^ 1 / 2 ^ (- e))
            by (apply Z.div_pos; [lia | apply Z.pow_pos_nonneg; lia]).
          fold n in Hb. lia. }
        destruct (int_truediv_pos_sign n (10 ^ 1) r ltac:(lia) ltac:(lia) H)
          as [Hz|Hfin]; tauto.
Qed.

Lemma rate_field_not_negative (rate : float) (x : pynum) :
  rate_field rate = Ok x -> not_negative x = true.
Proof.
  unfold rate_field, py_max.
  destruct (num_lt (PInt 0) (PFloat rate)) eqn:E.
  - cbn [round1]. unfold bind.
    destruct (float_round rate 1) as [r|] eqn:Er; [|discriminate].
    intros [= <-]. now apply (float_round_pos rate r).
  - intros [= <-]. reflexivity.
Qed.

(** A float strictly between 0 and 100 is a percentage. *)
Lemma within_open (x : float) :
  num_lt (PInt 0) (PFloat x) = true -> num_lt (PFloat x) (PInt 100) = true ->
  within_0_100 (PFloat x) = true.
Proof.
  intros H0 H100. unfold within_0_100.
  rewrite (num_lt_asym _ _ H100), (num_lt_asym _ _ H0).
  rewrite num_lt_value in H0. cbn [value] in H0 |- *.
  destruct (float_value x); [reflexivity | discriminate].
Qed.

(** The tenths up to 100.0, one by one. *)
Lemma int_truediv_tenths (n : Z) (r : float) :
  1 <= n <= 1000 -> int_truediv n (10 ^ 1) = Ok r ->
  within_0_100 (PFloat r) = true.
Proof.
  intros Hn.
  assert (Hall : forallb
            (fun k => match int_truediv (Z.of_nat k) (10 ^ 1) with
                      | Ok q => within_0_100 (PFloat q)
                      | Raise _ => true
                      end) (seq 1 (Z.to_nat 1000)) = true)
    by (vm_compute; reflexivity).
  rewrite forallb_forall in Hall.
  specialize (Hall (Z.to_nat n)). rewrite Z2Nat.id in Hall by lia.
  intros Hr. rewrite Hr in Hall. apply Hall. apply in_seq. lia.
Qed.

(** [round(x, 1)] of a float strictly between 0 and 100 lies between 0
    and 100. *)
Lemma float_round_percent (x r : float) :
  num_lt (PInt 0) (PFloat x) = true -> num_lt (PFloat x) (PInt 100) = true ->
  float_round x 1 = Ok r -> within_0_100 (PFloat r) = true.
Proof.
  intros H0 H100. pose proof (within_open x H0 H100) as Hx.
  rewrite num_lt_value in H0, H100. cbn [value] in H0, H100.
  unfold float_value in H0, H100. unfold float_round.
  pose proof (Prim2SF_valid x) as Hv.
  destruct (Prim2SF x) as [s|s| |s m e] eqn:E; cbn [sf_value ext_lt] in H0, H100;
    try discriminate; try (intros [= <-]; exact Hx).
  destruct (Z.leb_spec 0 e) as [He|He]; [intros [= <-]; exact Hx|].
  apply valid_finite_inv in Hv. destruct Hv as (Hemin & _).
  assert (Hs : s = false).
  { destruct s; [|reflexivity]. apply Z.ltb_lt in H0.
    assert (0 <= 2 ^ (e + 1074)) by (apply Z.pow_nonneg; lia). nia. }
  subst s. apply Z.ltb_lt in H100.
  assert (Hm : Z.pos m < 100 * 2 ^ (- e)).
  { replace (2 ^ 1074) with (2 ^ (- e) * 2 ^ (e + 1074)) in H100
      by (rewrite <- Z.pow_add_r by (unfold SpecFloat.emin, emax, prec in *; lia);
          f_equal; lia).
    assert (0 < 2 ^ (e + 1074))
      by (apply Z.pow_pos_nonneg; unfold SpecFloat.emin, emax, prec in *; lia).
    nia. }
  assert (Hden : 0 < 2 ^ (- e)) by (apply Z.pow_pos_nonneg; lia).
  pose proof (round_half_even_bounds (Z.pos m * 10 ^ 1) (2 ^ (- e))
                ltac:(lia) Hden) as Hb.
  assert (Hq : 0 <= Z.pos m * 10 ^ 1 / 2 ^ (- e) < 1000).
  { split; [apply Z.div_pos; lia|].
    apply Z.div_lt_upper_bound; [exact Hden|]. change (10 ^ 1) with 10. lia. }
  set (n := round_half_even (Z.pos m * 10 ^ 1) (2 ^ (- e))) in *.
  destruct (Z.eqb_spec n 0); [intros [= <-]; reflexivity|].
  apply int_truediv_tenths. lia.
Qed.

Lemma io_percent_field_within (io_rate : float) (x : pynum) :
  io_percent_field io_rate = Ok x -> within_0_100 x = true.
Proof.
  unfold io_percent_field, bind.
  destruct (float_truediv io_rate 10) as [t|]; [|discriminate].
  unfold py_max, py_min.
  destruct (num_lt (PInt 0) (PFloat t)) eqn:E0.
  - destruct (num_lt (PFloat t) (PInt 100)) eqn:E100.
    + cbn [round1]. unfold bind.
      destruct (float_round t 1) as [r|] eqn:Er; [|discriminate].
      intros [= <-]. now apply (float_round_percent t r).
    + intros [= <-]. reflexivity.
  - change (num_lt (PInt 0) (PInt 100)) with true. cbv iota.
    intros [= <-]. reflexivity.
Qed.

End RoundedRates.

Section RatesFacts.
Import PyNum PyText PyBuiltins TopProcesses Tracked Rates.

Variable to_int : string -> result Z.
Variable monotonic : nat -> float.

Let disk_ok (d : disk) : Prop :=
  is_major_disk (disk_device d) = true
  /\ not_negative (read_bytes_sec d) = true
  /\ not_negative (write_bytes_sec d) = true
  /\ within_0_100 (io_percent d) = true.

Lemma read_disk_ok parts st st' d :
  read_disk to_int monotonic parts st = (st', Ok d) ->
  disk_device d = nth 2 parts EmptyString
  /\ not_negative (read_bytes_sec d) = true
  /\ not_negative (write_bytes_sec d) = true
  /\ within_0_100 (io_percent d) = true.
Proof.
  unfold read_disk, mbind, lift.
  repeat match goal with
         | |- context [match (do f <- getitem parts ?i; to_int f) with _ => _ end] =>
             destruct (do f <- getitem parts i; to_int f); [|discriminate]
         end.
  repeat match goal with
         | |- context [tracker_update monotonic ?k ?v ?s] =>
             destruct (tracker_update monotonic k v s) as [? [?|]]; [|discriminate]
         end.
  repeat match goal with
         | |- context [match rate_field ?x with _ => _ end] =>
             let E := fresh "Er" in
             destruct (rate_field x) eqn:E; [|discriminate]
         end.
  destruct (io_percent_field _) as [p|] eqn:Ep; [|discriminate].
  unfold ret. intros [= _ <-]. cbn.
  repeat split; eauto using rate_field_not_negative, io_percent_field_within.
Qed.

Lemma scan_disks_ok lines : forall io_stats st,
  Forall disk_ok io_stats ->
  Forall disk_ok (snd (scan_disks to_int monotonic lines io_stats st)).
Proof.
  induction lines as [|line lines IH]; intros io_stats st H; cbn [scan_disks];
    [exact H|].
  destruct (_ <? 14)%nat; [now apply IH|].
  destruct (is_major_disk _) eqn:Em; cbn [negb]; [|now apply IH].
  destruct (read_disk to_int monotonic _ st) as [st' [d|]] eqn:Er; [|exact H].
  apply IH. apply Forall_app. split; [exact H|].
  destruct (read_disk_ok _ _ _ _ Er) as (Hd & Hr & Hw & Hp).
  constructor; [|constructor]. unfold disk_ok. now rewrite Hd.
Qed.

(** X16: every entry that [get_disk_io] returns is a whole disk ([sdX],
    [vdX], [xvdX] or [nvmeNnM], never a partition), its read and write
    rates are numbers not below 0, and its ['io_percent'] is a number
    between 0 and 100, whatever [/proc/diskstats] holds, whatever the
    tracker has stored and whatever the clock does. *)
Theorem get_disk_io_entries (content : string) (st : state) :
  Forall (fun d => is_major_disk (disk_device d) = true
                   /\ not_negative (read_bytes_sec d) = true
                   /\ not_negative (write_bytes_sec d) = true
                   /\ within_0_100 (io_percent d) = true)
         (snd (get_disk_io to_int monotonic content st)).
Proof. unfold get_disk_io. apply scan_disks_ok. constructor. Qed.

Let iface_ok (i : interface) : Prop :=
  is_virtual_iface (iface_name i) = false
  /\ not_negative (rx_bytes_sec i) = true
  /\ not_negative (tx_bytes_sec i) = true.

Lemma read_interface_ok iface stats st st' i :
  read_interface to_int monotonic iface stats st = (st', Ok i) ->
  iface_name i = iface
  /\ not_negative (rx_bytes_sec i) = true
  /\ not_negative (tx_bytes_sec i) = true.
Proof.
  unfold read_interface, mbind, lift.
  repeat match goal with
         | |- context [match (do f <- getitem stats ?k; to_int f) with _ => _ end] =>
             destruct (do f <- getitem stats k; to_int f); [|discriminate]
         end.
  repeat match goal with
         | |- context [tracker_update monotonic ?k ?v ?s] =>
             destruct (tracker_update monotonic k v s) as [? [?|]]; [|discriminate]
         end.
  repeat match goal with
         | |- context [match rate_field ?x with _ => _ end] =>
             let E := fresh "Er" in
             destruct (rate_field x) eqn:E; [|discriminate]
         end.
  unfold ret. intros [= _ <-]. cbn.
  repeat split; eauto using rate_field_not_negative.
Qed.

Lemma scan_interfaces_ok lines : forall interfaces st,
  Forall iface_ok interfaces ->
  Forall iface_ok (snd (scan_interfaces to_int monotonic lines interfaces st)).
Proof.
  induction lines as [|line lines IH]; intros interfaces st H;
    cbn [scan_interfaces]; [exact H|].
  destruct (PyStr.contains ":" line); cbn [negb]; [|now apply IH].
  destruct (is_virtual_iface _) eqn:Ev; [now apply IH|].
  destruct (_ <? 16)%nat; [now apply IH|].
  destruct (read_interface to_int monotonic _ _ st) as [st' [i|]] eqn:Er; [|exact H].
  apply IH. apply Forall_app. split; [exact H|].
  destruct (read_interface_ok _ _ _ _ _ Er) as (Hn & Hr & Ht).
  constructor; [|constructor]. unfold iface_ok. now rewrite Hn.
Qed.


End RatesFacts.

(** ** The collectors keep to their own tracker keys *)

Section TrackerKeys.
Import PyNum PyText PyBuiltins TopProcesses Tracked.

Variable to_int : string -> result Z.
Variable monotonic : nat -> float.

(** [keeps own m]: [m] leaves every entry of [tracker._data] whose key is
    not one of [own] as it was *)
Let keeps {A : Type} (own : string -> bool) (m : M A) : Prop :=
  forall st k, own k = false -> data (fst (m st)) !! k = data st !! k.

(** [still m]: [m] leaves [core_tracker._cores] as it was *)
Let still {A : Type} (m : M A) : Prop :=
  forall st, cores (fst (m st)) = cores st.

Lemma keeps_ret {A : Type} own (a : A) : keeps own (ret a).
Proof. intros st k _. reflexivity. Qed.

Lemma keeps_lift {A : Type} own (r : result A) : keeps own (lift r).
Proof. intros st k _. reflexivity. Qed.

Lemma keeps_bind {A B : Type} own (m : M A) (f : A -> M B) :
  keeps own m -> (forall a, keeps own (f a)) -> keeps own (mbind m f).
Proof.
  intros Hm Hf st k Hk. unfold mbind.
  specialize (Hm st k Hk). destruct (m st) as [st' [a|e]]; cbn [fst] in Hm |- *.
  - now rewrite (Hf a st' k Hk).
  - exact Hm.
Qed.

Lemma delta_update_other (d : gmap string (Z * float)) now key v k :
  k <> key -> fst (DeltaTracker.update d now key v) !! k = d !! k.
Proof.
  intros Hk. unfold DeltaTracker.update.
  destruct (d !! key) as [[ov ot]|]; [destruct (0 <? _)%float|]; cbn [fst];
    now rewrite !lookup_insert_ne by congruence.
Qed.

Lemma keeps_update own key v :
  own key = true -> keeps own (tracker_update monotonic key v).
Proof.
  intros Hown st k Hk. unfold tracker_update.
  pose proof (delta_update_other (data st) (monotonic (calls st)) key v k) as H.
  destruct (DeltaTracker.update _ _ key v) as [d r]. cbn [fst data] in H |- *.
  apply H. intros ->. congruence.
Qed.

Lemma keeps_core_update own core_id idle total :
  keeps own (core_tracker_update core_id idle total).
Proof.
  intros st k _. unfold core_tracker_update.
  destruct (CoreTracker.update _ _ _ _). reflexivity.
Qed.

Lemma still_ret {A : Type} (a : A) : still (ret a).
Proof. intros st. reflexivity. Qed.

Lemma still_lift {A : Type} (r : result A) : still (lift r).
Proof. intros st. reflexivity. Qed.

Lemma still_bind {A B : Type} (m : M A) (f : A -> M B) :
  still m -> (forall a, still (f a)) -> still (mbind m f).
Proof.
  intros Hm Hf st. unfold mbind.
  specialize (Hm st). destruct (m st) as [st' [a|e]]; cbn [fst] in Hm |- *.
  - now rewrite (Hf a st').
  - exact Hm.
Qed.

Lemma still_update key v : still (tracker_update monotonic key v).
Proof.
  intros st. unfold tracker_update.
  destruct (DeltaTracker.update _ _ key v). reflexivity.
Qed.

Lemma prefix_append (p s : string) : String.prefix p (p ++ s)%string = true.
Proof.
  induction p as [|c p IH]; [now destruct s|].
  change (String c p ++ s)%string with (String c (p ++ s)%string).
  cbn [String.prefix]. destruct (ascii_dec c c); [exact IH | contradiction].
Qed.

Ltac keeps_steps :=
  repeat first
    [ apply keeps_ret | apply keeps_lift | apply keeps_core_update
    | apply keeps_update; first [reflexivity | apply prefix_append]
    | apply keeps_bind; [|intros ?] ].

Ltac still_steps :=
  repeat first
    [ apply still_ret | apply still_lift | apply still_update
    | apply still_bind; [|intros ?] ].

Let cpu_key (k : string) : bool :=
  String.eqb k "cpu_idle" || String.eqb k "cpu_total" || String.eqb k "ctxt".

Lemma scan_cores_keeps lines : forall cs,
  keeps cpu_key (CpuStat.scan_cores to_int lines cs).
Proof.
  induction lines as [|line lines IH]; intros cs; cbn [CpuStat.scan_cores].
  - apply keeps_ret.
  - destruct (CpuStat.is_core_line line); [|apply IH].
    keeps_steps. apply IH.
Qed.

Lemma scan_disks_keeps lines : forall io_stats st k,
  PyStr.startswith "disk_" k = false ->
  data (fst (Rates.scan_disks to_int monotonic lines io_stats st)) !! k
  = data st !! k
  /\ cores (fst (Rates.scan_disks to_int monotonic lines io_stats st)) = cores st.
Proof.
  induction lines as [|line lines IH]; intros io_stats st k Hk;
    cbn [Rates.scan_disks]; [now split|].
  destruct (_ <? 14)%nat; [now apply IH|].
  destruct (negb _); [now apply IH|].
  assert (Hkeep : keeps (PyStr.startswith "disk_")
                    (Rates.read_disk to_int monotonic (split_ws line)))
    by (unfold Rates.read_disk, PyStr.startswith; keeps_steps).
  assert (Hstill : still (Rates.read_disk to_int monotonic (split_ws line)))
    by (unfold Rates.read_disk; still_steps).
  specialize (Hkeep st k Hk). specialize (Hstill st).
  destruct (Rates.read_disk to_int monotonic _ st) as [st' [d|]];
    cbn [fst] in Hkeep, Hstill |- *.
  - destruct (IH (io_stats ++ [d])%list st' k Hk) as [H1 H2].
    split; congruence.
  - now split.
Qed.

Lemma scan_interfaces_keeps lines : forall interfaces st k,
  PyStr.startswith "net_" k = false ->
  data (fst (Rates.scan_interfaces to_int monotonic lines interfaces st)) !! k
  = data st !! k
  /\ cores (fst (Rates.scan_interfaces to_int monotonic lines interfaces st))
     = cores st.
Proof.
  induction lines as [|line lines IH]; intros interfaces st k Hk;
    cbn [Rates.scan_interfaces]; [now split|].
  destruct (negb _); [now apply IH|].
  destruct (Rates.is_virtual_iface _); [now apply IH|].
  destruct (_ <? 16)%nat; [now apply IH|].
  set (iface := PyStr.strip _). set (stats := split_ws _).
  assert (Hkeep : keeps (PyStr.startswith "net_")
                    (Rates.read_interface to_int monotonic iface stats))
    by (unfold Rates.read_interface, PyStr.startswith; keeps_steps).
  assert (Hstill : still (Rates.read_interface to_int monotonic iface stats))
    by (unfold Rates.read_interface; still_steps).
  specialize (Hkeep st k Hk). specialize (Hstill st).
  destruct (Rates.read_interface to_int monotonic _ _ st) as [st' [i|]];
    cbn [fst] in Hkeep, Hstill |- *.
  - destruct (IH (interfaces ++ [i])%list st' k Hk) as [H1 H2].
    split; congruence.
  - now split.
Qed.

(** X18: the collectors that share the rate tracker keep to keys of
    their own, whatever they read and however they end: [get_cpu] changes
    no entry other than ['cpu_idle'], ['cpu_total'] and ['ctxt'],
    [get_disk_io] none whose key does not begin with [disk_] and
    [get_network] none whose key does not begin with [net_]; and the last
    two leave the per-core tracker as it was. *)
Theorem collectors_own_keys (content : string) (st : state) :
  (forall k, k <> "cpu_idle" -> k <> "cpu_total" -> k <> "ctxt" ->
     data (fst (CpuStat.get_cpu to_int monotonic content st)) !! k = data st !! k)
  /\ (forall k, PyStr.startswith "disk_" k = false ->
     data (fst (Rates.get_disk_io to_int monotonic content st)) !! k = data st !! k)
  /\ cores (fst (Rates.get_disk_io to_int monotonic content st)) = cores st
  /\ (forall k, PyStr.startswith "net_" k = false ->
     data (fst (Rates.get_network to_int monotonic content st)) !! k = data st !! k)
  /\ cores (fst (Rates.get_network to_int monotonic content st)) = cores st.
Proof.
  split; [|split; [|split; [|split]]].
  - intros k H1 H2 H3.
    assert (Hk : cpu_key k = false).
    { unfold cpu_key. destruct (String.eqb_spec k "cpu_idle"); [contradiction|].
      destruct (String.eqb_spec k "cpu_total"); [contradiction|].
      destruct (String.eqb_spec k "ctxt"); [contradiction | reflexivity]. }
    assert (Hkeep : keeps cpu_key (CpuStat.get_cpu_body to_int monotonic content)).
    { unfold CpuStat.get_cpu_body. keeps_steps. apply scan_cores_keeps. }
    specialize (Hkeep st k Hk). unfold CpuStat.get_cpu.
    destruct (CpuStat.get_cpu_body to_int monotonic content st) as [st' [v|]];
      exact Hkeep.
  - intros k Hk. now apply scan_disks_keeps.
  - apply (scan_disks_keeps _ _ _ "" eq_refl).
  - intros k Hk. now apply scan_interfaces_keeps.
  - apply (scan_interfaces_keeps _ _ _ "" eq_refl).
Qed.

End TrackerKeys.

(** ** Reading [/proc/<pid>/stat] *)

Section ProcStatFacts.
Import PyText PyBuiltins TopProcesses ProcStat.

Local Open Scope string_scope.

Variable to_int : string -> result Z.

Lemma index_app (c : ascii) (p s : string) :
  PyStr.contains (String c "") p = false ->
  index c (p ++ String c s) = Some (String.length p).
Proof.
  induction p as [|a p IH]; intros H.
  - change ("" ++ String c s) with (String c s). cbn [index].
    now rewrite Ascii.eqb_refl.
  - rewrite contains_char_cons in H. apply orb_false_elim in H.
    destruct H as [Ha Hp].
    change (String a p ++ String c s) with (String a (p ++ String c s)).
    cbn [index String.length]. rewrite Ascii.eqb_sym, Ha.
    now rewrite (IH Hp).
Qed.

Lemma rindex_none (c : ascii) (t : string) :
  PyStr.contains (String c "") t = false -> rindex c t = None.
Proof.
  induction t as [|a t IH]; intros H; [reflexivity|].
  rewrite contains_char_cons in H. apply orb_false_elim in H.
  destruct H as [Ha Ht]. cbn [rindex]. rewrite (IH Ht).
  now rewrite Ascii.eqb_sym, Ha.
Qed.

Lemma rindex_app (c : ascii) (a t : string) :
  PyStr.contains (String c "") t = false ->
  rindex c (a ++ String c t) = Some (String.length a).
Proof.
  intros Ht. induction a as [|x a IH].
  - change ("" ++ String c t) with (String c t). cbn [rindex].
    now rewrite (rindex_none c t Ht), Ascii.eqb_refl.
  - change (String x a ++ String c t) with (String x (a ++ String c t)).
    cbn [rindex String.length]. now rewrite IH.
Qed.

Lemma substring_skip (a b : string) (n : nat) :
  String.substring (String.length a) n (a ++ b) = String.substring 0 n b.
Proof.
  induction a as [|x a IH]; [reflexivity|].
  change (String x a ++ b) with (String x (a ++ b)). exact IH.
Qed.

Lemma substring_take (a b : string) :
  String.substring 0 (String.length a) (a ++ b) = a.
Proof.
  induction a as [|x a IH]; [now destruct b|].
  change (String x a ++ b) with (String x (a ++ b)).
  cbn [String.length String.substring]. now rewrite IH.
Qed.

Lemma drop_app (a b : string) (n : nat) :
  drop (String.length a + n) (a ++ b) = drop n b.
Proof.
  induction a as [|x a IH]; [reflexivity|].
  change (String x a ++ b) with (String x (a ++ b)). exact IH.
Qed.

Lemma length_append (a b : string) :
  String.length (a ++ b) = (String.length a + String.length b)%nat.
Proof.
  induction a as [|x a IH]; [reflexivity|].
  change (String x a ++ b) with (String x (a ++ b)).
  cbn [String.length]. now rewrite IH.
Qed.

(** X19: the command name is read whole, whatever it holds.  For a
    [stat] text made of a pid part without [(], the name between
    parentheses and a tail without [)], the name that is reported is
    exactly the name between the first [(] and the last [)], spaces and
    parentheses included, and the numbers are read from the fields that
    follow the character after that last [)]. *)
Theorem parse_stat_comm (pid_text name tail : string) :
  PyStr.contains "(" pid_text = false ->
  PyStr.contains ")" tail = false ->
  parse to_int (pid_text ++ String "(" (name ++ String ")" tail))
  = read_fields to_int name (split_ws (drop 1 tail)).
Proof.
  intros Hpid Htail. unfold parse.
  rewrite (index_app "(" pid_text _ Hpid).
  replace (pid_text ++ String "(" (name ++ String ")" tail))
    with ((pid_text ++ String "(" name) ++ String ")" tail)
    by (rewrite str_app_assoc; reflexivity).
  rewrite (rindex_app ")" _ tail Htail).
  f_equal.
  - unfold slice_str. rewrite length_append. cbn [String.length].
    replace (String.length pid_text + S (String.length name)
             - (String.length pid_text + 1))%nat
      with (String.length name) by lia.
    replace ((pid_text ++ String "(" name) ++ String ")" tail)
      with ((pid_text ++ "(") ++ (name ++ String ")" tail))
      by (rewrite !str_app_assoc; reflexivity).
    replace (String.length pid_text + 1)%nat with (String.length (pid_text ++ "("))
      by (rewrite length_append; reflexivity).
    now rewrite substring_skip, substring_take.
  - f_equal.
    replace ((pid_text ++ String "(" name) ++ String ")" tail)
      with (((pid_text ++ String "(" name) ++ ")") ++ tail)
      by (rewrite !str_app_assoc; reflexivity).
    replace (String.length (pid_text ++ String "(" name) + 2)%nat
      with (String.length ((pid_text ++ String "(" name) ++ ")") + 1)%nat
      by (rewrite (length_append _ ")"); cbn [String.length]; lia).
    apply drop_app.
Qed.

End ProcStatFacts.

Lemma parse_stat_comm_witness :
  ProcStat.parse PyText.int_of_str ProcStat.stat_sample
  = Ok {| TopProcesses.comm := "Web Content (x)"; TopProcesses.utime := 700;
          TopProcesses.stime := 300; TopProcesses.starttime := 5000;
          TopProcesses.vsize := 2000000; TopProcesses.rss := 300 |}.
Proof.
  exact (eq_trans
    (parse_stat_comm PyText.int_of_str "4242 " "Web Content (x)"
       " S 1 4242 4242 0 -1 4194560 100 0 0 0 700 300 0 0 20 0 8 0 5000 2000000 300 18446744073709551615"
       eq_refl eq_refl)
    eq_refl).
Defined.

(** ** [get_recent_logs]: the limit *)

Section LogsFacts.
Import Logs.

Context {A : Type}.

(** X20: [get_recent_logs] returns the end of what its four sections have
    collected, in the order of collection (Docker events, Caddy requests,
    system warnings, SSH logins) and without re-ordering: for
    [max_entries > 0] the last [min(max_entries, number collected)]
    entries, so at most [max_entries] of them and, when the SSH section
    alone has that many, SSH entries only; for [max_entries = 0]
    everything that was collected, not nothing. *)
Theorem get_recent_logs_limit (docker caddy system ssh : list A) (max_entries : Z) :
  (exists dropped,
     docker ++ caddy ++ system ++ ssh
     = dropped ++ get_recent_logs docker caddy system ssh max_entries)
  /\ (0 < max_entries ->
      length (get_recent_logs docker caddy system ssh max_entries)
      = Nat.min (Z.to_nat max_entries) (length (docker ++ caddy ++ system ++ ssh))
      /\ (Z.to_nat max_entries <= length ssh ->
          exists older,
            ssh = older ++ get_recent_logs docker caddy system ssh max_entries)%nat)
  /\ get_recent_logs docker caddy system ssh 0 = docker ++ caddy ++ system ++ ssh.
Proof.
  unfold get_recent_logs, tail_slice.
  set (logs := docker ++ caddy ++ system ++ ssh).
  split; [|split].
  - eexists. symmetry. apply firstn_skipn.
  - intros Hn.
    destruct (Z.ltb_spec (- max_entries) 0) as [_|]; [|lia].
    assert (Hstart : Z.to_nat (Z.max (- max_entries + Z.of_nat (length logs)) 0)
                     = (length logs - Z.to_nat max_entries)%nat) by lia.
    rewrite Hstart. split; [rewrite length_skipn; lia|].
    intros Hssh.
    assert (Hl : logs = (docker ++ caddy ++ system) ++ ssh)
      by (unfold logs; now rewrite <- !app_assoc).
    rewrite Hl, skipn_app, length_app.
    rewrite (skipn_all2 (docker ++ caddy ++ system)) by lia.
    cbn [app]. eexists. symmetry. apply firstn_skipn.
  - change (- 0 <? 0) with false. cbv iota.
    replace (Z.to_nat (Z.min (- 0) (Z.of_nat (length logs)))) with 0%nat by lia.
    reflexivity.
Qed.

End LogsFacts.
